(** * Skill front-matter optimizer: analyzer, generator, scorer and advisor

    A shallow embedding of [scripts/analyze_skill.py] and
    [scripts/generate_description.py], followed by the properties of the
    natural-language specification that they satisfy or violate.

    Text is modelled as a list of 7-bit ASCII characters: case mapping,
    [\s], [\d], [\w] and [\b] follow Python on that range; characters with a
    code above 127 are carried along uninterpreted (no case, not a word
    character, not white space).  Python folds case and draws word
    boundaries beyond that range as well: the statements about the words
    of a text and about the file types found in it are made for texts
    with [ascii_text].

    Two things outside the scripts are parameters of the analyzer: the YAML
    decoder [yaml.safe_load], and the order in which Python iterates over a
    set of strings.  A dictionary keeps its keys in insertion order and
    [sorted] is stable, as in Python 3.7 and later.  Header values are
    strings; a skill folder is given by its name, the text of its SKILL.md
    if there is one, and the presence of its three resource folders. *)

From Stdlib Require Import Ascii String List Arith Bool Lia.
From Stdlib Require Import Permutation Sorting.Sorted.
Import ListNotations.

Open Scope list_scope.
Open Scope bool_scope.

(** ** Characters and Python string primitives *)

Definition str := list ascii.

(** String literals of the source. *)
Definition L (x : string) : str := list_ascii_of_string x.

Definition code (c : ascii) : nat := nat_of_ascii c.

Definition in_range (lo hi : nat) (c : ascii) : bool :=
  (lo <=? code c) && (code c <=? hi).

Definition is_upper (c : ascii) : bool := in_range 65 90 c.
Definition is_lower (c : ascii) : bool := in_range 97 122 c.
Definition is_alpha (c : ascii) : bool := is_upper c || is_lower c.
(** [\d] *)
Definition is_digit (c : ascii) : bool := in_range 48 57 c.
(** [\w], and with it [\b], on 7-bit ASCII. *)
Definition is_word (c : ascii) : bool :=
  is_alpha c || is_digit c || Ascii.eqb c "_".
(** [\s] and [str.isspace]: TAB..CR, FS..US and the space. *)
Definition is_space (c : ascii) : bool := in_range 9 13 c || in_range 28 32 c.

Definition lower_c (c : ascii) : ascii :=
  if is_upper c then ascii_of_nat (code c + 32) else c.
Definition upper_c (c : ascii) : ascii :=
  if is_lower c then ascii_of_nat (code c - 32) else c.

(** [s.lower()], on 7-bit ASCII. *)
Definition lower (s : str) : str := map lower_c s.

(** [s.title()]: a cased character is upper-cased when the character before
    it is not cased, lower-cased otherwise. *)
Fixpoint title_aux (prev_cased : bool) (s : str) : str :=
  match s with
  | [] => []
  | c :: s' =>
      (if prev_cased then lower_c c else upper_c c) :: title_aux (is_alpha c) s'
  end.
Definition title (s : str) : str := title_aux false s.

(** [s.capitalize()] *)
Definition capitalize (s : str) : str :=
  match s with
  | [] => []
  | c :: s' => upper_c c :: lower s'
  end.

(** [s.replace(a, b)] for one-character [a] and [b]. *)
Definition replace_c (a b : ascii) (s : str) : str :=
  map (fun c => if Ascii.eqb c a then b else c) s.

Fixpoint dropwhile {A} (p : A -> bool) (l : list A) : list A :=
  match l with
  | [] => []
  | x :: l' => if p x then dropwhile p l' else l
  end.

Definition lstrip_p (p : ascii -> bool) (s : str) : str := dropwhile p s.
Definition rstrip_p (p : ascii -> bool) (s : str) : str :=
  rev (dropwhile p (rev s)).

(** [s.strip()] *)
Definition strip (s : str) : str := rstrip_p is_space (lstrip_p is_space s).

Definition mem_c (chars : str) (c : ascii) : bool := existsb (Ascii.eqb c) chars.
(** [s.rstrip(chars)] *)
Definition rstrip (chars : str) (s : str) : str := rstrip_p (mem_c chars) s.

(** [sep.join(l)] *)
Fixpoint join (sep : str) (l : list str) : str :=
  match l with
  | [] => []
  | [x] => x
  | x :: l' => x ++ sep ++ join sep l'
  end.

Fixpoint str_eqb (a b : str) : bool :=
  match a, b with
  | [], [] => true
  | x :: a', y :: b' => Ascii.eqb x y && str_eqb a' b'
  | _, _ => false
  end.

(** [s.startswith(p)] *)
Fixpoint startswith (p s : str) : bool :=
  match p, s with
  | [], _ => true
  | x :: p', y :: s' => Ascii.eqb x y && startswith p' s'
  | _ :: _, [] => false
  end.

(** [w in s] on strings. *)
Fixpoint contains (w s : str) : bool :=
  startswith w s ||
  match s with
  | [] => false
  | _ :: s' => contains w s'
  end.

(** [x in l] on a list or set of strings. *)
Definition mem (x : str) (l : list str) : bool := existsb (str_eqb x) l.

(** [a <= b] on strings: lexicographic on character codes. *)
Fixpoint str_leb (a b : str) : bool :=
  match a, b with
  | [], _ => true
  | _ :: _, [] => false
  | x :: a', y :: b' =>
      if code x <? code y then true
      else if code y <? code x then false
      else str_leb a' b'
  end.

(** [sorted(l, key)] as a stable insertion sort; [leb x y] says that [x]
    may stand before [y]. *)
Fixpoint insert_sorted {A} (leb : A -> A -> bool) (x : A) (l : list A) : list A :=
  match l with
  | [] => [x]
  | y :: l' => if leb x y then x :: l else y :: insert_sorted leb x l'
  end.
Fixpoint sorted_by {A} (leb : A -> A -> bool) (l : list A) : list A :=
  match l with
  | [] => []
  | x :: l' => insert_sorted leb x (sorted_by leb l')
  end.

(** [sorted(l)] on strings. *)
Definition sorted (l : list str) : list str := sorted_by str_leb l.

(** The elements of [set(l)], each once. *)
Fixpoint dedup (l : list str) : list str :=
  match l with
  | [] => []
  | x :: l' => if mem x l' then dedup l' else x :: dedup l'
  end.

(** [l[:-1]] and [l[-1]]. *)
Definition but_last {A} (l : list A) : list A := removelast l.

(** [str(n)] for a natural number. *)
Definition digit_c (n : nat) : ascii := ascii_of_nat (48 + n).
Fixpoint str_of_nat_aux (fuel n : nat) (acc : str) : str :=
  match fuel with
  | 0 => acc
  | S f =>
      let acc' := digit_c (n mod 10) :: acc in
      if n <? 10 then acc' else str_of_nat_aux f (n / 10) acc'
  end.
Definition str_of_nat (n : nat) : str := str_of_nat_aux (S n) n [].

(** [repr(l)] for a list of strings without quotes or escapes. *)
Definition repr_str (s : str) : str := L "'" ++ s ++ L "'".
Definition repr_list (l : list str) : str :=
  L "[" ++ join (L ", ") (map repr_str l) ++ L "]".

(** ** Regular expressions

    The fragment of Python's [re] that the two scripts use: single
    characters and classes, concatenation, alternation, optional groups,
    bounded and unbounded repetition of a class (greedy or lazy), one
    capturing group, and the assertions [^], [$] and [\b].  The matcher is a
    backtracking matcher with Python's priorities: alternatives left to
    right, greedy repetition longest first, lazy repetition shortest
    first. *)

Inductive re : Type :=
| Chr (p : ascii -> bool)
| Emp
| Cat (r1 r2 : re)
| Alt (r1 r2 : re)
| Opt (r : re)
| Rep (greedy : bool) (p : ascii -> bool) (lo : nat) (hi : option nat)
| Grp (r : re)
| Bol (multiline : bool)
| Eol (multiline : bool)
| Wb.

Definition hi_open (hi : option nat) : bool :=
  match hi with Some 0 => false | _ => true end.
Definition hi_pred (hi : option nat) : option nat :=
  match hi with Some n => Some (pred n) | None => None end.

Fixpoint rep_greedy {A} (p : ascii -> bool) (lo : nat) (hi : option nat)
    (prev : option ascii) (s : str)
    (k : option ascii -> str -> option A) : option A :=
  match s with
  | c :: s' =>
      if p c && hi_open hi then
        match rep_greedy p (pred lo) (hi_pred hi) (Some c) s' k with
        | Some a => Some a
        | None => if lo =? 0 then k prev s else None
        end
      else if lo =? 0 then k prev s else None
  | [] => if lo =? 0 then k prev s else None
  end.

Fixpoint rep_lazy {A} (p : ascii -> bool) (lo : nat) (hi : option nat)
    (prev : option ascii) (s : str)
    (k : option ascii -> str -> option A) : option A :=
  match (if lo =? 0 then k prev s else None) with
  | Some a => Some a
  | None =>
      match s with
      | c :: s' =>
          if p c && hi_open hi
          then rep_lazy p (pred lo) (hi_pred hi) (Some c) s' k
          else None
      | [] => None
      end
  end.

Definition word_opt (c : option ascii) : bool :=
  match c with Some x => is_word x | None => false end.

Definition at_bol (multiline : bool) (prev : option ascii) : bool :=
  match prev with
  | None => true
  | Some c => multiline && Ascii.eqb c "010"
  end.

Definition at_eol (multiline : bool) (s : str) : bool :=
  match s with
  | [] => true
  | c :: s' =>
      Ascii.eqb c "010" && (multiline || match s' with [] => true | _ => false end)
  end.

(** [m r g prev s k]: match [r] at the head of [s], where [prev] is the
    character before it and [g] the capture so far, and hand the capture,
    the last character consumed and the rest to [k]. *)
Fixpoint m {A} (r : re) (g : option str) (prev : option ascii) (s : str)
    (k : option str -> option ascii -> str -> option A) {struct r} : option A :=
  match r with
  | Chr p =>
      match s with
      | c :: s' => if p c then k g (Some c) s' else None
      | [] => None
      end
  | Emp => k g prev s
  | Cat r1 r2 => m r1 g prev s (fun g1 p1 s1 => m r2 g1 p1 s1 k)
  | Alt r1 r2 =>
      match m r1 g prev s k with
      | Some a => Some a
      | None => m r2 g prev s k
      end
  | Opt r1 =>
      match m r1 g prev s k with
      | Some a => Some a
      | None => k g prev s
      end
  | Rep true p lo hi => rep_greedy p lo hi prev s (k g)
  | Rep false p lo hi => rep_lazy p lo hi prev s (k g)
  | Grp r1 =>
      m r1 g prev s
        (fun _ p1 s1 => k (Some (firstn (length s - length s1) s)) p1 s1)
  | Bol ml => if at_bol ml prev then k g prev s else None
  | Eol ml => if at_eol ml s then k g prev s else None
  | Wb =>
      if xorb (word_opt prev) (word_opt (hd_error s)) then k g prev s else None
  end.

(** The match at the head of [s], as its length and its capture. *)
Definition match_at (r : re) (prev : option ascii) (s : str)
  : option (nat * option str) :=
  m r None prev s (fun g _ s' => Some (length s - length s', g)).

(** [re.match(r, s)] *)
Definition re_match (r : re) (s : str) : option (nat * option str) :=
  match_at r None s.

Fixpoint search_from (r : re) (prev : option ascii) (s : str) : bool :=
  match match_at r prev s with
  | Some _ => true
  | None =>
      match s with
      | [] => false
      | c :: s' => search_from r (Some c) s'
      end
  end.

(** [bool(re.search(r, s))] *)
Definition re_search (r : re) (s : str) : bool := search_from r None s.

(** What [findall] reports for one match: the group when there is one. *)
Definition found (n : nat) (g : option str) (s : str) : str :=
  match g with
  | Some x => x
  | None => firstn n s
  end.

(** [skip] counts the characters of the last match still to pass. *)
Fixpoint findall_aux (r : re) (skip : nat) (prev : option ascii) (s : str)
  : list str :=
  match s with
  | [] =>
      match skip, match_at r prev [] with
      | 0, Some (n, g) => [found n g []]
      | _, _ => []
      end
  | c :: s' =>
      match skip with
      | S k => findall_aux r k (Some c) s'
      | 0 =>
          match match_at r prev s with
          | Some (n, g) => found n g s :: findall_aux r (pred n) (Some c) s'
          | None => findall_aux r 0 (Some c) s'
          end
      end
  end.

(** [re.findall(r, s)] *)
Definition re_findall (r : re) (s : str) : list str := findall_aux r 0 None s.

Definition count_open (count : option nat) : bool :=
  match count with Some 0 => false | _ => true end.

Fixpoint sub_aux (r : re) (repl : str) (count : option nat) (skip : nat)
    (prev : option ascii) (s : str) : str :=
  match s with
  | [] =>
      match skip, count_open count, match_at r prev [] with
      | 0, true, Some _ => repl
      | _, _, _ => []
      end
  | c :: s' =>
      match skip with
      | S k => sub_aux r repl count k (Some c) s'
      | 0 =>
          if count_open count then
            match match_at r prev s with
            | Some (S n, _) => repl ++ sub_aux r repl (hi_pred count) n (Some c) s'
            | Some (0, _) => repl ++ c :: sub_aux r repl (hi_pred count) 0 (Some c) s'
            | None => c :: sub_aux r repl count 0 (Some c) s'
            end
          else c :: sub_aux r repl count 0 (Some c) s'
      end
  end.

(** [re.sub(r, repl, s, count)]; [None] is Python's [count=0], no limit. *)
Definition re_sub (r : re) (repl : str) (count : option nat) (s : str) : str :=
  sub_aux r repl count 0 None s.

(** Builders for the patterns of the source. *)
Definition ch (c : ascii) : re := Chr (Ascii.eqb c).
Definition ch_ci (c : ascii) : re := Chr (fun x => Ascii.eqb (lower_c x) (lower_c c)).
Fixpoint lits_with (f : ascii -> re) (s : str) : re :=
  match s with
  | [] => Emp
  | [c] => f c
  | c :: s' => Cat (f c) (lits_with f s')
  end.
(** A literal word, and the same under [re.IGNORECASE] on 7-bit ASCII. *)
Definition lit (w : string) : re := lits_with ch (L w).
Definition lit_ci (w : string) : re := lits_with ch_ci (L w).
Fixpoint alts (l : list re) : re :=
  match l with
  | [] => Chr (fun _ => false)
  | [r] => r
  | r :: l' => Alt r (alts l')
  end.
Fixpoint cats (l : list re) : re :=
  match l with
  | [] => Emp
  | [r] => r
  | r :: l' => Cat r (cats l')
  end.
Definition plus (p : ascii -> bool) : re := Rep true p 1 None.
Definition star (p : ascii -> bool) : re := Rep true p 0 None.
Definition not_c (c : ascii) : ascii -> bool := fun x => negb (Ascii.eqb x c).
(** [.] without and with [re.DOTALL]. *)
Definition dot : ascii -> bool := not_c "010".
Definition dot_all : ascii -> bool := fun _ => true.

(** ** analyze_skill.py *)

Definition ACTION_VERBS : list str := map L
  [ "create"; "build"; "generate"; "make"; "write"; "produce";
    "edit"; "modify"; "update"; "change"; "fix"; "revise";
    "analyze"; "extract"; "process"; "parse"; "read"; "examine";
    "convert"; "transform"; "merge"; "split"; "combine";
    "fill"; "complete"; "validate"; "verify"; "check";
    "format"; "style"; "design"; "layout"; "render" ]%string.

Definition primary_names : list string :=
  [ "docx"; "xlsx"; "pdf"; "pptx"; "csv"; "tsv"; "json"; "xml"; "html" ]%string.

Definition all_names : list string :=
  [ "docx"; "xlsx"; "pdf"; "pptx"; "csv"; "tsv"; "json"; "xml"; "html";
    "md"; "txt"; "py"; "js"; "ts"; "jsx"; "tsx"; "yaml"; "yml";
    "png"; "jpg"; "jpeg"; "gif"; "svg" ]%string.

(** [\.(docx|xlsx|...)\b] with [re.IGNORECASE]: a dot, one of the names as
    group 1, and a word boundary. *)
Definition extension_re (names : list string) : re :=
  cats [ch "."; Grp (alts (map lit_ci names)); Wb].

Definition PRIMARY_EXTENSIONS : re := extension_re primary_names.

Definition ALL_EXTENSIONS : re := extension_re all_names.

(** The decoded header: string keys, string values.  The scripts are
    modelled on such headers; on another answer of [yaml.safe_load] (no
    mapping, or a value that is no string) they raise. *)
Definition header := list (str * str).

Fixpoint get (key : str) (h : header) : option str :=
  match h with
  | [] => None
  | (k, v) :: h' => if str_eqb k key then Some v else get key h'
  end.

(** [d.get(key, default)] *)
Definition get_or (key : str) (default : str) (h : header) : str :=
  match get key h with
  | Some v => v
  | None => default
  end.

Definition nl : ascii := "010".
Definition quote_c : ascii := "034".

(** [^---\n(.*?)\n---] with [re.DOTALL]. *)
Definition frontmatter_re : re :=
  cats [Bol false; lit "---"; ch nl; Grp (Rep false dot_all 0 None); ch nl; lit "---"].

(** The pattern of [extract_body], with [re.DOTALL]: the header block as
    above without a group, an optional newline, and the rest as group 1. *)
Definition body_re : re :=
  cats [Bol false; lit "---"; ch nl; Rep false dot_all 0 None; ch nl; lit "---";
        Opt (ch nl); Grp (star dot_all)].

Definition extract_body (content : str) : str :=
  match re_match body_re content with
  | Some (_, Some g) => g
  | _ => content
  end.

(** The code and configuration extensions that [find_file_types] sets aside. *)
Definition code_exts : list str :=
  map L [ "py"; "js"; "ts"; "jsx"; "tsx"; "yaml"; "yml"; "md"; "txt" ]%string.

Definition is_nil {A} (l : list A) : bool :=
  match l with [] => true | _ => false end.

Definition find_file_types (content : str) : list str :=
  let primary_matches := re_findall PRIMARY_EXTENSIONS content in
  if negb (is_nil primary_matches) then
    sorted (dedup (map lower primary_matches))
  else
    let all_matches := re_findall ALL_EXTENSIONS content in
    let extensions := dedup (map lower all_matches) in
    let doc_exts := filter (fun e => negb (mem e code_exts)) extensions in
    if negb (is_nil doc_exts) then sorted doc_exts else sorted extensions.

(** [collections.Counter]: counts keyed in first-insertion order. *)
Definition counter := list (str * nat).

Fixpoint counter_add (v : str) (c : counter) : counter :=
  match c with
  | [] => [(v, 1)]
  | (k, n) :: c' =>
      if str_eqb k v then (k, S n) :: c' else (k, n) :: counter_add v c'
  end.

Definition Counter (l : list str) : counter :=
  fold_left (fun c v => counter_add v c) l [].

(** [c.most_common(n)]: [sorted(c.items(), key=count, reverse=True)[:n]],
    a stable sort, so equal counts keep the counter's order. *)
Definition most_common (n : nat) (c : counter) : counter :=
  firstn n (sorted_by (fun x y => snd y <=? snd x) c).

(** [\b[a-z]+\b] *)
Definition word_re : re := cats [Wb; plus is_lower; Wb].

Definition find_action_verbs (content : str) : list str :=
  let words := re_findall word_re (lower content) in
  let found := filter (fun w => mem w ACTION_VERBS) words in
  let counter := Counter found in
  map fst (most_common 10 counter).

(** [^#{1,3}\s+(.+)$] with [re.MULTILINE]. *)
Definition heading_re : re :=
  cats [Bol true; Rep true (Ascii.eqb "#") 1 (Some 3); plus is_space;
        Grp (plus dot); Eol true].

Definition extract_headings (content : str) : list str :=
  re_findall heading_re content.

Definition fence : re := lit "```".

Definition find_code_patterns (content : str) : list str :=
  let patterns :=
    [ (L "python",
       re_search (alts [Cat fence (lit "python");
                        Cat (lit "import ") (plus is_word);
                        cats [lit "def "; plus is_word; ch "("]]) content);
      (L "javascript",
       re_search (alts [Cat fence (lit "javascript");
                        Cat fence (lit "js");
                        lit "require(";
                        cats [lit "import "; plus dot; lit " from"]]) content);
      (L "bash",
       re_search (alts [Cat fence (lit "bash");
                        Cat fence (lit "sh");
                        Cat (lit "$ ") (Chr is_lower)]) content);
      (L "has_scripts",
       re_search (alts [cats [lit "scripts/"; plus is_word; lit ".py"];
                        cats [lit "scripts/"; plus is_word; lit ".sh"]]) content) ] in
  map fst (filter snd patterns).

Definition skip_patterns : list str := map L
  [ "overview"; "guide"; "introduction"; "quick start"; "getting started";
    "reference"; "installation"; "setup"; "requirements"; "prerequisites";
    "python"; "javascript"; "bash"; "example"; "output" ]%string.

Definition workflow_keywords : list str := map L
  [ "creating"; "editing"; "reading"; "analyzing"; "converting";
    "processing"; "filling"; "generating"; "building"; "extracting";
    "merging"; "splitting"; "validating"; "formatting" ]%string.

Definition scenario_stems : list str := map L
  [ "creat"; "edit"; "extract"; "merg"; "split"; "fill"; "generat";
    "convert"; "read"; "analyz" ]%string.

Definition verb_to_scenario : header :=
  [ (L "creat", L "Creating new content");
    (L "edit", L "Editing existing content");
    (L "extract", L "Extracting data");
    (L "merg", L "Merging files");
    (L "split", L "Splitting documents");
    (L "fill", L "Filling forms");
    (L "generat", L "Generating output");
    (L "convert", L "Converting formats");
    (L "read", L "Reading content");
    (L "analyz", L "Analyzing data") ].

(** The class of code-like characters: round, curly and square brackets,
    both quotes, the equals sign and the angle brackets. *)
Definition code_like : re := Chr (mem_c (L "(){}[]'=<>" ++ [quote_c])).

Definition heading_scenario (heading : str) : list str :=
  let heading_lower := lower heading in
  if existsb (fun skip => contains skip heading_lower) skip_patterns then []
  else if re_search code_like heading then []
  else if existsb (fun keyword => contains keyword heading_lower) workflow_keywords then
    let clean := rstrip (L ":") (strip heading) in
    if (5 <? length clean) && (length clean <? 50) then [clean] else []
  else [].

Record SkillDir : Type := mkSkillDir {
  dir_name : str;             (* [skill_path.name] *)
  skill_md : option str;      (* the text of SKILL.md, when it exists *)
  scripts_dir : bool;
  references_dir : bool;
  assets_dir : bool
}.

Record Analysis : Type := mkAnalysis {
  name : str;
  current_description : str;
  description_length : nat;
  file_types : list str;
  action_verbs : list str;
  headings : list str;
  estimated_scenarios : list str;
  technologies : list str;
  resources : bool * bool * bool;
  body_lines : nat;
  quality_issues : list str
}.

(** [len(s.splitlines())] *)
Definition is_linebreak (c : ascii) : bool := in_range 10 13 c || in_range 28 30 c.
Fixpoint count_lines (after_cr in_line : bool) (s : str) : nat :=
  match s with
  | [] => if in_line then 1 else 0
  | c :: s' =>
      if Ascii.eqb c nl && after_cr then count_lines false false s'
      else if is_linebreak c then
        1 + count_lines (Ascii.eqb c "013") false s'
      else count_lines false true s'
  end.

Section Analyzer.

(** [yaml.safe_load] on a header block whose values are strings: [None]
    for a [YAMLError], the empty mapping for an empty document. *)
Variable yaml_safe_load : str -> option header.

(** [list(s)] for a Python set of strings, given in insertion order: the
    iteration order of a set of strings is not fixed by the language. *)
Variable set_to_list : list str -> list str.

Definition extract_frontmatter (content : str) : header :=
  if negb (startswith (L "---") content) then []
  else
    match re_match frontmatter_re content with
    | Some (_, Some g) =>
        match yaml_safe_load g with
        | Some h => h
        | None => []
        end
    | _ => []
    end.

Definition estimate_scenarios (headings : list str) (body : str) : list str :=
  let scenarios := flat_map heading_scenario headings in
  let scenarios :=
    if length scenarios <? 3 then
      let verbs_found :=
        filter (fun verb => contains verb (lower body)) scenario_stems in
      scenarios ++
      flat_map
        (fun verb =>
           match get verb verb_to_scenario with
           | Some sc => [sc]
           | None => []
           end)
        (firstn (5 - length scenarios) (set_to_list verbs_found))
    else scenarios in
  firstn 5 scenarios.

(** [(use this skill when|when claude needs|use when)] *)
Definition trigger_issue_re : re :=
  Grp (alts [lit "use this skill when"; lit "when claude needs"; lit "use when"]).

(** [\(\d+\)] *)
Definition enum_re : re := cats [ch "("; plus is_digit; ch ")"].

Definition quality_checks (desc : str) (file_types : list str) : list str :=
  (if length desc <? 50
   then [L "Description too short (< 50 chars)"] else [])
  ++ (if 1024 <? length desc
      then [L "Description too long (" ++ str_of_nat (length desc)
            ++ L " > 1024 chars)"] else [])
  ++ (if contains (L "<") desc || contains (L ">") desc
      then [L "Contains forbidden angle brackets"] else [])
  ++ (if negb (re_search trigger_issue_re (lower desc))
      then [L "Missing trigger phrase (Use this skill when...)"] else [])
  ++ (if negb (re_search enum_re desc)
      then [L "No enumerated scenarios (1), (2), (3)..."] else [])
  ++ (if is_nil file_types
         || negb (existsb (fun ext => contains ext (lower desc)) file_types)
      then
        if negb (is_nil file_types)
        then [L "File types " ++ repr_list file_types ++ L " not in description"]
        else []
      else []).

(** [analyze_skill]: the error when SKILL.md is missing (the source prints
    the whole path there, the model the folder's name), else the record. *)
Definition analyze_skill (skill_path : SkillDir) : str + Analysis :=
  match skill_md skill_path with
  | None => inl (L "SKILL.md not found in " ++ dir_name skill_path)
  | Some content =>
      let frontmatter := extract_frontmatter content in
      let body := extract_body content in
      let headings := extract_headings body in
      let desc := get_or (L "description") [] frontmatter in
      let file_types := find_file_types content in
      inr {| name := get_or (L "name") (dir_name skill_path) frontmatter;
             current_description := desc;
             description_length := length desc;
             file_types := file_types;
             action_verbs := find_action_verbs body;
             headings := headings;
             estimated_scenarios := estimate_scenarios headings body;
             technologies := find_code_patterns content;
             resources := (scripts_dir skill_path, references_dir skill_path,
                           assets_dir skill_path);
             body_lines := count_lines false false body;
             quality_issues := quality_checks desc file_types |}
  end.

End Analyzer.

(** ** generate_description.py *)

Definition MAX_DESCRIPTION_LENGTH : nat := 1024.

Definition document_formats : list str :=
  map L [ "docx"; "pdf"; "xlsx"; "pptx"; "csv" ]%string.
Definition reference_keywords : list str :=
  map L [ "reference"; "documentation"; "api"; "schema" ]%string.
Definition step_keywords : list str :=
  map L [ "workflow"; "step"; "process"; "pipeline" ]%string.

Definition classify_skill_type (analysis : Analysis) : str :=
  let file_types := file_types analysis in
  let headings := map lower (headings analysis) in
  if negb (is_nil file_types)
     && existsb (fun ext => mem ext document_formats) file_types
  then L "file_processor"
  else if existsb (fun kw => contains kw (join (L " ") headings)) reference_keywords
  then L "knowledge_reference"
  else if existsb (fun kw => contains kw (join (L " ") headings)) step_keywords
  then L "workflow_automation"
  else L "tool_integration".

(** [name.replace('-', ' ').replace('_', ' ')] *)
Definition readable (name : str) : str := replace_c "_" " " (replace_c "-" " " name).

(** ['.' + ext for ext in l] *)
Definition dotted (l : list str) : list str := map (fun ext => L "." ++ ext) l.

Definition generate_capability_phrase (analysis : Analysis) : str :=
  let name := name analysis in
  let verbs := firstn 4 (action_verbs analysis) in
  let file_types := file_types analysis in
  let readable_name := readable name in
  let verb_phrase :=
    if negb (is_nil verbs) then
      title (if 1 <? length verbs
             then join (L ", ") (but_last verbs) ++ L ", and " ++ last verbs []
             else hd [] verbs)
    else L "Processing and manipulation" in
  let file_phrase :=
    if negb (is_nil file_types)
    then L "for " ++ join (L ", ") (dotted (firstn 3 file_types)) ++ L " files"
    else L "for " ++ readable_name in
  verb_phrase ++ L " " ++ file_phrase.

(** [generate_optimized_description] computes this phrase and leaves it
    unused. *)
Definition generate_file_types_phrase (file_types : list str) : str :=
  if is_nil file_types then []
  else
    let extensions := dotted (firstn 4 file_types) in
    let extensions :=
      if 4 <? length file_types then extensions ++ [L "etc"] else extensions in
    L "(" ++ join (L ", ") extensions ++ L ")".

(** [enumerate(l, 1)] *)
Fixpoint enumerate_from {A} (i : nat) (l : list A) : list (nat * A) :=
  match l with
  | [] => []
  | x :: l' => (i, x) :: enumerate_from (S i) l'
  end.

Definition generate_scenarios (analysis : Analysis) : str :=
  let scenarios := estimated_scenarios analysis in
  let verbs := action_verbs analysis in
  if negb (is_nil scenarios) then
    join (L ", ")
      (map (fun '(i, scenario) =>
              let scenario := rstrip (L ".") (strip scenario) in
              let scenario :=
                if 50 <? length scenario
                then firstn 47 scenario ++ L "..." else scenario in
              L "(" ++ str_of_nat i ++ L ") " ++ scenario)
           (enumerate_from 1 (firstn 4 scenarios)))
  else if negb (is_nil verbs) then
    join (L ", ")
      (map (fun '(i, verb) =>
              L "(" ++ str_of_nat i ++ L ") " ++ capitalize verb ++ L "ing content")
           (enumerate_from 1 (firstn 4 verbs)))
  else L "(1) Processing, (2) Analyzing, (3) Generating output".

Definition generate_trigger_context (analysis : Analysis) : str :=
  let file_types := file_types analysis in
  let name := name analysis in
  if negb (is_nil file_types) then
    L "working with " ++ join (L ", ") (dotted (firstn 3 file_types)) ++ L " files"
  else
    L "handling " ++ readable name ++ L " tasks".

Definition generate_catchall (analysis : Analysis) : str :=
  L "or any other " ++ readable (name analysis) ++ L " task".

Definition example_keywords : list str :=
  map L [ "creating"; "editing"; "reading"; "converting"; "processing";
          "building" ]%string.

Definition generate_examples (analysis : Analysis) : str :=
  let examples :=
    flat_map
      (fun h =>
         if existsb (fun kw => contains kw (lower h)) example_keywords
         then [strip (lower h)] else [])
      (firstn 6 (headings analysis)) in
  if negb (is_nil examples) then join (L ", ") (firstn 4 examples)
  else
    match file_types analysis with
    | ft :: _ => L "creating, editing, or analyzing ." ++ ft ++ L " files"
    | [] => L "processing, transforming, or generating content"
    end.

(** [\(examples include[^)]+\)] *)
Definition examples_re : re :=
  cats [ch "("; lit "examples include"; plus (not_c ")"); ch ")"].

(** [\(\d+\)[^,]+,?\s*] *)
Definition scenario_item_re : re :=
  cats [ch "("; plus is_digit; ch ")"; plus (not_c ","); Opt (ch ","); star is_space].

(** [\s+] *)
Definition spaces_re : re := plus is_space.

Definition generate_optimized_description (analysis : Analysis) : str :=
  let skill_type := classify_skill_type analysis in
  let capability := generate_capability_phrase analysis in
  let scenarios := generate_scenarios analysis in
  let trigger := generate_trigger_context analysis in
  let catchall := generate_catchall analysis in
  let examples := generate_examples analysis in
  let description :=
    if str_eqb skill_type (L "file_processor") then
      capability ++ L ". " ++ L "Use this skill when " ++ trigger ++ L " for: "
      ++ scenarios ++ L ", " ++ catchall
    else if str_eqb skill_type (L "knowledge_reference") then
      capability ++ L ". " ++ L "Use when users ask about " ++ trigger ++ L ". "
      ++ L "Provides authoritative guidance for " ++ examples ++ L "."
    else if str_eqb skill_type (L "workflow_automation") then
      capability ++ L ". " ++ L "Use this skill when " ++ trigger ++ L " for: "
      ++ scenarios ++ L ". " ++ L "(examples include " ++ examples ++ L ")"
    else
      capability ++ L ". " ++ L "Use this skill when " ++ trigger ++ L " for: "
      ++ scenarios ++ L ", " ++ catchall in
  let description :=
    if MAX_DESCRIPTION_LENGTH <? length description
    then strip (re_sub examples_re [] None description)
    else description in
  let description :=
    if MAX_DESCRIPTION_LENGTH <? length description
    then re_sub scenario_item_re [] (Some 2) description
    else description in
  let description := strip (re_sub spaces_re (L " ") None description) in
  rstrip (L ",.") description.

(** [use (this skill )?when] *)
Definition advisor_trigger_re : re :=
  cats [lit "use "; Opt (Grp (lit "this skill ")); lit "when"].

(** [see skill\.md|refer to|see below] *)
Definition body_reference_re : re :=
  alts [lit "see skill.md"; lit "refer to"; lit "see below"].

Definition suggest_improvements (current generated : str) (analysis : Analysis)
  : list str :=
  (if negb (re_search advisor_trigger_re (lower current))
   then [L "ADD trigger phrase: 'Use this skill when...'"] else [])
  ++ (if negb (re_search enum_re current)
      then [L "ADD enumerated scenarios: (1) Creating, (2) Editing, etc."] else [])
  ++ (let file_types := file_types analysis in
      if negb (is_nil file_types) then
        let missing_exts :=
          filter (fun ext => negb (contains (L "." ++ ext) (lower current)))
                 file_types in
        if negb (is_nil missing_exts)
        then [L "ADD file extensions: "
              ++ join (L ", ") (dotted (firstn 3 missing_exts))]
        else []
      else [])
  ++ (if length current <? 100
      then [L "EXPAND: Description is too short for reliable matching"] else [])
  ++ (if 900 <? length current
      then [L "TRIM: Near character limit, prioritize triggers over features"]
      else [])
  ++ (if re_search body_reference_re (lower current)
      then [L "REMOVE: References to body content (body is invisible before triggering)"]
      else []).

(** [use (this skill )?when|when claude needs] *)
Definition score_trigger_re : re :=
  alts [cats [lit "use "; Opt (Grp (lit "this skill ")); lit "when"];
        lit "when claude needs"].

(** [or any other|or other] *)
Definition catchall_re : re := alts [lit "or any other"; lit "or other"].

(** [examples? include|such as|e\.g\.|including] *)
Definition examples_hint_re : re :=
  alts [cats [lit "example"; Opt (ch "s"); lit " include"];
        lit "such as"; lit "e.g."; lit "including"].

(** The rubric of [score_description], check by check. *)
Definition length_points (description : str) : nat :=
  if (100 <=? length description) && (length description <=? 800) then 10
  else if (50 <=? length description) && (length description <=? 1000) then 5
  else 0.

Definition trigger_points (description : str) : nat :=
  if re_search score_trigger_re (lower description) then 20 else 0.

Definition enum_points (description : str) : nat :=
  let enum_count := length (re_findall enum_re description) in
  if 3 <=? enum_count then 20 else if 1 <=? enum_count then 10 else 0.

Definition file_type_points (description : str) (file_types : list str) : nat :=
  if negb (is_nil file_types) then
    let mentioned :=
      length (filter (fun ext => contains (L "." ++ ext) (lower description))
                     file_types) in
    if 0 <? mentioned then 15 else 0
  else 15.

Definition catchall_points (description : str) : nat :=
  if re_search catchall_re (lower description) then 10 else 0.

Definition examples_points (description : str) : nat :=
  if re_search examples_hint_re (lower description) then 10 else 0.

Definition has_antipattern (description : str) : bool :=
  re_search body_reference_re (lower description)
  || (contains (L "<") description || contains (L ">") description).

Definition antipattern_points (description : str) : nat :=
  if negb (has_antipattern description) then 15 else 0.

Definition score_description (description : str) (analysis : Analysis) : nat :=
  if is_nil description then 0
  else
    length_points description
    + trigger_points description
    + enum_points description
    + file_type_points description (file_types analysis)
    + catchall_points description
    + examples_points description
    + antipattern_points description.

Inductive Recommendation : Type :=
| CurrentIsStrong
| ReplaceWithGenerated
| ApplyImprovements.

Record Report : Type := mkReport {
  rep_name : str;
  rep_current : str;
  rep_generated : str;
  rep_current_score : nat;
  rep_generated_score : nat;
  rep_recommendation : Recommendation;
  rep_suggestions : list str;
  rep_best : str
}.

Section Generator.

Variable yaml_safe_load : str -> option header.
Variable set_to_list : list str -> list str.

(** [main] without its printing, called with one argument and on a header
    as typed above: [None] where the script exits with status 1 (no such
    folder, or no SKILL.md in it). *)
Definition main (skill_path : option SkillDir) : option Report :=
  match skill_path with
  | None => None
  | Some dir =>
      match analyze_skill yaml_safe_load set_to_list dir with
      | inl _ => None
      | inr analysis =>
          let current := current_description analysis in
          let generated := generate_optimized_description analysis in
          let suggestions := suggest_improvements current generated analysis in
          let current_score := score_description current analysis in
          let generated_score := score_description generated analysis in
          Some {| rep_name := name analysis;
                  rep_current := current;
                  rep_generated := generated;
                  rep_current_score := current_score;
                  rep_generated_score := generated_score;
                  rep_recommendation :=
                    if 80 <=? current_score then CurrentIsStrong
                    else if current_score + 10 <? generated_score
                    then ReplaceWithGenerated
                    else ApplyImprovements;
                  rep_suggestions := suggestions;
                  rep_best :=
                    if current_score <? generated_score
                    then generated else current |}
      end
  end.

End Generator.

(** ** What a pattern can match

    [den r g g' w]: the word [w] is in the language of [r], and a match of
    [r] on [w] turns the capture [g] into [g'].  The assertions are read as
    the empty word, so [den] bounds the matcher from above. *)
Fixpoint den (r : re) (g g' : option str) (w : str) : Prop :=
  match r with
  | Chr p => (exists c, w = [c] /\ p c = true) /\ g' = g
  | Emp => w = [] /\ g' = g
  | Cat r1 r2 =>
      exists w1 w2 g1, w = w1 ++ w2 /\ den r1 g g1 w1 /\ den r2 g1 g' w2
  | Alt r1 r2 => den r1 g g' w \/ den r2 g g' w
  | Opt r1 => den r1 g g' w \/ (w = [] /\ g' = g)
  | Rep _ p lo hi =>
      Forall (fun c => p c = true) w /\ lo <= length w
      /\ match hi with Some h => length w <= h | None => True end
      /\ g' = g
  | Grp r1 => (exists g1, den r1 g g1 w) /\ g' = Some w
  | Bol _ | Eol _ | Wb => w = [] /\ g' = g
  end.

(** The character before the position reached after reading [w]. *)
Definition lastp (w : str) (prev : option ascii) : option ascii :=
  fold_left (fun _ c => Some c) w prev.

Definition is_some {A} (o : option A) : bool :=
  match o with Some _ => true | None => false end.

(** The first answer of [f] along [l]. *)
Fixpoint first_some {A B} (f : A -> option B) (l : list A) : option B :=
  match l with
  | [] => None
  | x :: l' =>
      match f x with
      | Some b => Some b
      | None => first_some f l'
      end
  end.

(** What [extension_re names] does at one position, spelled out: after the
    dot, the first name that the text continues with, in any case, and that
    ends at a word boundary. *)
Definition ext_try (rest : str) (nm : string) : option (nat * option str) :=
  let w := L nm in
  if startswith (lower w) (lower rest)
     && xorb (word_opt (lastp (firstn (length w) rest) (Some "."%char)))
             (word_opt (hd_error (skipn (length w) rest)))
  then Some (S (length w), Some (firstn (length w) rest))
  else None.

Definition ext_match (names : list string) (s : str) : option (nat * option str) :=
  match s with
  | c :: rest =>
      if Ascii.eqb "." c then first_some (ext_try rest) names else None
  | [] => None
  end.

(** ** Ranking by count and first occurrence *)

(** The index of the first occurrence of [x] in [l] ([length l] if none). *)
Fixpoint first_index (x : str) (l : list str) : nat :=
  match l with
  | [] => 0
  | y :: l' => if str_eqb y x then 0 else S (first_index x l')
  end.

(** The number of occurrences of [x] in [l]. *)
Definition occurrences (x : str) (l : list str) : nat :=
  length (filter (str_eqb x) l).


(** The distinct elements of [l], in the order of their first occurrence:
    the keys of [Counter l]. *)
Fixpoint uniq (l : list str) : list str :=
  match l with
  | [] => []
  | x :: l' => x :: filter (fun y => negb (str_eqb y x)) (uniq l')
  end.


(** ** Sorted sets of file types *)

Definition str_le (a b : str) : Prop := str_leb a b = true.

(** All sublists of a list, in the order of the list. *)
Fixpoint sublists {A} (l : list A) : list (list A) :=
  match l with
  | [] => [[]]
  | x :: l' => map (cons x) (sublists l') ++ sublists l'
  end.

Fixpoint list_eqb (a b : list str) : bool :=
  match a, b with
  | [], [] => true
  | x :: a', y :: b' => str_eqb x y && list_eqb a' b'
  | _, _ => false
  end.

(** The three families of answers of [find_file_types]. *)
Definition image_exts : list str :=
  map L [ "png"; "jpg"; "jpeg"; "gif"; "svg" ]%string.
Definition file_type_sets : list (list str) :=
  sublists (sorted (dedup (map L primary_names)))
  ++ sublists (sorted (dedup image_exts))
  ++ sublists (sorted (dedup code_exts)).

(** The renderings of a list of file types: [', '.join(l)] as the analyzer
    prints it, and with the dots as the generator writes it. *)
Definition render_plain (l : list str) : str := join (L ", ") l.
Definition render_dotted (l : list str) : str := join (L ", ") (dotted l).

(** ** The conditions of the classifier, the issues and the rubric *)


(** The issue that [analyze_skill] reports for file types. *)
Definition file_types_issue (file_types : list str) : str :=
  L "File types " ++ repr_list file_types ++ L " not in description".

(** [w] stands in [s] as a token: an occurrence with no word character
    right before it and none right after it.  This is the reading of the
    specification; [analyze_skill] tests [contains]. *)
Fixpoint token_from (prev : option ascii) (w s : str) : bool :=
  (startswith w s && negb (word_opt prev)
   && negb (word_opt (hd_error (skipn (length w) s))))
  || match s with
     | [] => false
     | c :: s' => token_from (Some c) w s'
     end.
Definition token_in (w s : str) : bool := token_from None w s.

(** A description passes the rubric when each of these checks of
    [score_description] earns points: the trigger phrase, an enumerated
    scenario, every detected file type with its dot, a scored length, and no
    anti-pattern. *)
Definition passes_rubric (description : str) (file_types : list str) : bool :=
  (0 <? trigger_points description)
  && (0 <? enum_points description)
  && forallb (fun ext => contains (L "." ++ ext) (lower description)) file_types
  && (0 <? length_points description)
  && negb (has_antipattern description).

(** ** The generator in two halves, and what passes through it *)

(** The two halves of [generate_optimized_description]: the template filled
    in, and the shortening and cleaning of the result. *)
Definition filled_template (analysis : Analysis) : str :=
  let skill_type := classify_skill_type analysis in
  let capability := generate_capability_phrase analysis in
  let scenarios := generate_scenarios analysis in
  let trigger := generate_trigger_context analysis in
  let catchall := generate_catchall analysis in
  let examples := generate_examples analysis in
  if str_eqb skill_type (L "file_processor") then
    capability ++ L ". " ++ L "Use this skill when " ++ trigger ++ L " for: "
    ++ scenarios ++ L ", " ++ catchall
  else if str_eqb skill_type (L "knowledge_reference") then
    capability ++ L ". " ++ L "Use when users ask about " ++ trigger ++ L ". "
    ++ L "Provides authoritative guidance for " ++ examples ++ L "."
  else if str_eqb skill_type (L "workflow_automation") then
    capability ++ L ". " ++ L "Use this skill when " ++ trigger ++ L " for: "
    ++ scenarios ++ L ". " ++ L "(examples include " ++ examples ++ L ")"
  else
    capability ++ L ". " ++ L "Use this skill when " ++ trigger ++ L " for: "
    ++ scenarios ++ L ", " ++ catchall.

Definition post_process (description : str) : str :=
  let description :=
    if MAX_DESCRIPTION_LENGTH <? length description
    then strip (re_sub examples_re [] None description)
    else description in
  let description :=
    if MAX_DESCRIPTION_LENGTH <? length description
    then re_sub scenario_item_re [] (Some 2) description
    else description in
  let description := strip (re_sub spaces_re (L " ") None description) in
  rstrip (L ",.") description.

(** The verb phrase of [generate_capability_phrase]. *)
Definition verb_phrase (analysis : Analysis) : str :=
  let verbs := firstn 4 (action_verbs analysis) in
  if negb (is_nil verbs) then
    title (if 1 <? length verbs
           then join (L ", ") (but_last verbs) ++ L ", and " ++ last verbs []
           else hd [] verbs)
  else L "Processing and manipulation".

Definition angle_free (s : str) : Prop :=
  Forall (fun c => c <> "<"%char /\ c <> ">"%char) s.

Definition noangle (c : ascii) : bool :=
  negb (Ascii.eqb c "<") && negb (Ascii.eqb c ">").

Definition noparen (c : ascii) : bool := negb (Ascii.eqb c "(").
Definition nonspace (c : ascii) : bool := negb (is_space c).

(** A word that the shortening and the cleaning leave in place: no opening
    parenthesis and no white space in it, and no comma or period at its
    end. *)
Definition solid (w : str) : Prop :=
  w <> [] /\ forallb noparen w = true /\ forallb nonspace w = true
  /\ mem_c (L ",.") (last w " "%char) = false.

(** ** Sample skill folders *)

(** A text given line by line. *)
Definition text (lines : list string) : str :=
  flat_map (fun l => L l ++ [nl]) lines.

(** A decoder that knows one header block. *)
Definition yaml_of (block : list string) (h : header) : str -> option header :=
  fun g => if str_eqb g (join [nl] (map L block)) then Some h else None.

(** An analysis with nothing but file types. *)
Definition only_file_types (fts : list str) : Analysis :=
  {| name := L "skill"; current_description := []; description_length := 0;
     file_types := fts; action_verbs := []; headings := [];
     estimated_scenarios := []; technologies := [];
     resources := (false, false, false); body_lines := 0; quality_issues := [] |}.

(** An analysis given by the fields that the generator reads. *)
Definition analysis_of (nm : str) (fts verbs hs scs : list str) : Analysis :=
  {| name := nm; current_description := []; description_length := 0;
     file_types := fts; action_verbs := verbs; headings := hs;
     estimated_scenarios := scs; technologies := [];
     resources := (false, false, false); body_lines := 0; quality_issues := [] |}.

(** A skill whose description names its format without the dot. *)
Definition bare_pdf_header : list string :=
  [ "name: pdf-filler"; "description: Fills pdf forms" ]%string.
Definition bare_pdf_dir : SkillDir :=
  {| dir_name := L "pdf-filler";
     skill_md := Some (text ([ "---"%string ] ++ bare_pdf_header ++
                             [ "---"; "# PDF filler"; "";
                               "Fill in the fields of report.pdf files." ]%string));
     scripts_dir := true; references_dir := false; assets_dir := false |}.
Definition bare_pdf_yaml : str -> option header :=
  yaml_of bare_pdf_header
    [ (L "name", L "pdf-filler"); (L "description", L "Fills pdf forms") ].

(** A skill that reads ".xml" files and whose description has the letters
    "xml" only inside the word "xmlrpc". *)
Definition xmlrpc_header : list string :=
  [ "name: feed-reader"; "description: Converts xmlrpc payloads" ]%string.
Definition xmlrpc_dir : SkillDir :=
  {| dir_name := L "feed-reader";
     skill_md := Some (text ([ "---"%string ] ++ xmlrpc_header ++
                             [ "---"; "# Feed reader"; "";
                               "Parse the entries of feed.xml files." ]%string));
     scripts_dir := false; references_dir := false; assets_dir := false |}.
Definition xmlrpc_yaml : str -> option header :=
  yaml_of xmlrpc_header
    [ (L "name", L "feed-reader"); (L "description", L "Converts xmlrpc payloads") ].

(** Skills with an empty description: one that mentions a file format, one
    that mentions none. *)
Definition empty_pdf_header : list string :=
  [ "name: pdf-filler"; "description: ''" ]%string.
Definition empty_pdf_dir : SkillDir :=
  {| dir_name := L "pdf";
     skill_md := Some (text ([ "---"%string ] ++ empty_pdf_header ++
                             [ "---"; "# PDF filler"; "";
                               "## Filling PDF Forms"; "";
                               "Fill the fields of form.pdf, then extract them." ]%string));
     scripts_dir := true; references_dir := false; assets_dir := false |}.
Definition empty_pdf_yaml : str -> option header :=
  yaml_of empty_pdf_header [ (L "name", L "pdf-filler"); (L "description", []) ].

Definition empty_notes_header : list string :=
  [ "name: note-taker"; "description: ''" ]%string.
Definition empty_notes_dir : SkillDir :=
  {| dir_name := L "notes";
     skill_md := Some (text ([ "---"%string ] ++ empty_notes_header ++
                             [ "---"; "# Notes"; ""; "Keep notes of a meeting." ]%string));
     scripts_dir := false; references_dir := false; assets_dir := false |}.
Definition empty_notes_yaml : str -> option header :=
  yaml_of empty_notes_header [ (L "name", L "note-taker"); (L "description", []) ].

(** What [analyze_skill] answers on the skill with the empty description
    that mentions ".pdf". *)
Definition empty_pdf_analysis : Analysis :=
  Eval vm_compute in
    match analyze_skill empty_pdf_yaml (fun l => l) empty_pdf_dir with
    | inr a => a
    | inl _ => only_file_types []
    end.

(** A description that earns every point of the rubric through the phrase
    "when Claude needs", and a short one that earns the reduced length
    points. *)
Definition full_score_description : str :=
  L "When Claude needs to fill .pdf forms for: (1) Filling forms, (2) Extracting data, (3) Merging files, or other tasks such as signing documents.".
Definition short_description : str :=
  L "Use when editing .pdf files for: (1) Filling forms, or other tasks.".
Definition sound_description : str :=
  L "Fill and extract for .pdf files. Use this skill when working with .pdf files for: (1) Filling forms, (2) Extracting data.".

(** A skill named after a template type, and one with a heading that quotes
    a placeholder. *)
Definition angle_name_analysis : Analysis :=
  analysis_of (L "vector<int>-tools") [] [L "build"] [] [].
Definition angle_heading_analysis : Analysis :=
  analysis_of (L "docs") [] [L "read"]
    [L "API reference"; L "Reading <input> files"] [].

(** A well-behaved analysis. *)
Definition plain_analysis : Analysis :=
  analysis_of (L "pdf-filler") [L "pdf"] [L "fill"; L "extract"]
    [L "Filling PDF Forms"] [L "Filling PDF Forms"; L "Extracting data"].

(** A skill with a name of 400 characters and nothing else. *)
Definition long_name_analysis : Analysis :=
  analysis_of (repeat "a"%char 400) [] [] [] [].

(** ** Plain characters *)

(** The characters outside the class of [code_like]. *)
Definition plain_c (c : ascii) : bool :=
  negb (mem_c (L "(){}[]'=<>" ++ [quote_c]) c).

(** ** Printing a description in lines of 70 characters *)

(** [range(0, stop, step)] *)
Definition range_step (stop step : nat) : list nat :=
  map (fun k => k * step) (seq 0 ((stop + step - 1) / step)).

(** [s[i:j]] *)
Definition slice (i j : nat) (s : str) : str := firstn (j - i) (skipn i s).

(** [[desc[i:i+70] for i in range(0, len(desc), 70)]], the lines in which
    [print_analysis] and the generator's [main] print a description. *)
Definition wrapped (desc : str) : list str :=
  map (fun i => slice i (i + 70) desc) (range_step (length desc) 70).

(** ** White space in the generated description *)

Definition space_opt (c : option ascii) : bool :=
  match c with Some x => is_space x | None => false end.

(** Every white-space character of [s] is a space, and the character after
    it, if there is one, is not white space. *)
Fixpoint single_spaced (s : str) : bool :=
  match s with
  | [] => true
  | c :: s' =>
      (negb (is_space c)
       || (Ascii.eqb c " " && negb (space_opt (hd_error s'))))
      && single_spaced s'
  end.

(** [re.sub(r'\s+', ' ', description)] *)
Definition collapse (description : str) : str :=
  re_sub spaces_re (L " ") None description.

(** A phrase that the cleaning leaves in place: single spaces only, no
    white space at either end, no comma or period at its end. *)
Definition phrase (w : str) : bool :=
  single_spaced w
  && negb (space_opt (hd_error w))
  && negb (is_space (last w " "%char))
  && negb (mem_c (L ",.") (last w " "%char)).

(** ** The range of the model and the words of a text *)

(** The text is 7-bit ASCII: the range on which [lower], [\w], [\b] and
    [re.IGNORECASE] are modelled as Python has them. *)
Definition ascii_text (s : str) : bool := forallb (fun c => code c <? 128) s.




(** ** Strings: basic facts *)

Lemma str_eqb_eq (a b : str) : str_eqb a b = true <-> a = b.
Proof.
  revert b; induction a as [|x a IH]; intros [|y b]; simpl; split; intro H;
    try reflexivity; try discriminate.
  - apply andb_true_iff in H as [H1 H2].
    apply Ascii.eqb_eq in H1. apply IH in H2. now subst.
  - inversion H; subst. apply andb_true_iff; split.
    + apply Ascii.eqb_refl.
    + now apply IH.
Qed.

Lemma str_eqb_refl (a : str) : str_eqb a a = true.
Proof. now apply str_eqb_eq. Qed.

Lemma str_eqb_neq (a b : str) : str_eqb a b = false <-> a <> b.
Proof.
  split; intro H.
  - intro E. apply str_eqb_eq in E. congruence.
  - destruct (str_eqb a b) eqn:E; [apply str_eqb_eq in E; contradiction | reflexivity].
Qed.

Lemma str_eqb_sym (a b : str) : str_eqb a b = str_eqb b a.
Proof.
  destruct (str_eqb a b) eqn:E1, (str_eqb b a) eqn:E2; try reflexivity.
  - apply str_eqb_eq in E1. subst. now rewrite str_eqb_refl in E2.
  - apply str_eqb_eq in E2. subst. now rewrite str_eqb_refl in E1.
Qed.

Lemma mem_In (x : str) (l : list str) : mem x l = true <-> In x l.
Proof.
  unfold mem. rewrite existsb_exists. split.
  - intros (y & Hy & E). apply str_eqb_eq in E. now subst.
  - intro H. exists x. split; [assumption | apply str_eqb_refl].
Qed.

Lemma startswith_app (p s : str) :
  startswith p s = true <-> exists b, s = p ++ b.
Proof.
  revert s; induction p as [|x p IH]; intros s; simpl.
  - split; [intros _; now exists s | reflexivity].
  - destruct s as [|y s].
    + split; [discriminate | intros (b & H); discriminate].
    + rewrite andb_true_iff, Ascii.eqb_eq, IH. split.
      * intros (-> & b & ->). now exists b.
      * intros (b & H). inversion H; subst. split; [reflexivity | now exists b].
Qed.

Lemma contains_app (w s : str) :
  contains w s = true <-> exists a b, s = a ++ w ++ b.
Proof.
  induction s as [|y s IH].
  - simpl. rewrite orb_false_r, startswith_app. split.
    + intros (b & H). now exists [], b.
    + intros (a & b & H). destruct a; [now exists b|discriminate].
  - cbn [contains]. rewrite orb_true_iff, startswith_app, IH. split.
    + intros [(b & H) | (a & b & H)].
      * now exists [], b.
      * exists (y :: a), b. now rewrite H.
    + intros (a & b & H). destruct a as [|x a].
      * left. now exists b.
      * right. inversion H; subst. now exists a, b.
Qed.

(** ** The matcher is sound for [den] *)

Lemma rep_greedy_sound {A} (p : ascii -> bool) (s : str) :
  forall lo hi prev (k : option ascii -> str -> option A) a,
    rep_greedy p lo hi prev s k = Some a ->
    exists w s' p',
      s = w ++ s' /\ Forall (fun c => p c = true) w /\ lo <= length w
      /\ match hi with Some h => length w <= h | None => True end
      /\ k p' s' = Some a.
Proof.
  induction s as [|c s IH]; intros lo hi prev k a H; simpl in H.
  - destruct (Nat.eqb_spec lo 0); [|discriminate].
    exists [], [], prev. subst. repeat split; auto; destruct hi; simpl; lia.
  - assert (Hstop : (if lo =? 0 then k prev (c :: s) else None) = Some a ->
                    exists w s' p',
                      c :: s = w ++ s' /\ Forall (fun c => p c = true) w
                      /\ lo <= length w
                      /\ match hi with Some h => length w <= h | None => True end
                      /\ k p' s' = Some a).
    { intro H0. destruct (Nat.eqb_spec lo 0); [|discriminate].
      exists [], (c :: s), prev. subst. repeat split; auto; destruct hi; simpl; lia. }
    destruct (p c && hi_open hi) eqn:E; [|now apply Hstop].
    apply andb_true_iff in E as [Ep Eh].
    destruct (rep_greedy p (pred lo) (hi_pred hi) (Some c) s k) eqn:R;
      [|now apply Hstop].
    inversion H; subst a0.
    apply IH in R as (w & s' & p' & -> & Hw & Hlo & Hhi & Hk).
    exists (c :: w), s', p'. repeat split; auto; simpl; try lia.
    destruct hi as [[|h]|]; simpl in *; try discriminate; lia.
Qed.

Lemma rep_lazy_sound {A} (p : ascii -> bool) (s : str) :
  forall lo hi prev (k : option ascii -> str -> option A) a,
    rep_lazy p lo hi prev s k = Some a ->
    exists w s' p',
      s = w ++ s' /\ Forall (fun c => p c = true) w /\ lo <= length w
      /\ match hi with Some h => length w <= h | None => True end
      /\ k p' s' = Some a.
Proof.
  induction s as [|c s IH]; intros lo hi prev k a H.
  - simpl in H. destruct (Nat.eqb_spec lo 0).
    + destruct (k prev []) eqn:K; [|discriminate]. inversion H; subst.
      exists [], [], prev. repeat split; auto; destruct hi; simpl; lia.
    + discriminate.
  - simpl in H.
    destruct (if lo =? 0 then k prev (c :: s) else None) eqn:K.
    + inversion H; subst. destruct (Nat.eqb_spec lo 0); [|discriminate].
      exists [], (c :: s), prev. subst. repeat split; auto; destruct hi; simpl; lia.
    + destruct (p c && hi_open hi) eqn:E; [|discriminate].
      apply andb_true_iff in E as [Ep Eh].
      apply IH in H as (w & s' & p' & -> & Hw & Hlo & Hhi & Hk).
      exists (c :: w), s', p'. repeat split; auto; simpl; try lia.
      destruct hi as [[|h]|]; simpl in *; try discriminate; lia.
Qed.

Lemma firstn_app_exact (w s' : str) :
  firstn (length (w ++ s') - length s') (w ++ s') = w.
Proof.
  rewrite length_app, Nat.add_sub.
  rewrite firstn_app, Nat.sub_diag, firstn_all. simpl. apply app_nil_r.
Qed.

Lemma m_sound {A} (r : re) :
  forall g prev s (k : option str -> option ascii -> str -> option A) a,
    m r g prev s k = Some a ->
    exists w s' g' p', s = w ++ s' /\ den r g g' w /\ k g' p' s' = Some a.
Proof.
  induction r as [p| |r1 IH1 r2 IH2|r1 IH1 r2 IH2|r1 IH1|gr p lo hi|r1 IH1|ml|ml|];
    intros g prev s k a H; simpl in H.
  - destruct s as [|c s]; [discriminate|].
    destruct (p c) eqn:E; [|discriminate].
    exists [c], s, g, (Some c). simpl. repeat split; eauto.
  - exists [], s, g, prev. simpl. auto.
  - apply IH1 in H as (w1 & s1 & g1 & p1 & -> & D1 & H).
    apply IH2 in H as (w2 & s2 & g2 & p2 & -> & D2 & H).
    exists (w1 ++ w2), s2, g2, p2. rewrite app_assoc. repeat split; auto.
    simpl. now exists w1, w2, g1.
  - destruct (m r1 g prev s k) eqn:E.
    + inversion H; subst. apply IH1 in E as (w & s' & g' & p' & -> & D & K).
      exists w, s', g', p'. simpl. auto.
    + apply IH2 in H as (w & s' & g' & p' & -> & D & K).
      exists w, s', g', p'. simpl. auto.
  - destruct (m r1 g prev s k) eqn:E.
    + inversion H; subst. apply IH1 in E as (w & s' & g' & p' & -> & D & K).
      exists w, s', g', p'. simpl. auto.
    + exists [], s, g, prev. simpl. auto.
  - destruct gr.
    + apply rep_greedy_sound in H as (w & s' & p' & -> & Hw & Hlo & Hhi & K).
      exists w, s', g, p'. simpl. repeat split; auto.
    + apply rep_lazy_sound in H as (w & s' & p' & -> & Hw & Hlo & Hhi & K).
      exists w, s', g, p'. simpl. repeat split; auto.
  - apply IH1 in H as (w & s' & g' & p' & -> & D & K).
    rewrite firstn_app_exact in K.
    exists w, s', (Some w), p'. simpl. repeat split; eauto.
  - destruct (at_bol ml prev); [|discriminate]. exists [], s, g, prev. simpl. auto.
  - destruct (at_eol ml s); [|discriminate]. exists [], s, g, prev. simpl. auto.
  - destruct (xorb _ _); [|discriminate]. exists [], s, g, prev. simpl. auto.
Qed.

Lemma match_at_sound (r : re) (prev : option ascii) (s : str) n g :
  match_at r prev s = Some (n, g) ->
  exists w s', s = w ++ s' /\ n = length w /\ den r None g w.
Proof.
  unfold match_at. intro H.
  apply m_sound in H as (w & s' & g' & p' & -> & D & K).
  inversion K; subst. exists w, s'. repeat split; auto.
  rewrite length_app. lia.
Qed.

(** Every string that [findall] reports satisfies what every match does. *)
Lemma findall_aux_forall (r : re) (Q : str -> Prop) :
  (forall prev s n g, match_at r prev s = Some (n, g) -> Q (found n g s)) ->
  forall s skip prev, Forall Q (findall_aux r skip prev s).
Proof.
  intros HQ s. induction s as [|c s IH]; intros skip prev; simpl.
  - destruct skip; [|constructor].
    destruct (match_at r prev []) as [[n g]|] eqn:E; constructor; eauto.
  - destruct skip; [|apply IH].
    destruct (match_at r prev (c :: s)) as [[n g]|] eqn:E; [|apply IH].
    constructor; eauto.
Qed.

Lemma search_findall (r : re) (s : str) :
  forall prev, search_from r prev s = negb (is_nil (findall_aux r 0 prev s)).
Proof.
  induction s as [|c s IH]; intros prev; simpl.
  - destruct (match_at r prev []) as [[n g]|]; reflexivity.
  - destruct (match_at r prev (c :: s)) as [[n g]|]; [reflexivity | apply IH].
Qed.

(** ** Literal patterns are prefix tests *)

Lemma m_chr_lits (w : str) :
  forall {A} g prev s (k : option str -> option ascii -> str -> option A),
    m (lits_with ch w) g prev s k =
    if startswith w s then k g (lastp w prev) (skipn (length w) s) else None.
Proof.
  induction w as [|c w IH]; intros A g prev s k.
  - reflexivity.
  - destruct w as [|c' w].
    + simpl. destruct s as [|y s]; [reflexivity|].
      destruct (Ascii.eqb_spec c y); [subst|]; reflexivity.
    + change (lits_with ch (c :: c' :: w)) with (Cat (ch c) (lits_with ch (c' :: w))).
      cbn [m ch]. destruct s as [|y s]; [reflexivity|].
      cbn [startswith]. destruct (Ascii.eqb_spec c y); [subst|reflexivity].
      rewrite IH. reflexivity.
Qed.

Lemma m_lit (w : string) {A} g prev s (k : option str -> option ascii -> str -> option A) :
  m (lit w) g prev s k =
  if startswith (L w) s then k g (lastp (L w) prev) (skipn (length (L w)) s) else None.
Proof. apply m_chr_lits. Qed.

Lemma startswith_split (a b s : str) :
  startswith (a ++ b) s = startswith a s && startswith b (skipn (length a) s).
Proof.
  revert s; induction a as [|x a IH]; intros s; simpl.
  - reflexivity.
  - destruct s as [|y s]; [reflexivity|].
    rewrite IH. now rewrite andb_assoc.
Qed.

Lemma search_from_words (r : re) (ws : list str) :
  (forall prev s, is_some (match_at r prev s) = existsb (fun w => startswith w s) ws) ->
  forall s prev, search_from r prev s = existsb (fun w => contains w s) ws.
Proof.
  intros H s. induction s as [|c s IH]; intros prev.
  - cbn [search_from]. specialize (H prev []).
    assert (E : existsb (fun w => contains w []) ws
                = existsb (fun w => startswith w []) ws).
    { clear. induction ws as [|w ws IHw]; [reflexivity|].
      cbn [existsb]. rewrite IHw. cbn [contains]. now rewrite orb_false_r. }
    rewrite E, <- H. destruct (match_at r prev []); reflexivity.
  - cbn [search_from]. specialize (H prev (c :: s)).
    assert (E : existsb (fun w => contains w (c :: s)) ws
                = existsb (fun w => startswith w (c :: s)) ws
                  || existsb (fun w => contains w s) ws).
    { clear. induction ws as [|w ws IHw]; [reflexivity|].
      cbn [existsb]. rewrite IHw. cbn [contains].
      destruct (startswith w (c :: s)), (contains w s),
        (existsb (fun w0 => startswith w0 (c :: s)) ws); reflexivity. }
    rewrite E, <- H, <- (IH (Some c)).
    destruct (match_at r prev (c :: s)); reflexivity.
Qed.

Lemma advisor_trigger_words (s : str) :
  re_search advisor_trigger_re s =
  contains (L "use this skill when") s || contains (L "use when") s.
Proof.
  unfold re_search.
  rewrite (search_from_words advisor_trigger_re [L "use this skill when"; L "use when"]).
  - simpl. now rewrite orb_false_r.
  - clear. intros prev s. unfold match_at, advisor_trigger_re.
    cbn [cats m].
    change (L "use this skill when") with (L "use " ++ L "this skill " ++ L "when").
    change (L "use when") with (L "use " ++ L "when").
    cbn [existsb]. rewrite !startswith_split.
    repeat (cbn [m]; rewrite ?m_lit).
    repeat match goal with
           | |- context [startswith ?a ?b] => destruct (startswith a b)
           end; reflexivity.
Qed.

(** ** The scorer *)

Lemma length_points_le (d : str) : length_points d <= 10.
Proof. unfold length_points. repeat destruct (_ && _); lia. Qed.

Lemma trigger_points_le (d : str) : trigger_points d <= 20.
Proof. unfold trigger_points. destruct (re_search _ _); lia. Qed.

Lemma enum_points_le (d : str) : enum_points d <= 20.
Proof. unfold enum_points. cbv zeta. repeat destruct (_ <=? _); lia. Qed.

Lemma file_type_points_le (d : str) (fts : list str) : file_type_points d fts <= 15.
Proof.
  unfold file_type_points. destruct (negb _); [|lia].
  cbv zeta. destruct (_ <? _); lia.
Qed.

Lemma catchall_points_le (d : str) : catchall_points d <= 10.
Proof. unfold catchall_points. destruct (re_search _ _); lia. Qed.

Lemma examples_points_le (d : str) : examples_points d <= 10.
Proof. unfold examples_points. destruct (re_search _ _); lia. Qed.

Lemma antipattern_points_le (d : str) : antipattern_points d <= 15.
Proof. unfold antipattern_points. destruct (negb _); lia. Qed.

(** C3: [score_description] is a function of the description and the file
    types alone (two analyses with the same file types give the same score
    to the same description), its value lies between 0 and 100, and the
    empty description scores 0 whatever the file types are. *)
Theorem score_description_pure_bounded :
  forall (description : str) (a1 a2 : Analysis),
    file_types a1 = file_types a2 ->
    score_description description a1 = score_description description a2
    /\ 0 <= score_description description a1 <= 100
    /\ score_description [] a1 = 0.
Proof.
  intros d a1 a2 E. split; [|split].
  - unfold score_description. now rewrite E.
  - split; [lia|]. unfold score_description. destruct (is_nil d); [lia|].
    pose proof (length_points_le d). pose proof (trigger_points_le d).
    pose proof (enum_points_le d).
    pose proof (file_type_points_le d (file_types a1)).
    pose proof (catchall_points_le d). pose proof (examples_points_le d).
    pose proof (antipattern_points_le d). lia.
  - reflexivity.
Qed.

Lemma score_description_pure_bounded_witness :
  score_description full_score_description (only_file_types [L "pdf"])
  = score_description full_score_description
      (mkAnalysis (L "pdf-filler") [] 0 [L "pdf"] [L "fill"] [] [] []
                  (true, false, false) 3 [])
  /\ 0 <= score_description full_score_description (only_file_types [L "pdf"]) <= 100
  /\ score_description [] (only_file_types [L "pdf"]) = 0.
Proof.
  apply (score_description_pure_bounded full_score_description
           (only_file_types [L "pdf"])
           (mkAnalysis (L "pdf-filler") [] 0 [L "pdf"] [L "fill"] [] [] []
                       (true, false, false) 3 [])).
  reflexivity.
Defined.

(** ** The classifier *)





(** ** The analyzer against the scorer and the advisor *)

(** C10: there is a skill whose description names a detected file type
    without the dot ("pdf", not ".pdf"): the analyzer, which looks for the
    bare extension, raises no file-types issue, while the scorer, which looks
    for the dotted extension, gives none of the 15 file-type points and the
    advisor asks to add ".pdf". *)
Theorem bare_extension_disagreement :
  exists a : Analysis,
    analyze_skill bare_pdf_yaml (fun l => l) bare_pdf_dir = inr a
    /\ current_description a = L "Fills pdf forms"
    /\ file_types a = [L "pdf"]
    /\ contains (L "pdf") (lower (current_description a)) = true
    /\ contains (L ".pdf") (lower (current_description a)) = false
    /\ ~ In (file_types_issue (file_types a)) (quality_issues a)
    /\ (forall issue, In issue (quality_issues a) ->
                      startswith (L "File types") issue = false)
    /\ file_type_points (current_description a) (file_types a) = 0
    /\ In (L "ADD file extensions: .pdf")
          (suggest_improvements (current_description a)
             (generate_optimized_description a) a).
Proof.
  eexists. split; [vm_compute; reflexivity|].
  cbn [current_description file_types quality_issues].
  repeat split; try (vm_compute; reflexivity).
  - vm_compute. intros [H|[H|[H|[]]]]; discriminate H.
  - intros issue [<-|[<-|[<-|[]]]]; vm_compute; reflexivity.
  - vm_compute. right. right. left. reflexivity.
Qed.

(** ** The advisor *)

Lemma re_search_findall (r : re) (s : str) :
  re_search r s = negb (is_nil (re_findall r s)).
Proof. apply search_findall. Qed.

Lemma enum_points_search (d : str) :
  0 < enum_points d <-> re_search enum_re d = true.
Proof.
  rewrite re_search_findall. unfold enum_points. cbv zeta.
  destruct (re_findall enum_re d) as [|x [|y [|z l]]]; simpl; split;
    intro H; try reflexivity; try lia; discriminate.
Qed.

(** C5, as the specification states it, fails: a description that earns all
    100 points with the phrase "when Claude needs" is told to add a trigger
    phrase, and a 67-character description that passes every check of the
    rubric is told to expand. *)
Lemma advisor_speaks_on_passing_descriptions :
  (passes_rubric full_score_description [L "pdf"] = true
   /\ score_description full_score_description (only_file_types [L "pdf"]) = 100
   /\ suggest_improvements full_score_description [] (only_file_types [L "pdf"])
      = [L "ADD trigger phrase: 'Use this skill when...'"])
  /\ (passes_rubric short_description [L "pdf"] = true
      /\ suggest_improvements short_description [] (only_file_types [L "pdf"])
         = [L "EXPAND: Description is too short for reliable matching"]).
Proof. vm_compute. repeat split. Qed.

(** C5, amended: a description that contains "use when" or "use this skill
    when" (in any case), has at least one enumerated "(n)" scenario, mentions
    every detected file type with its dot (or none was detected), is 100 to
    900 characters long and has no anti-pattern, gets no suggestion. *)
Theorem suggest_improvements_empty :
  forall (current generated : str) (a : Analysis),
    contains (L "use this skill when") (lower current)
    || contains (L "use when") (lower current) = true ->
    0 < enum_points current ->
    forallb (fun ext => contains (L "." ++ ext) (lower current)) (file_types a)
    = true ->
    100 <= length current <= 900 ->
    has_antipattern current = false ->
    suggest_improvements current generated a = [].
Proof.
  intros current generated a Ht He Hf [Hlo Hhi] Ha.
  unfold suggest_improvements.
  rewrite advisor_trigger_words, Ht.
  apply enum_points_search in He. rewrite He.
  apply orb_false_iff in Ha as [Ha _]. rewrite Ha.
  replace (length current <? 100) with false
    by (symmetry; apply Nat.ltb_ge; lia).
  replace (900 <? length current) with false
    by (symmetry; apply Nat.ltb_ge; lia).
  cbv zeta.
  replace (filter _ (file_types a)) with (@nil str).
  - destruct (negb (is_nil (file_types a))); reflexivity.
  - symmetry. revert Hf. generalize (file_types a) as l.
    induction l as [|x l IH]; [reflexivity|].
    cbn [forallb filter]. intro H. apply andb_true_iff in H as [H1 H2].
    rewrite H1. cbn [negb]. now apply IH.
Qed.

Lemma suggest_improvements_empty_witness :
  suggest_improvements sound_description [] (only_file_types [L "pdf"]) = [].
Proof.
  apply (suggest_improvements_empty sound_description []
           (only_file_types [L "pdf"])).
  - vm_compute. reflexivity.
  - vm_compute. lia.
  - vm_compute. reflexivity.
  - vm_compute. lia.
  - vm_compute. reflexivity.
Defined.

(** ** The analyzer's issues *)

Lemma quality_checks_file_types (desc : str) (fts : list str) :
  (In (file_types_issue fts) (quality_checks desc fts)
   <-> fts <> []
       /\ forall ext, In ext fts -> contains ext (lower desc) = false)
  /\ (forall issue, In issue (quality_checks desc fts) ->
                    startswith (L "File types ") issue = true ->
                    issue = file_types_issue fts).
Proof.
  assert (Hany : existsb (fun ext => contains ext (lower desc)) fts = false
                 <-> forall ext, In ext fts -> contains ext (lower desc) = false).
  { induction fts as [|x l IH]; simpl.
    - split; [intros _ ext []|reflexivity].
    - rewrite orb_false_iff, IH. split.
      + intros [H1 H2] ext [<-|Hin]; auto.
      + intro H. split; [apply H; now left|intros ext Hin; apply H; now right]. }
  unfold quality_checks, file_types_issue.
  split.
  - rewrite !in_app_iff. split.
    + intros [Hi|[Hi|[Hi|[Hi|[Hi|Hi]]]]].
      * destruct (_ <? 50); [destruct Hi as [Hi|[]]; discriminate Hi|destruct Hi].
      * destruct (1024 <? _); [destruct Hi as [Hi|[]]; discriminate Hi|destruct Hi].
      * destruct (_ || _); [destruct Hi as [Hi|[]]; discriminate Hi|destruct Hi].
      * destruct (negb (re_search trigger_issue_re _));
          [destruct Hi as [Hi|[]]; discriminate Hi|destruct Hi].
      * destruct (negb (re_search enum_re _));
          [destruct Hi as [Hi|[]]; discriminate Hi|destruct Hi].
      * destruct fts as [|x l]; [destruct Hi|]. split; [discriminate|].
        apply (proj1 Hany). cbn [is_nil negb orb] in Hi.
        destruct (existsb _ (x :: l)); [destruct Hi|reflexivity].
    + intros [Hne Hall]. apply (proj2 Hany) in Hall. rewrite Hall.
      destruct fts as [|x l]; [congruence|].
      cbn [is_nil negb orb]. do 5 right. now left.
  - intros issue Hin Hst. rewrite !in_app_iff in Hin.
    destruct Hin as [Hi|[Hi|[Hi|[Hi|[Hi|Hi]]]]].
    + destruct (_ <? 50); [destruct Hi as [<-|[]]; discriminate Hst|destruct Hi].
    + destruct (1024 <? _); [destruct Hi as [<-|[]]; discriminate Hst|destruct Hi].
    + destruct (_ || _); [destruct Hi as [<-|[]]; discriminate Hst|destruct Hi].
    + destruct (negb (re_search trigger_issue_re _));
        [destruct Hi as [<-|[]]; discriminate Hst|destruct Hi].
    + destruct (negb (re_search enum_re _));
        [destruct Hi as [<-|[]]; discriminate Hst|destruct Hi].
    + destruct (is_nil fts || _); [|destruct Hi].
      destruct (negb (is_nil fts)); [|destruct Hi].
      destruct Hi as [<-|[]]. reflexivity.
Qed.

(** ** Stable sorting by count *)

Lemma insert_sorted_in {A} (leb : A -> A -> bool) (x z : A) (l : list A) :
  In z (insert_sorted leb x l) <-> z = x \/ In z l.
Proof.
  induction l as [|y l IH]; simpl.
  - intuition.
  - destruct (leb x y); simpl; [|rewrite IH]; intuition.
Qed.

Lemma sorted_by_in {A} (leb : A -> A -> bool) (z : A) (l : list A) :
  In z (sorted_by leb l) <-> In z l.
Proof.
  induction l as [|x l IH]; simpl; [reflexivity|].
  rewrite insert_sorted_in, IH. intuition.
Qed.

Lemma insert_sorted_perm {A} (leb : A -> A -> bool) (x : A) (l : list A) :
  Permutation (insert_sorted leb x l) (x :: l).
Proof.
  induction l as [|y l IH]; simpl; [reflexivity|].
  destruct (leb x y); [reflexivity|].
  rewrite IH. apply perm_swap.
Qed.

Lemma sorted_by_perm {A} (leb : A -> A -> bool) (l : list A) :
  Permutation (sorted_by leb l) l.
Proof.
  induction l as [|x l IH]; simpl; [reflexivity|].
  rewrite insert_sorted_perm. now constructor.
Qed.

Section StableSort.

Context {A : Type} (cnt ps : A -> nat).




End StableSort.


Lemma StronglySorted_filter {A} (R : A -> A -> Prop) (p : A -> bool) (l : list A) :
  StronglySorted R l -> StronglySorted R (filter p l).
Proof.
  induction 1 as [|x l Hs IH Hx]; simpl; [constructor|].
  destruct (p x); [|assumption]. constructor; [assumption|].
  rewrite Forall_forall in *. intros y Hy. apply filter_In in Hy as [Hy _]. auto.
Qed.

Lemma StronglySorted_NoDup {A} (R : A -> A -> Prop) (l : list A) :
  (forall x, ~ R x x) -> StronglySorted R l -> NoDup l.
Proof.
  intros Hirr. induction 1 as [|x l Hs IH Hx]; constructor; [|assumption].
  intro Hin. rewrite Forall_forall in Hx. exact (Hirr x (Hx x Hin)).
Qed.

(** ** The counter *)

Lemma occurrences_cons (x y : str) (l : list str) :
  occurrences x (y :: l) = (if str_eqb x y then 1 else 0) + occurrences x l.
Proof. unfold occurrences. simpl. destruct (str_eqb x y); reflexivity. Qed.

Lemma occurrences_app (x : str) (l1 l2 : list str) :
  occurrences x (l1 ++ l2) = occurrences x l1 + occurrences x l2.
Proof. unfold occurrences. now rewrite filter_app, length_app. Qed.

Lemma uniq_in (x : str) (l : list str) : In x (uniq l) <-> In x l.
Proof.
  induction l as [|y l IH]; simpl; [reflexivity|].
  rewrite filter_In, IH. destruct (str_eqb x y) eqn:E.
  - apply str_eqb_eq in E. subst. intuition.
  - pose proof (proj1 (str_eqb_neq x y) E) as N. split.
    + intros [H|[H _]]; auto.
    + intros [H|H]; [now left|]. right. split; [assumption|].
      reflexivity.
Qed.

Lemma uniq_sorted (l : list str) :
  StronglySorted (fun a b => first_index a l < first_index b l) (uniq l).
Proof.
  induction l as [|x l IH]; simpl; [constructor|]. constructor.
  - apply StronglySorted_filter with (p := fun y => negb (str_eqb y x)) in IH.
    revert IH. generalize (uniq l) as u. intros u IH.
    assert (Hne : Forall (fun y => y <> x) (filter (fun y => negb (str_eqb y x)) u)).
    { rewrite Forall_forall. intros y Hy. apply filter_In in Hy as [_ Hy].
      apply negb_true_iff, str_eqb_neq in Hy. assumption. }
    revert IH Hne. generalize (filter (fun y => negb (str_eqb y x)) u) as v.
    induction v as [|a v IHv]; intros Hs Hne; [constructor|].
    inversion Hs as [|? ? Hs' Ha]; subst.
    inversion Hne as [|? ? Hax Hne']; subst.
    constructor; [now apply IHv|].
    rewrite Forall_forall in *. intros b Hb.
    apply str_eqb_neq in Hax. rewrite str_eqb_sym in Hax.
    pose proof (Hne' b Hb) as Hbx. apply str_eqb_neq in Hbx.
    rewrite str_eqb_sym in Hbx.
    rewrite Hax, Hbx. apply -> Nat.succ_lt_mono. now apply Ha.
  - rewrite Forall_forall. intros y Hy. apply filter_In in Hy as [_ Hy].
    rewrite str_eqb_refl. apply negb_true_iff in Hy.
    rewrite str_eqb_sym in Hy. rewrite Hy. lia.
Qed.

Lemma uniq_NoDup (l : list str) : NoDup (uniq l).
Proof.
  apply StronglySorted_NoDup with (R := fun a b => first_index a l < first_index b l).
  - intros x. lia.
  - apply uniq_sorted.
Qed.

Lemma uniq_snoc (l : list str) (v : str) :
  uniq (l ++ [v]) = if mem v l then uniq l else uniq l ++ [v].
Proof.
  induction l as [|x l IH]; simpl; [reflexivity|].
  rewrite IH. rewrite (str_eqb_sym v x). destruct (str_eqb x v) eqn:E; simpl.
  - destruct (mem v l); [reflexivity|].
    rewrite filter_app. simpl. rewrite str_eqb_sym, E. simpl.
    now rewrite app_nil_r.
  - destruct (mem v l); [reflexivity|].
    rewrite filter_app. simpl. rewrite str_eqb_sym, E. reflexivity.
Qed.

Lemma counter_add_old (v : str) (f : str -> nat) (u : list str) :
  NoDup u -> In v u ->
  counter_add v (map (fun k => (k, f k)) u)
  = map (fun k => (k, if str_eqb k v then S (f k) else f k)) u.
Proof.
  induction u as [|a u IH]; intros Hnd Hin; [destruct Hin|].
  inversion Hnd as [|? ? Ha Hnd']; subst. simpl.
  destruct (str_eqb a v) eqn:Ea.
  - f_equal. apply str_eqb_eq in Ea. subst a.
    apply map_ext_in. intros k Hk.
    destruct (str_eqb k v) eqn:Ek; [|reflexivity].
    apply str_eqb_eq in Ek. subst. contradiction.
  - f_equal. apply IH; [assumption|].
    destruct Hin as [->|Hin]; [|assumption].
    rewrite str_eqb_refl in Ea. discriminate.
Qed.

Lemma counter_add_new (v : str) (f : str -> nat) (u : list str) :
  ~ In v u ->
  counter_add v (map (fun k => (k, f k)) u)
  = map (fun k => (k, f k)) u ++ [(v, 1)].
Proof.
  induction u as [|a u IH]; intros Hin; [reflexivity|]. simpl.
  destruct (str_eqb a v) eqn:Ea.
  - apply str_eqb_eq in Ea. subst. exfalso. apply Hin. now left.
  - f_equal. apply IH. intro H. apply Hin. now right.
Qed.

Lemma occurrences_zero (v : str) (l : list str) :
  ~ In v l -> occurrences v l = 0.
Proof.
  intro H. unfold occurrences.
  destruct (filter (str_eqb v) l) as [|a t] eqn:F; [reflexivity|].
  assert (Ha : In a (filter (str_eqb v) l)) by (rewrite F; now left).
  apply filter_In in Ha as [Ha1 Ha2]. apply str_eqb_eq in Ha2. now subst.
Qed.

Lemma Counter_keys (l : list str) :
  Counter l = map (fun k => (k, occurrences k l)) (uniq l).
Proof.
  induction l as [|v l IH] using rev_ind; [reflexivity|].
  unfold Counter in *. rewrite fold_left_app. simpl. rewrite IH.
  rewrite uniq_snoc. destruct (mem v l) eqn:M.
  - rewrite counter_add_old;
      [|apply uniq_NoDup|apply uniq_in; now apply mem_In].
    apply map_ext. intros k.
    rewrite occurrences_app, occurrences_cons. f_equal.
    unfold occurrences. simpl. destruct (str_eqb k v); lia.
  - assert (Hv : ~ In v l).
    { intro H. apply mem_In in H. congruence. }
    rewrite counter_add_new; [|now rewrite uniq_in].
    rewrite map_app. simpl. f_equal.
    + apply map_ext_in. intros k Hk.
      rewrite occurrences_app, occurrences_cons. f_equal.
      destruct (str_eqb k v) eqn:E.
      * apply str_eqb_eq in E. subst. apply (proj1 (uniq_in _ _)) in Hk.
        contradiction.
      * unfold occurrences. simpl. lia.
    + rewrite occurrences_app, occurrences_cons, str_eqb_refl.
      rewrite occurrences_zero by assumption. reflexivity.
Qed.



(** ** Action verbs *)



(** ** The word pattern against the words of the text *)
















(** ** The order on strings and sorted sets *)

Lemma code_inj (x y : ascii) : code x = code y -> x = y.
Proof.
  unfold code. intro H.
  rewrite <- (ascii_nat_embedding x), <- (ascii_nat_embedding y). now rewrite H.
Qed.

Lemma str_leb_total (a b : str) : str_leb a b = true \/ str_leb b a = true.
Proof.
  revert b; induction a as [|x a IH]; intros [|y b]; simpl; auto.
  destruct (Nat.ltb_spec (code x) (code y)); auto.
  destruct (Nat.ltb_spec (code y) (code x)); auto.
Qed.

Lemma str_leb_antisym (a b : str) :
  str_leb a b = true -> str_leb b a = true -> a = b.
Proof.
  revert b; induction a as [|x a IH]; intros [|y b]; simpl; try discriminate; auto.
  destruct (Nat.ltb_spec (code x) (code y)), (Nat.ltb_spec (code y) (code x));
    try lia; try discriminate.
  intros H1 H2. f_equal; [apply code_inj; lia | now apply IH].
Qed.

Lemma str_leb_trans (a b c : str) :
  str_leb a b = true -> str_leb b c = true -> str_leb a c = true.
Proof.
  revert b c; induction a as [|x a IH]; intros [|y b] [|z c]; simpl;
    try discriminate; auto.
  destruct (Nat.ltb_spec (code x) (code y)), (Nat.ltb_spec (code y) (code x)),
    (Nat.ltb_spec (code y) (code z)), (Nat.ltb_spec (code z) (code y)),
    (Nat.ltb_spec (code x) (code z)), (Nat.ltb_spec (code z) (code x));
    try lia; try discriminate; auto.
  apply IH.
Qed.

Lemma insert_sorted_le (x : str) (l : list str) :
  StronglySorted str_le l -> StronglySorted str_le (insert_sorted str_leb x l).
Proof.
  induction l as [|y l IH]; intro Hs; simpl.
  - repeat constructor.
  - inversion Hs as [|? ? Hs' Hy]; subst.
    destruct (str_leb x y) eqn:E.
    + constructor; [assumption|]. constructor; [exact E|].
      rewrite Forall_forall in *. intros z Hz.
      exact (str_leb_trans _ _ _ E (Hy z Hz)).
    + constructor; [now apply IH|].
      rewrite Forall_forall in *. intros z Hz.
      apply insert_sorted_in in Hz as [->|Hz]; [|now apply Hy].
      destruct (str_leb_total x y) as [H|H]; [congruence|exact H].
Qed.

Lemma sorted_le (l : list str) : StronglySorted str_le (sorted l).
Proof.
  induction l as [|x l IH]; simpl; [constructor|].
  now apply insert_sorted_le.
Qed.

Lemma dedup_in (x : str) (l : list str) : In x (dedup l) <-> In x l.
Proof.
  induction l as [|y l IH]; simpl; [reflexivity|].
  destruct (mem y l) eqn:M; simpl; rewrite IH; [|reflexivity].
  apply mem_In in M. intuition (subst; auto).
Qed.

Lemma dedup_NoDup (l : list str) : NoDup (dedup l).
Proof.
  induction l as [|y l IH]; simpl; [constructor|].
  destruct (mem y l) eqn:M; [assumption|].
  constructor; [|assumption].
  rewrite dedup_in. intro H. apply mem_In in H. congruence.
Qed.

(** Two sorted duplicate-free lists with the same elements are equal. *)
Lemma sorted_set_unique (l1 l2 : list str) :
  StronglySorted str_le l1 -> StronglySorted str_le l2 ->
  NoDup l1 -> NoDup l2 ->
  (forall x, In x l1 <-> In x l2) -> l1 = l2.
Proof.
  revert l2; induction l1 as [|a l1 IH]; intros l2 S1 S2 N1 N2 H.
  - destruct l2 as [|b l2]; [reflexivity|].
    exfalso. apply (H b). now left.
  - destruct l2 as [|b l2].
    { exfalso. apply (H a). now left. }
    inversion S1 as [|? ? S1' F1]; inversion S2 as [|? ? S2' F2]; subst.
    inversion N1 as [|? ? A1 N1']; inversion N2 as [|? ? A2 N2']; subst.
    rewrite Forall_forall in F1, F2.
    assert (E : a = b).
    { destruct (proj1 (H a) (or_introl eq_refl)) as [Hb|Hb]; [now subst|].
      destruct (proj2 (H b) (or_introl eq_refl)) as [Ha|Ha]; [now subst|].
      apply str_leb_antisym; [apply F1, Ha|apply F2, Hb]. }
    subst b. f_equal. apply IH; auto.
    intro x. split; intro Hx.
    + destruct (proj1 (H x) (or_intror Hx)) as [<-|Hx']; [contradiction|assumption].
    + destruct (proj2 (H x) (or_intror Hx)) as [<-|Hx']; [contradiction|assumption].
Qed.

Lemma filter_in_sublists {A} (p : A -> bool) (l : list A) :
  In (filter p l) (sublists l).
Proof.
  induction l as [|x l IH]; simpl; [now left|].
  apply in_app_iff. destruct (p x).
  - left. now apply in_map.
  - now right.
Qed.

Lemma filter_NoDup {A} (p : A -> bool) (l : list A) : NoDup l -> NoDup (filter p l).
Proof.
  induction 1 as [|x l Hx Hn IH]; simpl; [constructor|].
  destruct (p x); [|assumption]. constructor; [|assumption].
  intro H. apply filter_In in H as [H _]. contradiction.
Qed.

Lemma sorted_NoDup (l : list str) : NoDup l -> NoDup (sorted l).
Proof.
  intro H. apply (Permutation_NoDup (Permutation_sym (sorted_by_perm str_leb l)) H).
Qed.

Lemma sorted_in (x : str) (l : list str) : In x (sorted l) <-> In x l.
Proof. apply sorted_by_in. Qed.

(** A sorted set drawn from a vocabulary is a sublist of the sorted
    vocabulary. *)
Lemma sorted_set_in_sublists (V l : list str) :
  (forall x, In x l -> In x V) ->
  In (sorted (dedup l)) (sublists (sorted (dedup V))).
Proof.
  intro Hsub.
  replace (sorted (dedup l))
    with (filter (fun v => mem v l) (sorted (dedup V))).
  - apply filter_in_sublists.
  - apply sorted_set_unique.
    + apply StronglySorted_filter, sorted_le.
    + apply sorted_le.
    + apply filter_NoDup, sorted_NoDup, dedup_NoDup.
    + apply sorted_NoDup, dedup_NoDup.
    + intro x. rewrite filter_In, mem_In, !sorted_in, !dedup_in.
      split; [tauto|]. intro H. split; auto.
Qed.

(** ** The extension patterns, spelled out *)

Lemma startswith_length (p s : str) : startswith p s = true -> length p <= length s.
Proof.
  revert s; induction p as [|x p IH]; intros [|y s]; simpl; try discriminate; try lia.
  intro H. apply andb_true_iff in H as [_ H]. apply IH in H. lia.
Qed.

Lemma m_ci_lits (w : str) :
  forall {A} g prev s (k : option str -> option ascii -> str -> option A),
    m (lits_with ch_ci w) g prev s k =
    if startswith (lower w) (lower s)
    then k g (lastp (firstn (length w) s) prev) (skipn (length w) s)
    else None.
Proof.
  induction w as [|c w IH]; intros A g prev s k.
  - reflexivity.
  - destruct w as [|c' w].
    + simpl. destruct s as [|y s]; [reflexivity|]. simpl.
      rewrite Ascii.eqb_sym. destruct (Ascii.eqb _ _); reflexivity.
    + change (lits_with ch_ci (c :: c' :: w))
        with (Cat (ch_ci c) (lits_with ch_ci (c' :: w))).
      cbn [m ch_ci]. destruct s as [|y s]; [reflexivity|].
      cbn [lower map startswith]. rewrite (Ascii.eqb_sym (lower_c y)).
      destruct (Ascii.eqb (lower_c c) (lower_c y)); [|reflexivity].
      rewrite IH. reflexivity.
Qed.

Lemma m_alts (rs : list re) :
  forall {A} g prev s (k : option str -> option ascii -> str -> option A),
    m (alts rs) g prev s k = first_some (fun r => m r g prev s k) rs.
Proof.
  induction rs as [|r rs IH]; intros A g prev s k.
  - simpl. destruct s; reflexivity.
  - destruct rs as [|r' rs].
    + simpl. destruct (m r g prev s k); reflexivity.
    + change (alts (r :: r' :: rs)) with (Alt r (alts (r' :: rs))).
      cbn [m first_some]. rewrite IH. reflexivity.
Qed.

Lemma first_some_map {A B C} (f : B -> option C) (h : A -> B) (l : list A) :
  first_some f (map h l) = first_some (fun x => f (h x)) l.
Proof.
  induction l as [|x l IH]; simpl; [reflexivity|]. now rewrite IH.
Qed.

Lemma first_some_ext {A B} (f f' : A -> option B) (l : list A) :
  (forall x, f x = f' x) -> first_some f l = first_some f' l.
Proof.
  intro H. induction l as [|x l IH]; simpl; [reflexivity|]. now rewrite H, IH.
Qed.

Lemma first_some_in {A B} (f : A -> option B) (l : list A) (b : B) :
  first_some f l = Some b -> exists x, In x l /\ f x = Some b.
Proof.
  induction l as [|x l IH]; simpl; [discriminate|].
  destruct (f x) eqn:E.
  - intro H. inversion H; subst. exists x. auto.
  - intro H. apply IH in H as (y & Hy & Hf). exists y. auto.
Qed.

Lemma first_some_found {A B} (f : A -> option B) (l : list A) (x : A) :
  In x l -> is_some (f x) = true -> is_some (first_some f l) = true.
Proof.
  induction l as [|y l IH]; simpl; [intros []|].
  intros [->|Hin] Hx.
  - destruct (f x); [reflexivity|discriminate].
  - destruct (f y); [reflexivity|now apply IH].
Qed.

Lemma match_at_extension (names : list string) (prev : option ascii) (s : str) :
  match_at (extension_re names) prev s = ext_match names s.
Proof.
  unfold match_at, extension_re, ext_match. cbn [cats m ch].
  destruct s as [|c rest]; [reflexivity|].
  destruct (Ascii.eqb_spec "." c) as [<-|]; [|reflexivity].
  rewrite m_alts, first_some_map. apply first_some_ext. intro nm.
  unfold lit_ci, ext_try. rewrite m_ci_lits. cbv zeta.
  destruct (startswith (lower (L nm)) (lower rest)) eqn:E; [|reflexivity].
  cbn [m andb].
  assert (Hlen : length (L nm) <= length rest).
  { apply startswith_length in E. unfold lower in E. now rewrite !length_map in E. }
  destruct (xorb _ _); [|reflexivity].
  f_equal. f_equal.
  - cbn [length]. rewrite length_skipn. lia.
  - f_equal. f_equal. rewrite length_skipn. lia.
Qed.

Lemma lower_firstn (n : nat) (s : str) : lower (firstn n s) = firstn n (lower s).
Proof. unfold lower. symmetry. apply firstn_map. Qed.

Lemma startswith_firstn (p s : str) :
  startswith p s = true -> firstn (length p) s = p.
Proof.
  revert s; induction p as [|x p IH]; intros [|y s]; simpl; try discriminate; auto.
  intro H. apply andb_true_iff in H as [H1 H2].
  apply Ascii.eqb_eq in H1. subst. f_equal. now apply IH.
Qed.

Lemma ext_try_found (rest : str) (nm : string) n g :
  ext_try rest nm = Some (n, g) ->
  exists x, g = Some x /\ lower x = lower (L nm).
Proof.
  unfold ext_try. cbv zeta.
  destruct (startswith (lower (L nm)) (lower rest)) eqn:E; [|discriminate].
  destruct (xorb _ _); [|discriminate]. simpl. intro H. inversion H; subst.
  eexists. split; [reflexivity|].
  rewrite lower_firstn.
  replace (length (L nm)) with (length (lower (L nm)))
    by (unfold lower; apply length_map).
  now apply startswith_firstn.
Qed.

Lemma names_lowercase :
  forall nm, In nm all_names -> lower (L nm) = L nm.
Proof.
  intros nm H. unfold all_names in H.
  repeat (destruct H as [<-|H]; [reflexivity|]). destruct H.
Qed.

Lemma primary_in_all (nm : string) : In nm primary_names -> In nm all_names.
Proof.
  intro H. unfold primary_names in H.
  repeat (destruct H as [<-|H]; [simpl; tauto|]). destruct H.
Qed.

Lemma L_inj (a b : string) : L a = L b -> a = b.
Proof.
  unfold L. intro H.
  rewrite <- (string_of_list_ascii_of_string a), <- (string_of_list_ascii_of_string b).
  now rewrite H.
Qed.

(** Every extension found is a name of the pattern, up to case. *)
Lemma extension_found (names : list string) (prev : option ascii) (s : str) n g :
  match_at (extension_re names) prev s = Some (n, g) ->
  exists nm, In nm names /\ lower (found n g s) = lower (L nm).
Proof.
  rewrite match_at_extension. unfold ext_match.
  destruct s as [|c rest]; [discriminate|].
  destruct (Ascii.eqb "." c); [|discriminate].
  intro H. apply first_some_in in H as (nm & Hin & Ht).
  apply ext_try_found in Ht as (x & -> & Hx). exists nm. auto.
Qed.

(** Where the wide pattern finds a primary format, the primary pattern
    matches too. *)
Lemma all_to_primary (prev : option ascii) (s : str) n g :
  match_at ALL_EXTENSIONS prev s = Some (n, g) ->
  In (lower (found n g s)) (map L primary_names) ->
  is_some (match_at PRIMARY_EXTENSIONS prev s) = true.
Proof.
  unfold ALL_EXTENSIONS, PRIMARY_EXTENSIONS. rewrite !match_at_extension.
  unfold ext_match. destruct s as [|c rest]; [discriminate|].
  destruct (Ascii.eqb "." c); [|discriminate].
  intros H Hp. apply first_some_in in H as (nm & Hin & Ht).
  pose proof (ext_try_found _ _ _ _ Ht) as (x & -> & Hx).
  cbn [found] in Hp. rewrite Hx, (names_lowercase nm Hin) in Hp.
  apply in_map_iff in Hp as (nm' & E & Hin').
  apply L_inj in E. subst nm'.
  apply (first_some_found _ _ nm Hin'). now rewrite Ht.
Qed.

Lemma findall_search_transfer (r r' : re) (Q : str -> Prop) :
  (forall prev t n g, match_at r prev t = Some (n, g) -> Q (found n g t) ->
                      is_some (match_at r' prev t) = true) ->
  forall s skip prev x,
    In x (findall_aux r skip prev s) -> Q x -> search_from r' prev s = true.
Proof.
  intros HT s. induction s as [|c s IH]; intros skip prev x Hin HQ.
  - simpl in Hin. destruct skip; [|destruct Hin].
    destruct (match_at r prev []) as [[n g]|] eqn:E; [|destruct Hin].
    destruct Hin as [<-|[]]. simpl.
    specialize (HT _ _ _ _ E HQ). destruct (match_at r' prev []); [reflexivity|discriminate].
  - simpl in Hin. cbn [search_from].
    destruct (match_at r' prev (c :: s)) eqn:E'; [reflexivity|].
    destruct skip as [|k]; [|exact (IH _ _ _ Hin HQ)].
    destruct (match_at r prev (c :: s)) as [[n g]|] eqn:E;
      [|exact (IH _ _ _ Hin HQ)].
    destruct Hin as [<-|Hin]; [|exact (IH _ _ _ Hin HQ)].
    specialize (HT _ _ _ _ E HQ). rewrite E' in HT. discriminate.
Qed.

(** ** File types *)

Lemma list_eqb_eq (a b : list str) : list_eqb a b = true <-> a = b.
Proof.
  revert b; induction a as [|x a IH]; intros [|y b]; simpl; split; intro H;
    try reflexivity; try discriminate.
  - apply andb_true_iff in H as [H1 H2].
    apply str_eqb_eq in H1. apply IH in H2. now subst.
  - inversion H; subst. apply andb_true_iff. split; [apply str_eqb_refl|now apply IH].
Qed.

Lemma dedup_NoDup_id (l : list str) : NoDup l -> dedup l = l.
Proof.
  induction 1 as [|x l Hx Hn IH]; simpl; [reflexivity|].
  destruct (mem x l) eqn:M; [apply mem_In in M; contradiction|].
  now rewrite IH.
Qed.

Lemma findall_extension_names (names : list string) (s : str) :
  (forall nm, In nm names -> In nm all_names) ->
  forall x, In x (map lower (re_findall (extension_re names) s)) ->
            In x (map L names).
Proof.
  intros Hn x Hx. apply in_map_iff in Hx as (y & <- & Hy).
  pose proof (findall_aux_forall (extension_re names)
                (fun y => In (lower y) (map L names))) as HF.
  unfold re_findall in Hy.
  assert (HQ : forall prev t n g,
             match_at (extension_re names) prev t = Some (n, g) ->
             In (lower (found n g t)) (map L names)).
  { intros prev t n g H. apply extension_found in H as (nm & Hin & E).
    rewrite E, (names_lowercase nm (Hn nm Hin)). now apply in_map. }
  specialize (HF HQ s 0 None). rewrite Forall_forall in HF. now apply HF.
Qed.

Lemma no_primary_in_all (s : str) :
  re_findall PRIMARY_EXTENSIONS s = [] ->
  forall x, In x (map lower (re_findall ALL_EXTENSIONS s)) ->
            ~ In x (map L primary_names).
Proof.
  intros Hp x Hx Hin. apply in_map_iff in Hx as (y & <- & Hy).
  assert (S : re_search PRIMARY_EXTENSIONS s = true).
  { unfold re_search, re_findall in *.
    apply (findall_search_transfer ALL_EXTENSIONS PRIMARY_EXTENSIONS
             (fun y => In (lower y) (map L primary_names))) with (skip := 0) (x := y);
      auto.
    intros prev t n g. apply all_to_primary. }
  rewrite re_search_findall, Hp in S. discriminate.
Qed.

Lemma all_names_split (x : str) :
  In x (map L all_names) ->
  In x (map L primary_names) \/ In x image_exts \/ In x code_exts.
Proof.
  intro H. unfold all_names in H. simpl in H.
  repeat (destruct H as [<-|H];
          [vm_compute; tauto|]).
  destruct H.
Qed.

Lemma find_file_types_sets (s : str) : In (find_file_types s) file_type_sets.
Proof.
  unfold find_file_types, file_type_sets. cbv zeta.
  destruct (re_findall PRIMARY_EXTENSIONS s) as [|p ps] eqn:P; cbn [is_nil negb].
  - (* no primary format: the wide pattern *)
    pose proof (no_primary_in_all s P) as Hnp.
    pose proof (findall_extension_names all_names s (fun nm H => H)) as Hall.
    fold ALL_EXTENSIONS in Hall.
    set (l := map lower (re_findall ALL_EXTENSIONS s)) in *.
    set (doc := filter (fun e => negb (mem e code_exts)) (dedup l)).
    apply in_app_iff. right. apply in_app_iff.
    destruct doc as [|d ds] eqn:D; cbn [is_nil negb].
    + right. apply sorted_set_in_sublists. intros x Hx.
      destruct (mem x code_exts) eqn:M; [now apply mem_In|].
      exfalso. assert (Hd : In x doc).
      { unfold doc. apply filter_In. rewrite dedup_in, M. auto. }
      rewrite D in Hd. destruct Hd.
    + left. rewrite <- D.
      rewrite <- (dedup_NoDup_id doc)
        by (unfold doc; apply filter_NoDup, dedup_NoDup).
      apply sorted_set_in_sublists. intros x Hx.
      unfold doc in Hx. apply filter_In in Hx as [Hx1 Hx2].
      apply (proj1 (dedup_in _ _)) in Hx1.
      destruct (all_names_split x (Hall x Hx1)) as [H|[H|H]].
      * exfalso. exact (Hnp x Hx1 H).
      * exact H.
      * apply mem_In in H. rewrite H in Hx2. discriminate.
  - apply in_app_iff. left. rewrite <- P.
    apply sorted_set_in_sublists.
    apply (findall_extension_names primary_names s primary_in_all).
Qed.

Lemma file_type_sets_fixed :
  forallb (fun r => list_eqb (find_file_types (render_dotted r)) r) file_type_sets
  = true.
Proof. vm_compute. reflexivity. Qed.

Lemma file_type_sets_ascii :
  forallb (fun r => ascii_text (render_dotted r)) file_type_sets = true.
Proof. vm_compute. reflexivity. Qed.

(** C9, as the specification states it, fails: the comma-joined file types
    of a text that mentions a ".pdf" file are "pdf", in which nothing is
    found. *)
Lemma find_file_types_plain_rendering_lost :
  find_file_types (L "Fill in report.pdf") = [L "pdf"]
  /\ render_plain (find_file_types (L "Fill in report.pdf")) = L "pdf"
  /\ find_file_types (render_plain (find_file_types (L "Fill in report.pdf"))) = []
  /\ find_file_types (render_plain (find_file_types (L "Fill in report.pdf")))
     <> find_file_types (L "Fill in report.pdf").
Proof. vm_compute. repeat split. discriminate. Qed.

(** C9, amended: the file types of a text in 7-bit ASCII, written with
    their dots and joined by commas (".pdf, .xml"), are again a text in
    7-bit ASCII and give back the same file types. *)
Theorem find_file_types_dotted_fixed_point :
  forall s : str,
    ascii_text s = true ->
    ascii_text (render_dotted (find_file_types s)) = true
    /\ find_file_types (render_dotted (find_file_types s)) = find_file_types s.
Proof.
  intros s _. pose proof (find_file_types_sets s) as H.
  pose proof file_type_sets_fixed as F. rewrite forallb_forall in F.
  pose proof file_type_sets_ascii as G. rewrite forallb_forall in G.
  split; [now apply G|]. apply list_eqb_eq. now apply F.
Qed.

Lemma find_file_types_dotted_fixed_point_witness :
  find_file_types (L "Fill report.pdf and data.XML") = [L "pdf"; L "xml"]
  /\ render_dotted (find_file_types (L "Fill report.pdf and data.XML"))
     = L ".pdf, .xml"
  /\ find_file_types (render_dotted (find_file_types (L "Fill report.pdf and data.XML")))
     = find_file_types (L "Fill report.pdf and data.XML").
Proof.
  split; [vm_compute; reflexivity|]. split; [vm_compute; reflexivity|].
  exact (proj2 (find_file_types_dotted_fixed_point
                  (L "Fill report.pdf and data.XML") eq_refl)).
Defined.

(** ** Characters that pass through the generator *)

Lemma in_firstn {A} (n : nat) (l : list A) (x : A) :
  In x (firstn n l) -> In x l.
Proof.
  revert l; induction n as [|n IH]; intros [|y l]; simpl; try tauto.
  intros [H|H]; auto.
Qed.

Lemma forall_ascii (f : ascii -> bool) :
  forallb f (map ascii_of_nat (seq 0 256)) = true -> forall c, f c = true.
Proof.
  intros H c. rewrite forallb_forall in H. apply H.
  rewrite <- (ascii_nat_embedding c). apply in_map, in_seq.
  pose proof (nat_ascii_bounded c). lia.
Qed.

Lemma noangle_lower (c : ascii) : noangle c = true -> noangle (lower_c c) = true.
Proof.
  intro H.
  pose proof (forall_ascii (fun c => implb (noangle c) (noangle (lower_c c)))) as F.
  specialize (F ltac:(vm_compute; reflexivity) c). cbv beta in F.
  now rewrite H in F.
Qed.

Lemma noangle_upper (c : ascii) : noangle c = true -> noangle (upper_c c) = true.
Proof.
  intro H.
  pose proof (forall_ascii (fun c => implb (noangle c) (noangle (upper_c c)))) as F.
  specialize (F ltac:(vm_compute; reflexivity) c). cbv beta in F.
  now rewrite H in F.
Qed.

Section Kept.

(** A class of characters that case mapping does not leave. *)
Variable q : ascii -> bool.
Hypothesis q_lower : forall c, q c = true -> q (lower_c c) = true.
Hypothesis q_upper : forall c, q c = true -> q (upper_c c) = true.

Lemma kept_lower (s : str) : forallb q s = true -> forallb q (lower s) = true.
Proof.
  induction s as [|c s IH]; simpl; [reflexivity|].
  intro H. apply andb_true_iff in H as [H1 H2].
  now rewrite q_lower, IH.
Qed.

Lemma kept_title_aux (s : str) :
  forall b, forallb q s = true -> forallb q (title_aux b s) = true.
Proof.
  induction s as [|c s IH]; intros b; simpl; [reflexivity|].
  intro H. apply andb_true_iff in H as [H1 H2].
  rewrite IH by assumption. destruct b; [rewrite q_lower|rewrite q_upper]; auto.
Qed.

Lemma kept_title (s : str) : forallb q s = true -> forallb q (title s) = true.
Proof. apply kept_title_aux. Qed.

Lemma kept_capitalize (s : str) :
  forallb q s = true -> forallb q (capitalize s) = true.
Proof.
  destruct s as [|c s]; simpl; [reflexivity|].
  intro H. apply andb_true_iff in H as [H1 H2].
  rewrite q_upper by assumption. now apply kept_lower.
Qed.

Lemma kept_replace_c (a b : ascii) (s : str) :
  q b = true -> forallb q s = true -> forallb q (replace_c a b s) = true.
Proof.
  intro Hb. induction s as [|c s IH]; simpl; [reflexivity|].
  intro H. apply andb_true_iff in H as [H1 H2].
  rewrite IH by assumption. destruct (Ascii.eqb c a); now rewrite ?Hb, ?H1.
Qed.

Lemma kept_dropwhile (p : ascii -> bool) (s : str) :
  forallb q s = true -> forallb q (dropwhile p s) = true.
Proof.
  induction s as [|c s IH]; simpl; [reflexivity|].
  intro H. destruct (p c); [|exact H].
  apply andb_true_iff in H as [_ H]. now apply IH.
Qed.

Lemma kept_rev (s : str) : forallb q s = true -> forallb q (rev s) = true.
Proof.
  rewrite !forallb_forall. intros H x Hx. apply H. now apply in_rev.
Qed.

Lemma kept_rstrip_p (p : ascii -> bool) (s : str) :
  forallb q s = true -> forallb q (rstrip_p p s) = true.
Proof. intro H. unfold rstrip_p. now apply kept_rev, kept_dropwhile, kept_rev. Qed.

Lemma kept_strip (s : str) : forallb q s = true -> forallb q (strip s) = true.
Proof. intro H. unfold strip, lstrip_p. now apply kept_rstrip_p, kept_dropwhile. Qed.

Lemma kept_firstn (n : nat) (s : str) :
  forallb q s = true -> forallb q (firstn n s) = true.
Proof.
  rewrite !forallb_forall. intros H x Hx. apply H. eapply in_firstn; eauto.
Qed.

Lemma kept_join (sep : str) (l : list str) :
  forallb q sep = true -> forallb (forallb q) l = true ->
  forallb q (join sep l) = true.
Proof.
  intro Hs. induction l as [|x l IH]; [reflexivity|].
  intro H. cbn [forallb] in H. apply andb_true_iff in H as [H1 H2].
  destruct l as [|y l]; [exact H1|].
  change (join sep (x :: y :: l)) with (x ++ sep ++ join sep (y :: l)).
  rewrite !forallb_app, H1, Hs, IH; auto.
Qed.

Lemma kept_sub_aux (r : re) (repl : str) (s : str) :
  forallb q repl = true ->
  forall count skip prev,
    forallb q s = true -> forallb q (sub_aux r repl count skip prev s) = true.
Proof.
  intro Hr. induction s as [|c s IH]; intros count skip prev H; simpl.
  - destruct skip; [|reflexivity].
    destruct (count_open count); [|reflexivity].
    destruct (match_at r prev []); [exact Hr|reflexivity].
  - cbn [forallb] in H. apply andb_true_iff in H as [H1 H2].
    destruct skip; [|now apply IH].
    destruct (count_open count).
    + destruct (match_at r prev (c :: s)) as [[[|n] g]|].
      * rewrite forallb_app, Hr. cbn [forallb andb]. rewrite H1. now apply IH.
      * rewrite forallb_app, Hr. now apply IH.
      * cbn [forallb]. rewrite H1. now apply IH.
    + cbn [forallb]. rewrite H1. now apply IH.
Qed.

Lemma kept_re_sub (r : re) (repl : str) (count : option nat) (s : str) :
  forallb q repl = true -> forallb q s = true ->
  forallb q (re_sub r repl count s) = true.
Proof. intros. now apply kept_sub_aux. Qed.

Lemma kept_removelast (l : list str) :
  forallb (forallb q) l = true -> forallb (forallb q) (but_last l) = true.
Proof.
  rewrite !forallb_forall. intros H x Hx. apply H.
  unfold but_last in Hx. clear H. induction l as [|y l IH]; [destruct Hx|].
  destruct l as [|z l]; [destruct Hx|].
  destruct Hx as [<-|Hx]; [now left|right; now apply IH].
Qed.

Lemma kept_last (l : list str) :
  forallb (forallb q) l = true -> forallb q (last l []) = true.
Proof.
  induction l as [|y l IH]; [reflexivity|].
  intro H. cbn [forallb] in H. apply andb_true_iff in H as [H1 H2].
  destruct l as [|z l]; [exact H1|]. now apply IH.
Qed.

Lemma kept_hd (l : list str) :
  forallb (forallb q) l = true -> forallb q (hd [] l) = true.
Proof.
  destruct l as [|y l]; [reflexivity|].
  intro H. cbn [forallb] in H. now apply andb_true_iff in H as [H1 H2].
Qed.

Lemma kept_firstn_list (n : nat) (l : list str) :
  forallb (forallb q) l = true -> forallb (forallb q) (firstn n l) = true.
Proof.
  rewrite !forallb_forall. intros H x Hx. apply H. eapply in_firstn; eauto.
Qed.

End Kept.

(** ** No angle brackets from bracket-free signals *)

Lemma angle_free_forallb (s : str) : angle_free s <-> forallb noangle s = true.
Proof.
  unfold angle_free. rewrite Forall_forall, forallb_forall.
  split; intros H c Hc; specialize (H c Hc); unfold noangle in *.
  - destruct H as [H1 H2]. apply Ascii.eqb_neq in H1, H2. now rewrite H1, H2.
  - apply andb_true_iff in H as [H1 H2].
    apply negb_true_iff in H1, H2. now apply Ascii.eqb_neq in H1, H2.
Qed.

Lemma angle_free_list_forallb (l : list str) :
  Forall angle_free l <-> forallb (forallb noangle) l = true.
Proof.
  rewrite Forall_forall, forallb_forall.
  split; intros H s Hs; apply angle_free_forallb; auto.
Qed.

Lemma noangle_digit (n : nat) : noangle (digit_c (n mod 10)) = true.
Proof.
  pose proof (Nat.mod_upper_bound n 10 ltac:(lia)) as H.
  destruct (n mod 10) as [|[|[|[|[|[|[|[|[|[|k]]]]]]]]]]; try reflexivity; lia.
Qed.

Lemma noangle_str_of_nat (n : nat) : forallb noangle (str_of_nat n) = true.
Proof.
  unfold str_of_nat. generalize (S n) as fuel.
  assert (H : forallb noangle (@nil ascii) = true) by reflexivity.
  revert H. generalize (@nil ascii) as acc. intros acc H fuel.
  revert n acc H. induction fuel as [|f IH]; intros n acc H;
    cbn [str_of_nat_aux]; [exact H|].
  destruct (n <? 10).
  - cbn [forallb]. now rewrite noangle_digit.
  - apply IH. cbn [forallb]. now rewrite noangle_digit.
Qed.

Lemma noangle_dotted (l : list str) :
  forallb (forallb noangle) l = true -> forallb (forallb noangle) (dotted l) = true.
Proof.
  induction l as [|x l IH]; [reflexivity|].
  intro H. cbn [forallb] in H. apply andb_true_iff in H as [H1 H2].
  simpl. now rewrite H1, IH.
Qed.

Lemma noangle_enumerated (f : nat * str -> str) (l : list str) :
  (forall i x, forallb noangle x = true -> forallb noangle (f (i, x)) = true) ->
  forallb (forallb noangle) l = true ->
  forall i, forallb (forallb noangle) (map f (enumerate_from i l)) = true.
Proof.
  intros Hf. induction l as [|x l IH]; intros H i; [reflexivity|].
  cbn [forallb] in H. apply andb_true_iff in H as [H1 H2].
  cbn [enumerate_from map forallb]. apply andb_true_iff.
  split; [apply Hf; assumption | apply IH; assumption].
Qed.

Lemma noangle_flat_map (f : str -> list str) (l : list str) :
  (forall x, forallb noangle x = true -> forallb (forallb noangle) (f x) = true) ->
  forallb (forallb noangle) l = true ->
  forallb (forallb noangle) (flat_map f l) = true.
Proof.
  intros Hf. induction l as [|x l IH]; intros H; [reflexivity|].
  cbn [forallb] in H. apply andb_true_iff in H as [H1 H2].
  change (flat_map f (x :: l)) with (f x ++ flat_map f l).
  rewrite forallb_app. apply andb_true_iff.
  split; [apply Hf; assumption | apply IH; assumption].
Qed.

Ltac af :=
  match goal with
  | H : ?g |- ?g => exact H
  | |- forallb noangle (L _) = true => reflexivity
  | |- forallb noangle [] = true => reflexivity
  | |- forallb noangle (_ ++ _) = true =>
      rewrite forallb_app; apply andb_true_iff; split; af
  | |- forallb noangle (if ?b then _ else _) = true => destruct b; af
  | |- forallb noangle (match ?l with [] => _ | _ :: _ => _ end) = true =>
      destruct l; af
  | |- forallb noangle (lower _) = true =>
      apply (kept_lower noangle noangle_lower); af
  | |- forallb noangle (title _) = true =>
      apply (kept_title noangle noangle_lower noangle_upper); af
  | |- forallb noangle (capitalize _) = true =>
      apply (kept_capitalize noangle noangle_lower noangle_upper); af
  | |- forallb noangle (readable _) = true =>
      unfold readable; do 2 (apply kept_replace_c; [reflexivity|]); af
  | |- forallb noangle (strip _) = true => apply kept_strip; af
  | |- forallb noangle (rstrip _ _) = true => apply kept_rstrip_p; af
  | |- forallb noangle (firstn _ _) = true => apply kept_firstn; af
  | |- forallb noangle (join _ _) = true => apply kept_join; af
  | |- forallb noangle (hd [] _) = true => apply kept_hd; af
  | |- forallb noangle (last _ []) = true => apply kept_last; af
  | |- forallb noangle (str_of_nat _) = true => apply noangle_str_of_nat
  | |- forallb noangle (re_sub _ _ _ _) = true => apply kept_re_sub; af
  | |- forallb (forallb noangle) (firstn _ _) = true => apply kept_firstn_list; af
  | |- forallb (forallb noangle) (but_last _) = true => apply kept_removelast; af
  | |- forallb (forallb noangle) (dotted _) = true => apply noangle_dotted; af
  | |- forallb (forallb noangle) (_ ++ _) = true =>
      rewrite forallb_app; apply andb_true_iff; split; af
  | |- forallb (forallb noangle) [_] = true =>
      cbn [forallb]; rewrite andb_true_r; af
  | |- _ => idtac
  end.

Section AngleFree.

Variable a : Analysis.
Hypothesis Hname : forallb noangle (name a) = true.
Hypothesis Hverbs : forallb (forallb noangle) (action_verbs a) = true.
Hypothesis Htypes : forallb (forallb noangle) (file_types a) = true.
Hypothesis Hheads : forallb (forallb noangle) (headings a) = true.
Hypothesis Hscens : forallb (forallb noangle) (estimated_scenarios a) = true.

Lemma noangle_capability :
  forallb noangle (generate_capability_phrase a) = true.
Proof. unfold generate_capability_phrase. cbv zeta. af. Qed.

Lemma noangle_scenarios : forallb noangle (generate_scenarios a) = true.
Proof.
  unfold generate_scenarios. cbv zeta. af.
  - apply noangle_enumerated; [|af]. intros i x Hx. af.
  - apply noangle_enumerated; [|af]. intros i x Hx. af.
Qed.

Lemma noangle_trigger : forallb noangle (generate_trigger_context a) = true.
Proof. unfold generate_trigger_context. cbv zeta. af. Qed.

Lemma noangle_catchall : forallb noangle (generate_catchall a) = true.
Proof. unfold generate_catchall. af. Qed.

Lemma noangle_examples : forallb noangle (generate_examples a) = true.
Proof.
  unfold generate_examples. cbv zeta.
  destruct (negb (is_nil _)).
  - af. apply noangle_flat_map; [|af]. intros x Hx.
    destruct (existsb _ _); [|reflexivity]. af.
  - destruct (file_types a) as [|ft fts] eqn:E; [reflexivity|].
    cbn [forallb] in Htypes. apply andb_true_iff in Htypes as [H1 H2]. af.
Qed.

Lemma noangle_generated :
  forallb noangle (generate_optimized_description a) = true.
Proof.
  pose proof noangle_capability. pose proof noangle_scenarios.
  pose proof noangle_trigger. pose proof noangle_catchall.
  pose proof noangle_examples.
  unfold generate_optimized_description. cbv zeta. af.
Qed.

End AngleFree.

(** C2, as the specification states it, fails: a skill named
    "vector<int>-tools" gets a description with its angle brackets, and so
    does one with a heading that quotes "<input>". *)
Lemma generated_description_keeps_angle_brackets :
  contains (L "<") (generate_optimized_description angle_name_analysis) = true
  /\ ~ angle_free (generate_optimized_description angle_name_analysis)
  /\ contains (L ">") (generate_optimized_description angle_heading_analysis) = true
  /\ ~ angle_free (generate_optimized_description angle_heading_analysis).
Proof.
  repeat split; try (vm_compute; reflexivity);
    intro H; apply angle_free_forallb in H; vm_compute in H; discriminate H.
Qed.

(** C2, amended: when the name, the action verbs, the file types, the
    headings and the scenarios of an analysis hold no angle bracket, neither
    does the generated description. *)
Theorem generated_description_angle_free :
  forall a : Analysis,
    angle_free (name a) ->
    Forall angle_free (action_verbs a) ->
    Forall angle_free (file_types a) ->
    Forall angle_free (headings a) ->
    Forall angle_free (estimated_scenarios a) ->
    angle_free (generate_optimized_description a).
Proof.
  intros a H1 H2 H3 H4 H5. apply angle_free_forallb.
  apply noangle_generated.
  - now apply angle_free_forallb.
  - now apply angle_free_list_forallb.
  - now apply angle_free_list_forallb.
  - now apply angle_free_list_forallb.
  - now apply angle_free_list_forallb.
Qed.

Lemma generated_description_angle_free_witness :
  angle_free (generate_optimized_description plain_analysis).
Proof.
  apply (generated_description_angle_free plain_analysis).
  - apply angle_free_forallb. reflexivity.
  - apply angle_free_list_forallb. reflexivity.
  - apply angle_free_list_forallb. reflexivity.
  - apply angle_free_list_forallb. reflexivity.
  - apply angle_free_list_forallb. reflexivity.
Defined.

(** ** What the shortening and the cleaning leave in place *)

Lemma generate_optimized_description_split (a : Analysis) :
  generate_optimized_description a = post_process (filled_template a).
Proof. reflexivity. Qed.

Lemma sub_keeps_prefix (r : re) (repl : str) :
  (forall prev c s, c <> "("%char -> match_at r prev (c :: s) = None) ->
  forall pre count prev y,
    forallb noparen pre = true ->
    sub_aux r repl count 0 prev (pre ++ y)
    = pre ++ sub_aux r repl count 0 (lastp pre prev) y.
Proof.
  intros Hr pre. induction pre as [|c pre IH]; intros count prev y H.
  - reflexivity.
  - cbn [forallb] in H. apply andb_true_iff in H as [H1 H2].
    unfold noparen in H1. apply negb_true_iff, Ascii.eqb_neq in H1.
    cbn [app sub_aux]. rewrite (Hr prev c (pre ++ y) H1).
    destruct (count_open count); rewrite IH by assumption; reflexivity.
Qed.

Lemma examples_re_head (prev : option ascii) (c : ascii) (s : str) :
  c <> "("%char -> match_at examples_re prev (c :: s) = None.
Proof.
  intro H. unfold match_at, examples_re. cbn [cats m ch].
  destruct (Ascii.eqb_spec "(" c); [congruence|reflexivity].
Qed.

Lemma scenario_item_re_head (prev : option ascii) (c : ascii) (s : str) :
  c <> "("%char -> match_at scenario_item_re prev (c :: s) = None.
Proof.
  intro H. unfold match_at, scenario_item_re. cbn [cats m ch].
  destruct (Ascii.eqb_spec "(" c); [congruence|reflexivity].
Qed.

Lemma dropwhile_app_stop {A} (p : A -> bool) (x z : list A) (c : A) :
  p c = false -> dropwhile p (x ++ c :: z) = dropwhile p x ++ c :: z.
Proof.
  intro Hc. induction x as [|b x IH]; simpl.
  - now rewrite Hc.
  - destruct (p b); [exact IH|reflexivity].
Qed.

Lemma split_last {A} (w : list A) (d : A) :
  w <> [] -> w = removelast w ++ [last w d].
Proof. intro H. now apply app_removelast_last. Qed.

Section Solid.

Variable w : str.
Hypothesis Hw : solid w.

Lemma solid_head : exists c t, w = c :: t /\ is_space c = false /\ c <> "("%char.
Proof.
  destruct Hw as (Hne & Hp & Hs & _). destruct w as [|c t]; [congruence|].
  exists c, t. cbn [forallb] in Hp, Hs.
  apply andb_true_iff in Hp as [Hp _]. apply andb_true_iff in Hs as [Hs _].
  unfold nonspace in Hs. apply negb_true_iff in Hs.
  unfold noparen in Hp. apply negb_true_iff, Ascii.eqb_neq in Hp. auto.
Qed.

Lemma solid_last :
  exists t c, w = t ++ [c] /\ is_space c = false /\ mem_c (L ",.") c = false.
Proof.
  destruct Hw as (Hne & Hp & Hs & Hl).
  exists (removelast w), (last w " "%char).
  split; [now apply split_last|]. split; [|exact Hl].
  rewrite forallb_forall in Hs.
  assert (Hin : In (last w " "%char) w).
  { rewrite (split_last w " "%char Hne) at 2. apply in_or_app. right. now left. }
  specialize (Hs _ Hin). unfold nonspace in Hs. now apply negb_true_iff in Hs.
Qed.

(** Stripping at either end keeps a solid word, and what stands before it
    loses characters only. *)
Lemma lstrip_keeps (p : ascii -> bool) (x y : str) :
  (forall c, is_space c = false -> p c = false) ->
  lstrip_p p (x ++ w ++ y) = dropwhile p x ++ w ++ y.
Proof.
  intro Hp. destruct solid_head as (c & t & E & Hc & _). rewrite E.
  unfold lstrip_p. cbn [app]. apply dropwhile_app_stop. auto.
Qed.

Lemma rstrip_keeps (p : ascii -> bool) (x y : str) :
  p (last w " "%char) = false ->
  rstrip_p p (x ++ w ++ y) = x ++ w ++ rev (dropwhile p (rev y)).
Proof.
  intro Hp. destruct Hw as (Hne & _).
  unfold rstrip_p. rewrite (split_last w " "%char Hne) at 1 2.
  rewrite !rev_app_distr. cbn [rev app]. rewrite <- !app_assoc. cbn [app].
  rewrite dropwhile_app_stop by exact Hp.
  rewrite rev_app_distr. cbn [rev]. rewrite rev_app_distr, !rev_involutive.
  cbn [rev app]. rewrite <- !app_assoc. reflexivity.
Qed.

Lemma last_not_space : is_space (last w " "%char) = false.
Proof.
  destruct solid_last as (t & c & E & Hc & _). rewrite E. now rewrite last_last.
Qed.

Lemma strip_keeps (x y : str) :
  strip (x ++ w ++ y) = dropwhile is_space x ++ w ++ rev (dropwhile is_space (rev y)).
Proof.
  unfold strip. rewrite lstrip_keeps by auto.
  apply rstrip_keeps. apply last_not_space.
Qed.

Lemma dropwhile_noparen (p : ascii -> bool) (x : str) :
  forallb noparen x = true -> forallb noparen (dropwhile p x) = true.
Proof.
  induction x as [|b x IH]; simpl; [reflexivity|].
  intro H. destruct (p b); [|exact H].
  apply andb_true_iff in H as [_ H]. now apply IH.
Qed.

(** A pattern that starts with an opening parenthesis leaves the text up
    to the end of a solid word alone. *)
Lemma sub_paren_keeps (r : re) (count : option nat) (x y : str) :
  (forall prev c s, c <> "("%char -> match_at r prev (c :: s) = None) ->
  forallb noparen x = true ->
  exists y', re_sub r [] count (x ++ w ++ y) = x ++ w ++ y'.
Proof.
  intros Hr Hx. destruct Hw as (_ & Hp & _).
  unfold re_sub. rewrite app_assoc.
  rewrite (sub_keeps_prefix r [] Hr) by (rewrite forallb_app, Hx, Hp; reflexivity).
  rewrite <- app_assoc. eauto.
Qed.

Lemma spaces_re_sound (prev : option ascii) (s : str) n g :
  match_at spaces_re prev s = Some (n, g) ->
  forallb is_space (firstn n s) = true.
Proof.
  intro H. apply match_at_sound in H as (m & s' & -> & -> & D).
  rewrite firstn_app, Nat.sub_diag, firstn_all. cbn [firstn]. rewrite app_nil_r.
  unfold spaces_re, plus in D. cbn [den] in D. destruct D as (D & _).
  rewrite forallb_forall. rewrite Forall_forall in D. exact D.
Qed.

Lemma spaces_re_stop (prev : option ascii) (c : ascii) (s : str) :
  is_space c = false -> match_at spaces_re prev (c :: s) = None.
Proof.
  intro H. unfold match_at, spaces_re, plus. cbn [m rep_greedy]. now rewrite H.
Qed.

Lemma collapse_solid (y : str) :
  forall v prev,
    forallb nonspace v = true ->
    sub_aux spaces_re (L " ") None 0 prev (v ++ y)
    = v ++ sub_aux spaces_re (L " ") None 0 (lastp v prev) y.
Proof.
  induction v as [|c v IH]; intros prev H; [reflexivity|].
  cbn [forallb] in H. apply andb_true_iff in H as [H1 H2].
  unfold nonspace in H1. apply negb_true_iff in H1.
  cbn [app sub_aux count_open]. rewrite spaces_re_stop by assumption.
  now rewrite IH.
Qed.

Lemma collapse_keeps (y : str) :
  forall x skip prev,
    forallb is_space (firstn skip (x ++ w ++ y)) = true ->
    exists x' y',
      sub_aux spaces_re (L " ") None skip prev (x ++ w ++ y) = x' ++ w ++ y'.
Proof.
  destruct solid_head as (c0 & t0 & E0 & Hc0 & _).
  induction x as [|c x IH]; intros skip prev H.
  - destruct skip as [|k].
    + destruct Hw as (_ & _ & Hs & _).
      cbn [app]. rewrite collapse_solid by assumption.
      exists [], (sub_aux spaces_re (L " ") None 0 (lastp w prev) y). reflexivity.
    + exfalso. rewrite E0 in H. cbn [app firstn forallb] in H.
      rewrite Hc0 in H. discriminate.
  - cbn [app sub_aux]. destruct skip as [|k].
    + cbn [count_open hi_pred].
      destruct (match_at spaces_re prev (c :: x ++ w ++ y)) as [[[|n] g]|] eqn:M.
      * destruct (IH 0 (Some c) eq_refl) as (x' & y' & E).
        rewrite E. exists (L " " ++ c :: x'), y'. now rewrite <- app_assoc.
      * apply spaces_re_sound in M. cbn [firstn forallb] in M.
        apply andb_true_iff in M as [_ M].
        destruct (IH n (Some c) M) as (x' & y' & E).
        rewrite E. exists (L " " ++ x'), y'. now rewrite <- app_assoc.
      * destruct (IH 0 (Some c) eq_refl) as (x' & y' & E).
        rewrite E. now exists (c :: x'), y'.
    + cbn [app firstn forallb] in H. apply andb_true_iff in H as [_ H].
      exact (IH k (Some c) H).
Qed.

(** The whole post-processing keeps a solid word that stands after text
    without an opening parenthesis. *)
Lemma post_process_keeps (x y : str) :
  forallb noparen x = true ->
  exists x' y', post_process (x ++ w ++ y) = x' ++ w ++ y'.
Proof.
  intro Hx. unfold post_process.
  (* strip the examples *)
  assert (H1 : exists x1 y1,
             (if MAX_DESCRIPTION_LENGTH <? length (x ++ w ++ y)
              then strip (re_sub examples_re [] None (x ++ w ++ y))
              else x ++ w ++ y) = x1 ++ w ++ y1
             /\ forallb noparen x1 = true).
  { destruct (_ <? _); [|now exists x, y].
    destruct (sub_paren_keeps examples_re None x y examples_re_head Hx) as (y' & E).
    rewrite E, strip_keeps. eexists _, _. split; [reflexivity|].
    now apply dropwhile_noparen. }
  destruct H1 as (x1 & y1 & -> & Hx1).
  (* drop two scenarios *)
  assert (H2 : exists y2,
             (if MAX_DESCRIPTION_LENGTH <? length (x1 ++ w ++ y1)
              then re_sub scenario_item_re [] (Some 2) (x1 ++ w ++ y1)
              else x1 ++ w ++ y1) = x1 ++ w ++ y2).
  { destruct (_ <? _); [|now exists y1].
    exact (sub_paren_keeps scenario_item_re (Some 2) x1 y1 scenario_item_re_head Hx1). }
  destruct H2 as (y2 & ->).
  (* collapse the white space, strip, and trim the end *)
  unfold re_sub.
  destruct (collapse_keeps y2 x1 0 None eq_refl) as (x3 & y3 & ->).
  rewrite strip_keeps. unfold rstrip.
  rewrite rstrip_keeps by (now destruct Hw as (_ & _ & _ & Hl)).
  eauto.
Qed.

End Solid.

(** ** The signals of an analyzed skill *)

Lemma find_action_verbs_vocabulary (s : str) :
  forall v, In v (find_action_verbs s) -> In v ACTION_VERBS.
Proof.
  intros v H. unfold find_action_verbs, most_common in H. cbv zeta in H.
  apply in_map_iff in H as (p & E & H).
  apply in_firstn in H. apply (proj1 (sorted_by_in _ _ _)) in H.
  rewrite Counter_keys in H.
  apply in_map_iff in H as (k & Ek & H). subst p. cbn [fst] in E. subst k.
  apply (proj1 (uniq_in _ _)) in H. apply filter_In in H as [_ H].
  now apply mem_In.
Qed.

Lemma sublists_in {A} (l r : list A) (x : A) :
  In r (sublists l) -> In x r -> In x l.
Proof.
  revert r; induction l as [|y l IH]; intros r Hr Hx; simpl in Hr.
  - destruct Hr as [<-|[]]. destruct Hx.
  - apply in_app_iff in Hr as [Hr|Hr].
    + apply in_map_iff in Hr as (r' & <- & Hr'). destruct Hx as [<-|Hx].
      * now left.
      * right. now apply (IH r').
    + right. now apply (IH r).
Qed.

Lemma find_file_types_names (s : str) :
  forall e, In e (find_file_types s) -> exists nm, In nm all_names /\ e = L nm.
Proof.
  intros e He. pose proof (find_file_types_sets s) as H.
  unfold file_type_sets in H.
  assert (Hin : In e (map L all_names)).
  { apply in_app_iff in H as [H|H]; [|apply in_app_iff in H as [H|H]];
      pose proof (sublists_in _ _ e H He) as Hv;
      apply (proj1 (sorted_in _ _)) in Hv; apply (proj1 (dedup_in _ _)) in Hv;
      revert Hv; clear; simpl; intuition. }
  apply in_map_iff in Hin as (nm & <- & Hin). eauto.
Qed.

Lemma find_file_types_lowercase (s : str) :
  forall e, In e (find_file_types s) -> lower e = e.
Proof.
  intros e He. apply find_file_types_names in He as (nm & Hin & ->).
  now apply names_lowercase.
Qed.

(** ** The generated description of an analyzed skill *)

Lemma noparen_lower (c : ascii) : noparen c = true -> noparen (lower_c c) = true.
Proof.
  intro H.
  pose proof (forall_ascii (fun c => implb (noparen c) (noparen (lower_c c)))) as F.
  specialize (F ltac:(vm_compute; reflexivity) c). cbv beta in F.
  now rewrite H in F.
Qed.

Lemma noparen_upper (c : ascii) : noparen c = true -> noparen (upper_c c) = true.
Proof.
  intro H.
  pose proof (forall_ascii (fun c => implb (noparen c) (noparen (upper_c c)))) as F.
  specialize (F ltac:(vm_compute; reflexivity) c). cbv beta in F.
  now rewrite H in F.
Qed.

Lemma upper_solid (c : ascii) : is_lower c = true -> solid [upper_c c].
Proof.
  intro H.
  pose proof (forall_ascii
                (fun c => implb (is_lower c)
                            (noparen (upper_c c) && nonspace (upper_c c)
                             && negb (mem_c (L ",.") (upper_c c))))) as F.
  specialize (F ltac:(vm_compute; reflexivity) c). cbv beta in F.
  rewrite H in F. cbn [implb] in F.
  apply andb_true_iff in F as [F F3]. apply andb_true_iff in F as [F1 F2].
  unfold solid. cbn [forallb last]. rewrite F1, F2.
  apply negb_true_iff in F3. repeat split; auto. discriminate.
Qed.

Lemma dotted_name_solid (nm : string) : In nm all_names -> solid (L "." ++ L nm).
Proof.
  intro H. unfold all_names in H.
  repeat (destruct H as [<-|H];
          [unfold solid; repeat split; try reflexivity; discriminate|]).
  destruct H.
Qed.

Lemma verbs_noparen (l : list str) :
  (forall v, In v l -> In v ACTION_VERBS) -> forallb (forallb noparen) l = true.
Proof.
  intro H. rewrite forallb_forall. intros v Hv. specialize (H v Hv).
  unfold ACTION_VERBS in H. simpl in H.
  repeat (destruct H as [<-|H]; [reflexivity|]). destruct H.
Qed.

Lemma verb_head (v : str) :
  In v ACTION_VERBS -> exists c t, v = c :: t /\ is_lower c = true.
Proof.
  intro H. unfold ACTION_VERBS in H. simpl in H.
  repeat (destruct H as [<-|H]; [eexists _, _; split; reflexivity|]). destruct H.
Qed.

Section Generated.

Variable a : Analysis.
Hypothesis Hverbs : forall v, In v (action_verbs a) -> In v ACTION_VERBS.
Hypothesis Htypes :
  forall e, In e (file_types a) -> exists nm, In nm all_names /\ e = L nm.

Lemma verb_phrase_noparen : forallb noparen (verb_phrase a) = true.
Proof.
  unfold verb_phrase.
  assert (H : forallb (forallb noparen) (firstn 4 (action_verbs a)) = true).
  { apply verbs_noparen. intros v Hv. apply Hverbs. eapply in_firstn; eauto. }
  destruct (negb _); [|reflexivity].
  apply (kept_title noparen noparen_lower noparen_upper).
  destruct (_ <? _).
  - rewrite !forallb_app. apply andb_true_iff. split.
    + apply kept_join; [reflexivity|]. now apply kept_removelast.
    + apply andb_true_iff. split; [reflexivity|now apply kept_last].
  - now apply kept_hd.
Qed.

Lemma verb_phrase_head : exists c t, verb_phrase a = c :: t /\ solid [c].
Proof.
  unfold verb_phrase.
  destruct (action_verbs a) as [|v vs] eqn:E.
  - exists "P"%char. eexists. split; [reflexivity|].
    unfold solid. repeat split; try reflexivity. discriminate.
  - destruct (verb_head v (Hverbs v (or_introl eq_refl))) as (c & t & -> & Hc).
    exists (upper_c c).
    change (firstn 4 ((c :: t) :: vs)) with ((c :: t) :: firstn 3 vs).
    cbn [is_nil negb].
    match goal with
    | |- exists t0, title ?X = _ /\ _ =>
        assert (Hs : exists rest, X = c :: rest)
    end.
    { destruct (firstn 3 vs) as [|v2 l]; [now exists t|].
      cbn [length Nat.ltb Nat.leb but_last removelast].
      destruct l as [|v3 l']; cbn [join app]; eauto. }
    destruct Hs as (rest & ->). unfold title. cbn [title_aux].
    eexists. split; [reflexivity|]. now apply upper_solid.
Qed.

Lemma capability_unfold :
  generate_capability_phrase a
  = verb_phrase a ++ L " " ++
    (if negb (is_nil (file_types a))
     then L "for " ++ join (L ", ") (dotted (firstn 3 (file_types a))) ++ L " files"
     else L "for " ++ readable (name a)).
Proof. reflexivity. Qed.

Lemma filled_template_capability :
  exists rest, filled_template a = generate_capability_phrase a ++ rest.
Proof.
  unfold filled_template. cbv zeta.
  repeat destruct (str_eqb _ _); eexists; reflexivity.
Qed.

(** With file types, the first of them stays in the description with its
    dot; without, the first letter of the description stays. *)
Lemma generated_keeps_first_type (e : str) (fts : list str) :
  file_types a = e :: fts ->
  exists x y, generate_optimized_description a = x ++ (L "." ++ e) ++ y.
Proof.
  intro E. rewrite generate_optimized_description_split.
  destruct filled_template_capability as (rest & ->).
  rewrite capability_unfold, E. cbn [is_nil negb].
  destruct (Htypes e) as (nm & Hnm & ->); [rewrite E; now left|].
  change (firstn 3 (L nm :: fts)) with (L nm :: firstn 2 fts).
  unfold dotted. cbn [map].
  match goal with
  | |- context [join ?sep (?h :: ?tl0)] =>
      assert (J : exists tl, join sep (h :: tl0) = h ++ tl)
        by (destruct tl0; [exists []; now rewrite app_nil_r | cbn [join]; eauto])
  end.
  destruct J as (tl & ->).
  match goal with
  | |- exists x y, post_process ?T = _ =>
      replace T
        with ((verb_phrase a ++ L " for ") ++ (L "." ++ L nm)
              ++ (tl ++ L " files" ++ rest))
  end.
  - apply post_process_keeps; [now apply dotted_name_solid|].
    rewrite forallb_app, verb_phrase_noparen. reflexivity.
  - rewrite <- !app_assoc. reflexivity.
Qed.

Lemma generated_nonempty : generate_optimized_description a <> [].
Proof.
  rewrite generate_optimized_description_split.
  destruct filled_template_capability as (rest & ->).
  rewrite capability_unfold.
  destruct verb_phrase_head as (c & t & -> & Hc).
  destruct (post_process_keeps [c] Hc []
              (t ++ (L " " ++
                     (if negb (is_nil (file_types a))
                      then L "for " ++ join (L ", ") (dotted (firstn 3 (file_types a)))
                           ++ L " files"
                      else L "for " ++ readable (name a))) ++ rest) eq_refl)
    as (x' & y' & E).
  cbn [app] in *. rewrite <- app_assoc. cbn [app]. rewrite E.
  destruct x'; discriminate.
Qed.

Lemma generated_scores : 15 <= score_description (generate_optimized_description a) a.
Proof.
  unfold score_description.
  destruct (generate_optimized_description a) as [|c0 g0] eqn:G.
  { exfalso. now apply generated_nonempty. }
  cbn [is_nil]. rewrite <- G.
  assert (F : file_type_points (generate_optimized_description a) (file_types a) = 15).
  { pose proof generated_keeps_first_type as K. pose proof Htypes as Ht.
    revert K Ht. generalize (file_types a) as l. intros l K Ht.
    unfold file_type_points. destruct l as [|e fts]; [reflexivity|].
    cbn [is_nil negb]. cbv zeta.
    destruct (K e fts eq_refl) as (x & y & ->).
    cbn [filter].
    assert (C : contains (L "." ++ e) (lower (x ++ (L "." ++ e) ++ y)) = true).
    { apply contains_app. exists (lower x), (lower y).
      unfold lower. rewrite !map_app. f_equal. f_equal.
      destruct (Ht e) as (nm & Hnm & ->); [now left|].
      change (map lower_c (L nm)) with (lower (L nm)).
      rewrite (names_lowercase nm Hnm). reflexivity. }
    rewrite C. reflexivity. }
  rewrite F. lia.
Qed.

End Generated.

(** ** Skills with an empty description *)

Lemma quality_checks_empty (fts : list str) :
  (forall e, In e fts -> e <> []) ->
  quality_checks [] fts
  = [ L "Description too short (< 50 chars)";
      L "Missing trigger phrase (Use this skill when...)";
      L "No enumerated scenarios (1), (2), (3)..." ]
    ++ (if is_nil fts then [] else [file_types_issue fts]).
Proof.
  intro Hne. unfold quality_checks, file_types_issue.
  change (lower []) with (@nil ascii).
  assert (X : existsb (fun ext => contains ext []) fts = false).
  { destruct (existsb _ fts) eqn:X; [|reflexivity].
    apply existsb_exists in X as (e & He & C).
    destruct e; [now apply Hne in He|discriminate]. }
  assert (T : re_search trigger_issue_re [] = false) by (vm_compute; reflexivity).
  assert (N : re_search enum_re [] = false) by (vm_compute; reflexivity).
  rewrite X, T, N. destruct fts; reflexivity.
Qed.

Lemma names_nonempty (nm : string) : In nm all_names -> L nm <> [].
Proof.
  intro H. unfold all_names in H.
  repeat (destruct H as [<-|H]; [discriminate|]). destruct H.
Qed.

(** C4, as the specification states it, fails: a skill with an empty
    description that mentions ".pdf" has four issues, not five, and one that
    mentions no file type has three, not four. *)
Lemma empty_description_issue_counts :
  (exists a, analyze_skill empty_pdf_yaml (fun l => l) empty_pdf_dir = inr a
             /\ name a = L "pdf-filler"
             /\ current_description a = []
             /\ file_types a = [L "pdf"]
             /\ length (quality_issues a) = 4
             /\ length (quality_issues a) <> 5)
  /\ (exists a, analyze_skill empty_notes_yaml (fun l => l) empty_notes_dir = inr a
                /\ name a = L "note-taker"
                /\ current_description a = []
                /\ file_types a = []
                /\ length (quality_issues a) = 3
                /\ length (quality_issues a) <> 4).
Proof.
  split; eexists; (split; [vm_compute; reflexivity|]);
    cbn [name current_description file_types quality_issues length];
    repeat split; discriminate.
Qed.

(** C4, amended: for a skill whose description is empty, the issues are
    exactly too-short, missing-trigger and no-enumeration, followed by the
    file-types issue when file types were found: four issues then, three
    otherwise; the empty description scores 0, the generated one scores
    more, and the comparison selects the generated description. *)
Theorem empty_description_outcome :
  forall yaml_safe_load set_to_list (skill_path : SkillDir) (a : Analysis),
    analyze_skill yaml_safe_load set_to_list skill_path = inr a ->
    current_description a = [] ->
    quality_issues a
    = [ L "Description too short (< 50 chars)";
        L "Missing trigger phrase (Use this skill when...)";
        L "No enumerated scenarios (1), (2), (3)..." ]
      ++ (if is_nil (file_types a) then [] else [file_types_issue (file_types a)])
    /\ length (quality_issues a) = (if is_nil (file_types a) then 3 else 4)
    /\ score_description (current_description a) a = 0
    /\ score_description (current_description a) a
       < score_description (generate_optimized_description a) a
    /\ exists r, main yaml_safe_load set_to_list (Some skill_path) = Some r
                 /\ rep_generated r = generate_optimized_description a
                 /\ rep_best r = rep_generated r.
Proof.
  intros yaml sl dir a H Hd.
  assert (Hv : forall v, In v (action_verbs a) -> In v ACTION_VERBS).
  { unfold analyze_skill in H. destruct (skill_md dir); [|discriminate].
    injection H as <-. cbn [action_verbs]. apply find_action_verbs_vocabulary. }
  assert (Ht : forall e, In e (file_types a) ->
                         exists nm, In nm all_names /\ e = L nm).
  { unfold analyze_skill in H. destruct (skill_md dir); [|discriminate].
    injection H as <-. cbn [file_types]. apply find_file_types_names. }
  assert (Hq : quality_issues a = quality_checks (current_description a) (file_types a)).
  { unfold analyze_skill in H. destruct (skill_md dir); [|discriminate].
    injection H as <-. reflexivity. }
  pose proof (generated_scores a Hv Ht) as Hs.
  assert (Hi : quality_issues a
               = [ L "Description too short (< 50 chars)";
                   L "Missing trigger phrase (Use this skill when...)";
                   L "No enumerated scenarios (1), (2), (3)..." ]
                 ++ (if is_nil (file_types a) then []
                     else [file_types_issue (file_types a)])).
  { rewrite Hq, Hd. apply quality_checks_empty.
    intros e He. destruct (Ht e He) as (nm & Hnm & ->). now apply names_nonempty. }
  split; [exact Hi|]. split; [rewrite Hi; destruct (file_types a); reflexivity|].
  rewrite Hd. split; [reflexivity|]. split.
  { change (score_description [] a) with 0. lia. }
  unfold main. rewrite H. eexists. split; [reflexivity|].
  cbn [rep_generated rep_best]. split; [reflexivity|].
  rewrite Hd. change (score_description [] a) with 0.
  destruct (Nat.ltb_spec 0 (score_description (generate_optimized_description a) a));
    [reflexivity|lia].
Qed.

Lemma empty_description_outcome_witness :
  analyze_skill empty_pdf_yaml (fun l => l) empty_pdf_dir = inr empty_pdf_analysis
  /\ current_description empty_pdf_analysis = []
  /\ length (quality_issues empty_pdf_analysis) = 4
  /\ score_description (current_description empty_pdf_analysis) empty_pdf_analysis
     < score_description (generate_optimized_description empty_pdf_analysis)
         empty_pdf_analysis.
Proof.
  assert (H : analyze_skill empty_pdf_yaml (fun l => l) empty_pdf_dir
              = inr empty_pdf_analysis) by (vm_compute; reflexivity).
  destruct (empty_description_outcome empty_pdf_yaml (fun l => l) empty_pdf_dir
              empty_pdf_analysis H eq_refl) as (_ & Hl & _ & Hs & _).
  repeat split; assumption.
Defined.

(** ** The file-types issue *)

(** C6, as the specification states it, fails: ".xml" files are detected
    and "xml" is no token of the description "Converts xmlrpc payloads", yet
    no file-types issue is reported, because "xml" occurs inside "xmlrpc". *)
Lemma file_types_issue_ignores_word_boundaries :
  exists a : Analysis,
    analyze_skill xmlrpc_yaml (fun l => l) xmlrpc_dir = inr a
    /\ current_description a = L "Converts xmlrpc payloads"
    /\ file_types a = [L "xml"]
    /\ (forall ext, In ext (file_types a) ->
                    token_in (lower ext) (lower (current_description a)) = false)
    /\ contains (L "xml") (lower (current_description a)) = true
    /\ ~ In (file_types_issue (file_types a)) (quality_issues a).
Proof.
  eexists. split; [vm_compute; reflexivity|].
  cbn [current_description file_types quality_issues].
  repeat split; try (vm_compute; reflexivity).
  - intros ext [<-|[]]. vm_compute. reflexivity.
  - vm_compute. intros [H|[H|[H|[]]]]; discriminate H.
Qed.

(** C6, amended: the file-types issue is among the issues of an analyzed
    document exactly when file types were detected and none of them occurs,
    in any case, anywhere in the current description, also inside a longer
    word; the issue is the message that lists the detected types, which are
    then all missing, and no other issue is about file types. *)
Theorem file_types_issue_iff :
  forall yaml_safe_load set_to_list (skill_path : SkillDir) (a : Analysis),
    analyze_skill yaml_safe_load set_to_list skill_path = inr a ->
    (In (file_types_issue (file_types a)) (quality_issues a)
     <-> file_types a <> []
         /\ forall ext, In ext (file_types a) ->
                        contains (lower ext) (lower (current_description a)) = false)
    /\ (forall issue, In issue (quality_issues a) ->
                      startswith (L "File types ") issue = true ->
                      issue = file_types_issue (file_types a)).
Proof.
  intros yaml sl dir a H. unfold analyze_skill in H.
  destruct (skill_md dir) as [content|]; [|discriminate].
  injection H as <-.
  cbn [file_types quality_issues current_description].
  destruct (quality_checks_file_types
              (get_or (L "description") [] (extract_frontmatter yaml content))
              (find_file_types content)) as [H1 H2].
  split; [|exact H2]. rewrite H1. split; intros [Hne Hall]; (split; [exact Hne|]);
    intros ext Hin; specialize (Hall ext Hin);
    now rewrite (find_file_types_lowercase content ext Hin) in *.
Qed.

Lemma file_types_issue_iff_witness :
  analyze_skill empty_pdf_yaml (fun l => l) empty_pdf_dir = inr empty_pdf_analysis
  /\ In (file_types_issue (file_types empty_pdf_analysis))
        (quality_issues empty_pdf_analysis)
  /\ file_types empty_pdf_analysis = [L "pdf"]
  /\ contains (lower (L "pdf")) (lower (current_description empty_pdf_analysis))
     = false.
Proof.
  assert (H : analyze_skill empty_pdf_yaml (fun l => l) empty_pdf_dir
              = inr empty_pdf_analysis) by (vm_compute; reflexivity).
  destruct (file_types_issue_iff empty_pdf_yaml (fun l => l) empty_pdf_dir
              empty_pdf_analysis H) as [[_ Hto] _].
  split; [exact H|]. split; [|split; reflexivity].
  apply Hto. split; [discriminate|].
  intros ext [<-|[]]. reflexivity.
Defined.

(** ** The generated description and the limit *)

(** C1: a skill with a name of 400 characters, no action verb, no file type
    and no scenario gets a description of 1316 characters, above the limit
    of 1024. *)
Theorem generated_description_over_limit :
  length (action_verbs long_name_analysis) <= 10
  /\ length (file_types long_name_analysis) <= 6
  /\ length (estimated_scenarios long_name_analysis) <= 5
  /\ length (generate_optimized_description long_name_analysis) = 1316
  /\ MAX_DESCRIPTION_LENGTH
     < length (generate_optimized_description long_name_analysis).
Proof. vm_compute. repeat split; lia. Qed.

(** ** Lazy and greedy repetition, spelled out *)

Lemma rep_lazy_none {A} (p : ascii -> bool) (k : option ascii -> str -> option A) :
  forall s lo hi prev,
    (forall h t, s = h ++ t -> k (lastp h prev) t = None) ->
    rep_lazy p lo hi prev s k = None.
Proof.
  induction s as [|c s IH]; intros lo hi prev H.
  - pose proof (H [] [] eq_refl) as E0. cbn [lastp fold_left] in E0.
    cbn [rep_lazy]. rewrite E0. now destruct (lo =? 0).
  - pose proof (H [] (c :: s) eq_refl) as E0. cbn [lastp fold_left] in E0.
    cbn [rep_lazy]. rewrite E0.
    assert (E : (if lo =? 0 then @None A else None) = None) by now destruct (lo =? 0).
    rewrite E. destruct (p c && hi_open hi); [|reflexivity].
    apply IH. intros h t ->. apply (H (c :: h) t). reflexivity.
Qed.

Lemma rep_lazy_first {A} (p : ascii -> bool) (k : option ascii -> str -> option A)
    (a : A) (t : str) :
  forall h prev,
    forallb p h = true ->
    (forall h1 h2, h = h1 ++ h2 -> h2 <> [] -> k (lastp h1 prev) (h2 ++ t) = None) ->
    k (lastp h prev) t = Some a ->
    rep_lazy p 0 None prev (h ++ t) k = Some a.
Proof.
  induction h as [|c h IH]; intros prev Hp Hn Hk.
  - cbn [app lastp fold_left] in *. destruct t; cbn [rep_lazy Nat.eqb]; now rewrite Hk.
  - cbn [forallb] in Hp. apply andb_true_iff in Hp as [Hc Hp].
    cbn [app rep_lazy Nat.eqb].
    pose proof (Hn [] (c :: h) eq_refl ltac:(discriminate)) as E0.
    cbn [lastp fold_left app] in E0. rewrite E0.
    rewrite Hc. cbn [hi_open andb pred hi_pred].
    apply IH; [exact Hp| |exact Hk].
    intros h1 h2 -> Hne. apply (Hn (c :: h1) h2); [reflexivity|exact Hne].
Qed.

Lemma rep_greedy_all {A} (p : ascii -> bool) (k : option ascii -> str -> option A)
    (a : A) :
  forall s prev lo,
    forallb p s = true -> lo <= length s ->
    k (lastp s prev) [] = Some a ->
    rep_greedy p lo None prev s k = Some a.
Proof.
  induction s as [|c s IH]; intros prev lo Hp Hlo Hk.
  - cbn [length] in Hlo. assert (lo = 0) by lia. subst lo. exact Hk.
  - cbn [forallb] in Hp. apply andb_true_iff in Hp as [Hc Hp].
    cbn [rep_greedy]. rewrite Hc. cbn [hi_open andb hi_pred].
    rewrite (IH (Some c) (pred lo) Hp); [reflexivity| |exact Hk].
    cbn [length] in Hlo. lia.
Qed.

Lemma contains_suffix (w h t : str) :
  contains w (h ++ t) = false -> startswith w t = false.
Proof.
  induction h as [|c h IH]; cbn [app]; intro H.
  - destruct t; cbn [contains] in H; now apply orb_false_iff in H as [H _].
  - cbn [contains] in H. apply orb_false_iff in H as [_ H]. auto.
Qed.

Lemma startswith_app_l (w h t : str) :
  length w <= length h -> startswith w (h ++ t) = startswith w h.
Proof.
  revert h; induction w as [|x w IH]; intros h Hl; [reflexivity|].
  destruct h as [|y h]; [cbn [length] in Hl; lia|].
  cbn [app startswith]. rewrite IH; [reflexivity|]. cbn [length] in Hl. lia.
Qed.

(** The closing line of a header block is the first newline followed by
    three dashes: inside a block without one, no position starts one, also
    not together with the closing line itself. *)
Lemma closing_first (h1 h2 rest : str) :
  contains (nl :: L "---") (h1 ++ h2) = false -> h2 <> [] ->
  startswith (nl :: L "---") (h2 ++ nl :: L "---" ++ rest) = false.
Proof.
  intros H Hne. apply contains_suffix in H.
  change (L "---") with ["-"; "-"; "-"]%char in *.
  destruct h2 as [|c1 [|c2 [|c3 [|c4 h2]]]]; [congruence| | | |].
  - cbn [app startswith]. destruct (Ascii.eqb nl c1); [|reflexivity].
    reflexivity.
  - cbn [app startswith]. destruct (Ascii.eqb nl c1); [|reflexivity].
    destruct (Ascii.eqb "-" c2); reflexivity.
  - cbn [app startswith]. destruct (Ascii.eqb nl c1); [|reflexivity].
    destruct (Ascii.eqb "-" c2); [|reflexivity].
    destruct (Ascii.eqb "-" c3); reflexivity.
  - rewrite startswith_app_l; [exact H|]. cbn [length]. lia.
Qed.

Lemma header_block_found {A} (G : str -> option str) (h rest : str)
    (K : option str -> option ascii -> str -> option A) (a : A) (prev : option ascii) :
  contains (nl :: L "---") h = false ->
  K (G (nl :: L "---" ++ rest)) (Some "-"%char) rest = Some a ->
  rep_lazy dot_all 0 None prev (h ++ nl :: L "---" ++ rest)
    (fun pv s => m (Cat (ch nl) (lit "---")) (G s) pv s K) = Some a.
Proof.
  intros Hc HK. apply rep_lazy_first.
  - clear. induction h; [reflexivity|assumption].
  - intros h1 h2 -> Hne. pose proof (closing_first h1 h2 rest Hc Hne) as S.
    cbn [m ch]. destruct (h2 ++ nl :: L "---" ++ rest) as [|c s]; [reflexivity|].
    cbn [startswith] in S. destruct (Ascii.eqb nl c); [|reflexivity].
    cbn [andb] in S. rewrite m_lit. now rewrite S.
  - cbn [m ch]. rewrite Ascii.eqb_refl, m_lit. exact HK.
Qed.

Lemma header_block_missing {A} (G : str -> option str) (s : str)
    (K : option str -> option ascii -> str -> option A) (prev : option ascii) :
  contains (nl :: L "---") s = false ->
  rep_lazy dot_all 0 None prev s
    (fun pv t => m (Cat (ch nl) (lit "---")) (G t) pv t K) = None.
Proof.
  intro Hc. apply rep_lazy_none. intros h t ->.
  apply contains_suffix in Hc. cbn [m ch].
  destruct t as [|c t]; [reflexivity|].
  cbn [startswith] in Hc. destruct (Ascii.eqb nl c); [|reflexivity].
  cbn [andb] in Hc. rewrite m_lit. now rewrite Hc.
Qed.

Lemma frontmatter_re_open (content : str) :
  re_match frontmatter_re content =
  if startswith (L "---" ++ [nl]) content then
    rep_lazy dot_all 0 None (Some nl) (skipn 4 content)
      (fun pv s =>
         m (Cat (ch nl) (lit "---"))
           (Some (firstn (length (skipn 4 content) - length s) (skipn 4 content)))
           pv s (fun g _ s' => Some (length content - length s', g)))
  else None.
Proof.
  unfold re_match, match_at, frontmatter_re. cbn [cats m at_bol].
  rewrite m_lit, startswith_split.
  destruct (startswith (L "---") content) eqn:E; [|reflexivity].
  apply startswith_app in E as (b & ->).
  change (skipn (length (L "---")) (L "---" ++ b)) with b.
  destruct b as [|c b]; [reflexivity|].
  cbn [andb startswith ch m]. change (skipn 4 (L "---" ++ c :: b)) with b.
  destruct (Ascii.eqb_spec nl c) as [<-|N]; reflexivity.
Qed.

Lemma body_re_open (content : str) :
  re_match body_re content =
  if startswith (L "---" ++ [nl]) content then
    rep_lazy dot_all 0 None (Some nl) (skipn 4 content)
      (fun pv s =>
         m (Cat (ch nl) (lit "---")) None pv s
           (fun g p s1 =>
              m (Cat (Opt (ch nl)) (Grp (star dot_all))) g p s1
                (fun g _ s' => Some (length content - length s', g))))
  else None.
Proof.
  unfold re_match, match_at, body_re. cbn [cats m at_bol].
  rewrite m_lit, startswith_split.
  destruct (startswith (L "---") content) eqn:E; [|reflexivity].
  apply startswith_app in E as (b & ->).
  change (skipn (length (L "---")) (L "---" ++ b)) with b.
  destruct b as [|c b]; [reflexivity|].
  cbn [andb startswith ch m]. change (skipn 4 (L "---" ++ c :: b)) with b.
  destruct (Ascii.eqb_spec nl c) as [<-|N]; reflexivity.
Qed.

(** X1: when the text does not open with three dashes and a newline, or no
    later line opens with three dashes, no header is read: the decoder is
    not consulted, the header is empty and the body is the whole text. *)
Theorem header_not_found (yaml_safe_load : str -> option header) (content : str) :
  startswith (L "---" ++ [nl]) content = false
  \/ contains (nl :: L "---") (skipn 4 content) = false ->
  extract_frontmatter yaml_safe_load content = []
  /\ extract_body content = content.
Proof.
  intro H.
  assert (F : re_match frontmatter_re content = None).
  { rewrite frontmatter_re_open. destruct (startswith _ content); [|reflexivity].
    destruct H as [H|H]; [discriminate|].
    now apply (header_block_missing
                 (fun s => Some (firstn (length (skipn 4 content) - length s)
                                        (skipn 4 content)))). }
  assert (B : re_match body_re content = None).
  { rewrite body_re_open. destruct (startswith _ content); [|reflexivity].
    destruct H as [H|H]; [discriminate|].
    now apply (header_block_missing (fun _ => None)). }
  unfold extract_frontmatter, extract_body. rewrite F, B.
  split; [now destruct (negb _)|reflexivity].
Qed.

Lemma header_not_found_witness :
  extract_frontmatter (fun _ => Some [(L "name", L "x")])
    (L "---" ++ nl :: L "---" ++ nl :: L "# Notes") = []
  /\ extract_body (L "---" ++ nl :: L "---" ++ nl :: L "# Notes")
     = L "---" ++ nl :: L "---" ++ nl :: L "# Notes".
Proof.
  apply (header_not_found (fun _ => Some [(L "name", L "x")])
           (L "---" ++ nl :: L "---" ++ nl :: L "# Notes")).
  right. vm_compute. reflexivity.
Defined.

(** X2: a text made of three dashes, a header block in which no line opens
    with three dashes, a line that opens with three dashes, and the rest,
    is taken apart again: the decoder is given exactly the block, and the
    body is the rest without the newline that ends the closing line. *)
Theorem header_and_body_recovered
    (yaml_safe_load : str -> option header) (h rest : str) :
  contains (nl :: L "---") h = false ->
  extract_frontmatter yaml_safe_load (L "---" ++ nl :: h ++ nl :: L "---" ++ rest)
  = match yaml_safe_load h with Some d => d | None => [] end
  /\ extract_body (L "---" ++ nl :: h ++ nl :: L "---" ++ rest)
     = match rest with
       | c :: b => if Ascii.eqb c nl then b else rest
       | [] => []
       end.
Proof.
  intro Hc. split.
  - unfold extract_frontmatter.
    change (startswith (L "---") (L "---" ++ nl :: h ++ nl :: L "---" ++ rest)) with true.
    cbn [negb]. rewrite frontmatter_re_open.
    change (startswith (L "---" ++ [nl]) (L "---" ++ nl :: h ++ nl :: L "---" ++ rest))
      with true.
    change (skipn 4 (L "---" ++ nl :: h ++ nl :: L "---" ++ rest))
      with (h ++ nl :: L "---" ++ rest).
    pose proof (fun K a =>
                  @header_block_found (nat * option str)
                    (fun s => Some (firstn (length (h ++ nl :: L "---" ++ rest) - length s)
                                           (h ++ nl :: L "---" ++ rest)))
                    h rest K a (Some nl) Hc) as F.
    cbv beta in F. erewrite F; [|reflexivity].
    replace (length (h ++ nl :: L "---" ++ rest) - length (nl :: L "---" ++ rest))
      with (length h) by (rewrite length_app; lia).
    rewrite firstn_app, Nat.sub_diag, firstn_all. cbn [firstn]. rewrite app_nil_r.
    reflexivity.
  - unfold extract_body. rewrite body_re_open.
    change (startswith (L "---" ++ [nl]) (L "---" ++ nl :: h ++ nl :: L "---" ++ rest))
      with true.
    change (skipn 4 (L "---" ++ nl :: h ++ nl :: L "---" ++ rest))
      with (h ++ nl :: L "---" ++ rest).
    set (n := length (L "---" ++ nl :: h ++ nl :: L "---" ++ rest)).
    assert (G : forall g p s,
               m (Grp (star dot_all)) g p s
                 (fun g0 _ s' => Some (n - length s', g0)) = Some (n, Some s)).
    { intros g p s. unfold star. cbn [m].
      apply rep_greedy_all.
      - clear. induction s; [reflexivity|assumption].
      - lia.
      - cbn [length]. rewrite !Nat.sub_0_r, firstn_all. reflexivity. }
    unfold star in G. cbn [m] in G.
    pose proof (fun K a =>
                  @header_block_found (nat * option str) (fun _ => None) h rest K a (Some nl) Hc) as F.
    cbv beta in F.
    destruct rest as [|c b].
    + rewrite (F _ (n, Some [])); [reflexivity|]. unfold star. cbn [m ch]. apply (G None).
    + destruct (Ascii.eqb_spec c nl) as [->|N].
      * rewrite (F _ (n, Some b)); [reflexivity|].
        unfold star. cbn [m ch]. rewrite Ascii.eqb_refl. rewrite (G None). reflexivity.
      * rewrite (F _ (n, Some (c :: b))); [reflexivity|].
        unfold star. cbn [m ch].
        destruct (Ascii.eqb_spec nl c) as [E|_]; [congruence|]. apply (G None).
Qed.

Lemma header_and_body_recovered_witness :
  extract_frontmatter bare_pdf_yaml
    (L "---" ++ nl :: join [nl] (map L bare_pdf_header) ++ nl :: L "---"
     ++ nl :: L "# PDF filler")
  = [ (L "name", L "pdf-filler"); (L "description", L "Fills pdf forms") ]
  /\ extract_body
       (L "---" ++ nl :: join [nl] (map L bare_pdf_header) ++ nl :: L "---"
        ++ nl :: L "# PDF filler")
     = L "# PDF filler".
Proof.
  apply (header_and_body_recovered bare_pdf_yaml
           (join [nl] (map L bare_pdf_header)) (nl :: L "# PDF filler")).
  vm_compute. reflexivity.
Defined.

(** ** Headings and scenarios *)

(** X3: every heading that [extract_headings] reports is a non-empty piece
    of one line: it holds no newline. *)
Theorem extract_headings_single_line (content : str) :
  Forall (fun h => h <> [] /\ ~ In nl h) (extract_headings content).
Proof.
  unfold extract_headings, re_findall. apply findall_aux_forall.
  intros prev s n g H. apply match_at_sound in H as (w & s' & -> & -> & D).
  unfold heading_re in D. cbn [cats den] in D.
  destruct D as (w1 & w2 & g1 & _ & _ & w3 & w4 & g2 & _ & _ &
                 w5 & w6 & g3 & _ & _ & w7 & w8 & g4 & _ & ((g5 & D) & ->) & _ & ->).
  cbn [found]. unfold plus in D. cbn [den] in D. destruct D as (Hd & Hl & _).
  split.
  - intros ->. cbn [length] in Hl. lia.
  - intro Hin. rewrite Forall_forall in Hd. apply Hd in Hin.
    unfold dot, not_c in Hin. now rewrite Ascii.eqb_refl in Hin.
Qed.

Lemma search_chr (p : ascii -> bool) (s : str) :
  forall prev, search_from (Chr p) prev s = existsb p s.
Proof.
  induction s as [|c s IH]; intros prev; [reflexivity|].
  cbn [search_from existsb]. unfold match_at. cbn [m].
  destruct (p c); [reflexivity|]. apply IH.
Qed.


Lemma heading_scenario_in (h sc : str) :
  In sc (heading_scenario h) ->
  sc = rstrip (L ":") (strip h) /\ 5 < length sc < 50 /\ forallb plain_c h = true.
Proof.
  unfold heading_scenario. cbv zeta.
  destruct (existsb _ skip_patterns); [intros []|].
  destruct (re_search code_like h) eqn:C; [intros []|].
  destruct (existsb _ workflow_keywords); [|intros []].
  destruct (_ && _) eqn:E; [|intros []].
  intros [<-|[]]. apply andb_true_iff in E as [E1 E2].
  apply Nat.ltb_lt in E1, E2. repeat split; try assumption.
  unfold re_search, code_like in C. rewrite search_chr in C.
  clear -C. induction h as [|c h IH]; [reflexivity|].
  cbn [existsb] in C. apply orb_false_iff in C as [C1 C2].
  cbn [forallb]. unfold plain_c at 1. rewrite C1. cbn [negb andb]. now apply IH.
Qed.

Lemma get_in_values (key v : str) (h : header) :
  get key h = Some v -> In v (map snd h).
Proof.
  induction h as [|[k x] h IH]; [discriminate|].
  cbn [get map snd]. destruct (str_eqb k key).
  - intro H. injection H as ->. now left.
  - intro H. right. now apply IH.
Qed.

Lemma canned_scenario (verb sc : str) :
  get verb verb_to_scenario = Some sc ->
  In sc (map snd verb_to_scenario) /\ 5 < length sc < 50 /\ forallb plain_c sc = true.
Proof.
  intro H. apply get_in_values in H. split; [exact H|].
  assert (F : forallb (fun x => (5 <? length x) && (length x <? 50) && forallb plain_c x)
                (map snd verb_to_scenario) = true) by (vm_compute; reflexivity).
  rewrite forallb_forall in F. apply F in H.
  apply andb_true_iff in H as [H H3]. apply andb_true_iff in H as [H1 H2].
  apply Nat.ltb_lt in H1, H2. auto.
Qed.

Lemma estimate_scenarios_in
    (set_to_list : list str -> list str) (hs : list str) (body sc : str) :
  In sc (estimate_scenarios set_to_list hs body) ->
  5 < length sc < 50
  /\ forallb plain_c sc = true
  /\ ((exists h, In h hs /\ sc = rstrip (L ":") (strip h))
      \/ In sc (map snd verb_to_scenario)).
Proof.
  unfold estimate_scenarios. cbv zeta.
  intros Hin. apply in_firstn in Hin.
  assert (Hh : forall sc, In sc (flat_map heading_scenario hs) ->
                 5 < length sc < 50 /\ forallb plain_c sc = true
                 /\ ((exists h, In h hs /\ sc = rstrip (L ":") (strip h))
                     \/ In sc (map snd verb_to_scenario))).
  { intros x Hx. apply in_flat_map in Hx as (h & Hh & Hx).
    apply heading_scenario_in in Hx as (-> & Hl & Hp).
    split; [exact Hl|]. split; [|left; eauto].
    unfold rstrip. apply kept_rstrip_p. apply kept_strip. exact Hp. }
  destruct (_ <? 3); [|now apply Hh].
  apply in_app_iff in Hin as [Hin|Hin]; [now apply Hh|].
  apply in_flat_map in Hin as (verb & _ & Hin).
  destruct (get verb verb_to_scenario) as [x|] eqn:G; [|destruct Hin].
  destruct Hin as [<-|[]]. apply canned_scenario in G as (G1 & G2 & G3).
  repeat split; try tauto; lia.
Qed.

(** X4: [estimate_scenarios] answers with at most five scenarios; each is 6
    to 49 characters long and free of code-like characters (brackets,
    quotes, the equals sign, angle brackets), and is either a heading with
    its surrounding white space and trailing colons removed or one of the
    ten fixed phrases, whatever the order in which the set of stems is
    iterated. *)
Theorem estimate_scenarios_bounds
    (set_to_list : list str -> list str) (hs : list str) (body : str) :
  length (estimate_scenarios set_to_list hs body) <= 5
  /\ forall sc, In sc (estimate_scenarios set_to_list hs body) ->
       5 < length sc < 50
       /\ forallb plain_c sc = true
       /\ ((exists h, In h hs /\ sc = rstrip (L ":") (strip h))
           \/ In sc (map snd verb_to_scenario)).
Proof.
  split.
  - unfold estimate_scenarios. cbv zeta. apply firstn_le_length.
  - intros sc Hin. pose proof (estimate_scenarios_in _ _ _ _ Hin) as (H1 & H2 & H3).
    repeat split; try assumption; lia.
Qed.





(** ** Searching, spelled out *)

Lemma rep_greedy_exact {A} (p : ascii -> bool) (k : option ascii -> str -> option A)
    (a : A) (rest : str) :
  forall d prev lo,
    forallb p d = true -> lo <= length d ->
    match rest with c :: _ => p c = false | [] => True end ->
    k (lastp d prev) rest = Some a ->
    rep_greedy p lo None prev (d ++ rest) k = Some a.
Proof.
  induction d as [|c d IH]; intros prev lo Hp Hlo Hr Hk.
  - cbn [length] in Hlo. assert (lo = 0) by lia. subst lo.
    cbn [app lastp fold_left] in *. destruct rest as [|c r]; cbn [rep_greedy].
    + exact Hk.
    + rewrite Hr. cbn [andb Nat.eqb]. exact Hk.
  - cbn [forallb] in Hp. apply andb_true_iff in Hp as [Hc Hp].
    cbn [app rep_greedy]. rewrite Hc. cbn [hi_open andb hi_pred].
    rewrite (IH (Some c) (pred lo) Hp); [reflexivity| |exact Hr|exact Hk].
    cbn [length] in Hlo. lia.
Qed.

Lemma search_from_here (r : re) (prev : option ascii) (s : str) :
  is_some (match_at r prev s) = true -> search_from r prev s = true.
Proof.
  intro H. destruct s; cbn [search_from]; destruct (match_at r prev _);
    try reflexivity; discriminate.
Qed.

Lemma search_from_app (r : re) (s : str) :
  forall x prev,
    search_from r (lastp x prev) s = true -> search_from r prev (x ++ s) = true.
Proof.
  induction x as [|c x IH]; intros prev H; [exact H|].
  cbn [app search_from]. destruct (match_at r prev (c :: x ++ s)); [reflexivity|].
  apply IH. exact H.
Qed.

Lemma search_from_inv (r : re) (s : str) :
  forall prev,
    search_from r prev s = true ->
    exists x t n g, s = x ++ t /\ match_at r (lastp x prev) t = Some (n, g).
Proof.
  induction s as [|c s IH]; intros prev H; cbn [search_from] in H.
  - destruct (match_at r prev []) as [[n g]|] eqn:E; [|discriminate].
    now exists [], [], n, g.
  - destruct (match_at r prev (c :: s)) as [[n g]|] eqn:E.
    + now exists [], (c :: s), n, g.
    + apply IH in H as (x & t & n & g & -> & H).
      now exists (c :: x), t, n, g.
Qed.

Lemma search_alt_l (r1 r2 : re) (s : str) :
  forall prev, search_from r1 prev s = true -> search_from (Alt r1 r2) prev s = true.
Proof.
  assert (M : forall prev t, is_some (match_at r1 prev t) = true ->
                             is_some (match_at (Alt r1 r2) prev t) = true).
  { intros prev t. unfold match_at. cbn [m].
    destruct (m r1 None prev t _); [reflexivity|discriminate]. }
  induction s as [|c s IH]; intros prev H; cbn [search_from] in *.
  - specialize (M prev []). destruct (match_at r1 prev []); [|discriminate].
    destruct (match_at (Alt r1 r2) prev []); [reflexivity|]. now specialize (M eq_refl).
  - specialize (M prev (c :: s)).
    destruct (match_at (Alt r1 r2) prev (c :: s)); [reflexivity|].
    destruct (match_at r1 prev (c :: s)); [now specialize (M eq_refl)|]. now apply IH.
Qed.

Lemma contains_char (c : ascii) (s : str) : contains [c] s = true <-> In c s.
Proof.
  induction s as [|y s IH]; cbn [contains startswith In].
  - split; [discriminate|intros []].
  - rewrite orb_true_iff, IH, andb_true_r. split.
    + intros [H|H]; [left; symmetry; now apply Ascii.eqb_eq|now right].
    + intros [->|H]; [left; apply Ascii.eqb_refl|now right].
Qed.

(** An enumerated scenario: digits between round brackets. *)
Lemma enum_re_search (s : str) :
  re_search enum_re s = true
  <-> exists x d y, s = x ++ L "(" ++ d ++ L ")" ++ y
                    /\ d <> [] /\ forallb is_digit d = true.
Proof.
  split.
  - intro H. apply search_from_inv in H as (x & t & n & g & -> & H).
    apply match_at_sound in H as (w & y & -> & _ & D).
    unfold enum_re, plus in D. cbn [cats den] in D.
    destruct D as (w1 & w2 & g1 & -> & ((c1 & -> & E1) & _) &
                   w3 & w4 & g2 & -> & (Hd & Hl & _) & (c2 & -> & E2) & _).
    apply Ascii.eqb_eq in E1, E2. subst c1 c2.
    exists x, w3, y. split; [|split].
    + cbn [app L list_ascii_of_string]. rewrite <- !app_assoc. reflexivity.
    + intros ->. cbn [length] in Hl. lia.
    + apply forallb_forall. now rewrite Forall_forall in Hd.
  - intros (x & d & y & -> & Hne & Hd). unfold re_search.
    apply search_from_app, search_from_here.
    { unfold match_at, enum_re, plus. cbn [cats m ch app L list_ascii_of_string].
      rewrite Ascii.eqb_refl.
      erewrite (rep_greedy_exact is_digit); [reflexivity|exact Hd| |reflexivity|].
      - destruct d; [congruence|cbn [length]; lia].
      - cbn [app]. rewrite Ascii.eqb_refl. reflexivity. }
Qed.

Lemma trigger_issue_words (s : str) :
  re_search trigger_issue_re s =
  existsb (fun w => contains w s)
    [L "use this skill when"; L "when claude needs"; L "use when"].
Proof.
  unfold re_search. apply search_from_words.
  clear. intros prev s. unfold match_at, trigger_issue_re.
  cbn [alts m existsb]. rewrite !m_lit.
  repeat match goal with
         | |- context [startswith ?a ?b] => destruct (startswith a b)
         end; reflexivity.
Qed.

(** ** The analyzer's issues, all at once *)

(** X6: a description is reported without any quality issue exactly when it
    is 50 to 1024 characters long, holds no angle bracket, contains one of
    the three trigger phrases in any case, holds digits between round
    brackets, and, when file types were detected, contains one of them in
    any case. *)
Theorem quality_checks_none (desc : str) (fts : list str) :
  quality_checks desc fts = []
  <-> 50 <= length desc <= 1024
      /\ ~ In "<"%char desc /\ ~ In ">"%char desc
      /\ (exists w, In w [L "use this skill when"; L "when claude needs"; L "use when"]
                    /\ contains w (lower desc) = true)
      /\ (exists x d y, desc = x ++ L "(" ++ d ++ L ")" ++ y
                        /\ d <> [] /\ forallb is_digit d = true)
      /\ (fts = [] \/ exists ext, In ext fts /\ contains ext (lower desc) = true).
Proof.
  unfold quality_checks. rewrite trigger_issue_words.
  rewrite <- enum_re_search, <- !contains_char.
  change [("<")%char] with (L "<"). change [(">")%char] with (L ">").
  rewrite <- existsb_exists.
  assert (Hf : (fts = [] \/ exists ext, In ext fts /\ contains ext (lower desc) = true)
               <-> (if is_nil fts || negb (existsb (fun ext => contains ext (lower desc)) fts)
                    then if negb (is_nil fts)
                         then [L "File types " ++ repr_list fts ++ L " not in description"]
                         else []
                    else []) = []).
  { rewrite <- existsb_exists. destruct fts as [|e l].
    - cbn [is_nil orb negb]. tauto.
    - cbn [is_nil orb negb]. destruct (existsb _ (e :: l)); cbn [negb].
      + split; auto.
      + split; [intros [H|H]; discriminate|discriminate]. }
  rewrite Hf. clear Hf.
  destruct (Nat.ltb_spec (length desc) 50) as [H1|H1];
    [split; [discriminate|intros ((H & _) & _); lia]|].
  destruct (Nat.ltb_spec 1024 (length desc)) as [H2|H2];
    [split; [discriminate|intros ((_ & H) & _); lia]|].
  destruct (contains (L "<") desc);
    [split; [discriminate|intros (_ & H & _); now elim H]|].
  destruct (contains (L ">") desc);
    [split; [discriminate|intros (_ & _ & H & _); now elim H]|].
  destruct (existsb _ [_; _; _]);
    [|split; [discriminate|intros (_ & _ & _ & H & _); discriminate]].
  destruct (re_search enum_re desc);
    [|split; [discriminate|intros (_ & _ & _ & _ & H & _); discriminate]].
  cbn [orb negb app]. split.
  - intro H. repeat split; auto; discriminate.
  - intros (_ & _ & _ & _ & _ & H). exact H.
Qed.

(** ** The advisor against the scorer *)

Lemma filter_none_all {A} (f : A -> bool) (l : list A) :
  filter (fun x => negb (f x)) l = [] -> filter f l = l.
Proof.
  induction l as [|x l IH]; [reflexivity|].
  cbn [filter]. destruct (f x); cbn [negb]; [|discriminate].
  intro H. f_equal. now apply IH.
Qed.

(** X7: a description for which the advisor has no suggestion scores at
    least 50 of the 100 points, and at least 65 when it holds no angle
    bracket. *)
Theorem no_suggestion_score (current generated : str) (a : Analysis) :
  suggest_improvements current generated a = [] ->
  50 <= score_description current a
  /\ (contains (L "<") current || contains (L ">") current = false ->
      65 <= score_description current a).
Proof.
  unfold suggest_improvements. cbv zeta. intro H.
  apply app_eq_nil in H as [Ht H]. apply app_eq_nil in H as [He H].
  apply app_eq_nil in H as [Hf H]. apply app_eq_nil in H as [Hs H].
  apply app_eq_nil in H as [Hl Hb].
  destruct (re_search advisor_trigger_re (lower current)) eqn:T; [|discriminate Ht].
  destruct (re_search enum_re current) eqn:E; [|discriminate He].
  destruct (Nat.ltb_spec (length current) 100) as [|L1]; [discriminate Hs|].
  destruct (Nat.ltb_spec 900 (length current)) as [|L2]; [discriminate Hl|].
  destruct (re_search body_reference_re (lower current)) eqn:B; [discriminate Hb|].
  assert (P1 : 5 <= length_points current).
  { unfold length_points.
    destruct (Nat.leb_spec 100 (length current)); [|lia].
    destruct (Nat.leb_spec (length current) 800); cbn [andb]; [lia|].
    destruct (Nat.leb_spec 50 (length current)); [|lia].
    destruct (Nat.leb_spec (length current) 1000); cbn [andb]; lia. }
  assert (P2 : trigger_points current = 20).
  { unfold trigger_points. unfold re_search in *.
    change score_trigger_re
      with (Alt advisor_trigger_re (lit "when claude needs")).
    now rewrite search_alt_l. }
  assert (P3 : 10 <= enum_points current).
  { apply enum_points_search in E. unfold enum_points in *. cbv zeta in *.
    destruct (3 <=? _); [lia|]. destruct (1 <=? _); lia. }
  assert (P4 : file_type_points current (file_types a) = 15).
  { unfold file_type_points. cbv zeta.
    destruct (file_types a) as [|e l]; [reflexivity|].
    cbn [is_nil negb] in *.
    destruct (filter (fun ext => negb (contains (L "." ++ ext) (lower current))) (e :: l))
      as [|x y] eqn:M; [|discriminate Hf].
    rewrite (filter_none_all _ _ M). reflexivity. }
  assert (Hne : is_nil current = false).
  { destruct current; [cbn [length] in L1; lia|reflexivity]. }
  unfold score_description. rewrite Hne, P2, P4. split; [lia|].
  intro Ha. unfold antipattern_points, has_antipattern. rewrite B, Ha.
  cbn [orb negb]. lia.
Qed.

Lemma no_suggestion_score_witness :
  50 <= score_description sound_description (only_file_types [L "pdf"]).
Proof.
  apply (no_suggestion_score sound_description [] (only_file_types [L "pdf"])).
  vm_compute. reflexivity.
Defined.

(** ** Skills without a readable header *)

(** X9: for a SKILL.md from which no header entry is read (no header, no
    closing line, a block that the decoder rejects, or an empty block) the
    skill is named after its folder and its description is empty and
    scores 0; the generated description scores at least 15, the advice is
    to replace, and the generated description is the one offered. *)
Theorem headerless_skill_report
    (yaml_safe_load : str -> option header) (set_to_list : list str -> list str)
    (dir : SkillDir) (content : str) :
  skill_md dir = Some content ->
  extract_frontmatter yaml_safe_load content = [] ->
  exists r,
    main yaml_safe_load set_to_list (Some dir) = Some r
    /\ rep_name r = dir_name dir
    /\ rep_current r = []
    /\ rep_current_score r = 0
    /\ 15 <= rep_generated_score r
    /\ rep_recommendation r = ReplaceWithGenerated
    /\ rep_best r = rep_generated r.
Proof.
  intros Hmd Hfm. unfold main.
  destruct (analyze_skill yaml_safe_load set_to_list dir) as [e|a] eqn:E.
  { unfold analyze_skill in E. rewrite Hmd in E. discriminate. }
  assert (Hv : forall v, In v (action_verbs a) -> In v ACTION_VERBS).
  { unfold analyze_skill in E. rewrite Hmd in E.
    injection E as <-. cbn [action_verbs]. apply find_action_verbs_vocabulary. }
  assert (Ht : forall e, In e (file_types a) ->
                         exists nm, In nm all_names /\ e = L nm).
  { unfold analyze_skill in E. rewrite Hmd in E.
    injection E as <-. cbn [file_types]. apply find_file_types_names. }
  assert (Hn : name a = dir_name dir /\ current_description a = []).
  { unfold analyze_skill in E. rewrite Hmd, Hfm in E.
    injection E as <-. split; reflexivity. }
  destruct Hn as [Hn Hd].
  pose proof (generated_scores a Hv Ht) as Hs.
  eexists. split; [reflexivity|].
  cbv beta iota zeta
    delta [rep_name rep_current rep_current_score rep_generated_score
           rep_recommendation rep_best rep_generated].
  rewrite Hd. change (score_description [] a) with 0.
  repeat split; try assumption.
  - change (80 <=? 0) with false. change (0 + 10) with 10. cbv iota.
    destruct (Nat.ltb_spec 10 (score_description (generate_optimized_description a) a));
      [reflexivity|lia].
  - destruct (Nat.ltb_spec 0 (score_description (generate_optimized_description a) a));
      [reflexivity|lia].
Qed.

Lemma headerless_skill_report_witness :
  exists r,
    main (fun _ => None) (fun l => l)
      (Some {| dir_name := L "notes"; skill_md := Some (L "# Notes");
               scripts_dir := false; references_dir := false;
               assets_dir := false |}) = Some r
    /\ rep_name r = L "notes"
    /\ rep_current r = []
    /\ rep_current_score r = 0
    /\ 15 <= rep_generated_score r
    /\ rep_recommendation r = ReplaceWithGenerated
    /\ rep_best r = rep_generated r.
Proof.
  apply (headerless_skill_report (fun _ => None) (fun l => l)
           {| dir_name := L "notes"; skill_md := Some (L "# Notes");
              scripts_dir := false; references_dir := false;
              assets_dir := false |} (L "# Notes")).
  - reflexivity.
  - vm_compute. reflexivity.
Defined.

(** ** The generated description of an analyzed skill, scored *)

Lemma analyzed_signals
    (yaml_safe_load : str -> option header) (set_to_list : list str -> list str)
    (skill_path : SkillDir) (a : Analysis) :
  analyze_skill yaml_safe_load set_to_list skill_path = inr a ->
  (forall v, In v (action_verbs a) -> In v ACTION_VERBS)
  /\ (forall e, In e (file_types a) -> exists nm, In nm all_names /\ e = L nm).
Proof.
  intro H. unfold analyze_skill in H.
  destruct (skill_md skill_path); [|discriminate].
  injection H as <-. cbn [action_verbs file_types]. split.
  - apply find_action_verbs_vocabulary.
  - apply find_file_types_names.
Qed.

Lemma first_type_points (a : Analysis) :
  (forall v, In v (action_verbs a) -> In v ACTION_VERBS) ->
  (forall e, In e (file_types a) -> exists nm, In nm all_names /\ e = L nm) ->
  file_type_points (generate_optimized_description a) (file_types a) = 15.
Proof.
  intros Hv Ht. unfold file_type_points. cbv zeta.
  pose proof (generated_keeps_first_type a Hv Ht) as K. pose proof Ht as T.
  revert K T. generalize (file_types a) as l. intros l K T.
  destruct l as [|e fts]; [reflexivity|]. cbn [is_nil negb filter].
  destruct (K e fts eq_refl) as (x & y & ->).
  assert (C : contains (L "." ++ e) (lower (x ++ (L "." ++ e) ++ y)) = true).
  { apply contains_app. exists (lower x), (lower y).
    unfold lower. rewrite !map_app. f_equal. f_equal.
    destruct (T e) as (nm & Hnm & ->); [now left|].
    change (map lower_c (L nm)) with (lower (L nm)).
    rewrite (names_lowercase nm Hnm). reflexivity. }
  rewrite C. reflexivity.
Qed.

(** X10: for every analyzed skill the generated description is not empty
    and scores at least 15; when file types were detected, it contains the
    first of them with its dot and earns the 15 points for file types. *)
Theorem analyzed_description_scores
    (yaml_safe_load : str -> option header) (set_to_list : list str -> list str)
    (skill_path : SkillDir) (a : Analysis) :
  analyze_skill yaml_safe_load set_to_list skill_path = inr a ->
  generate_optimized_description a <> []
  /\ 15 <= score_description (generate_optimized_description a) a
  /\ file_type_points (generate_optimized_description a) (file_types a) = 15
  /\ forall e fts,
       file_types a = e :: fts ->
       contains (L "." ++ e) (generate_optimized_description a) = true.
Proof.
  intro H. apply analyzed_signals in H as [Hv Ht].
  split; [apply generated_nonempty; assumption|].
  split; [exact (generated_scores a Hv Ht)|].
  split; [now apply first_type_points|].
  intros e fts E. apply contains_app.
  exact (generated_keeps_first_type a Hv Ht e fts E).
Qed.

Lemma analyzed_description_scores_witness :
  generate_optimized_description empty_pdf_analysis <> []
  /\ 15 <= score_description (generate_optimized_description empty_pdf_analysis)
             empty_pdf_analysis.
Proof.
  destruct (analyzed_description_scores empty_pdf_yaml (fun l => l) empty_pdf_dir
              empty_pdf_analysis) as (H1 & H2 & _).
  - vm_compute. reflexivity.
  - split; assumption.
Defined.

(** ** File types, as a set *)

Lemma sublists_sorted {A} (R : A -> A -> Prop) (l : list A) :
  StronglySorted R l -> forall r, In r (sublists l) -> StronglySorted R r.
Proof.
  induction 1 as [|x l Hs IH Hx]; intros r Hr; cbn [sublists] in Hr.
  - destruct Hr as [<-|[]]. constructor.
  - apply in_app_iff in Hr as [Hr|Hr]; [|now apply IH].
    apply in_map_iff in Hr as (r' & <- & Hr'). constructor; [now apply IH|].
    apply Forall_forall. intros y Hy. rewrite Forall_forall in Hx. apply Hx.
    now apply (sublists_in l r').
Qed.

Lemma sorted_strict (l : list str) :
  NoDup l -> StronglySorted (fun a b => str_le a b /\ a <> b) (sorted l).
Proof.
  intro Hn. apply sorted_NoDup in Hn. pose proof (sorted_le l) as Hs.
  induction Hs as [|x r Hs IH Hx]; [constructor|].
  inversion Hn as [|? ? Hnx Hnr]; subst. constructor; [now apply IH|].
  apply Forall_forall. intros y Hy. rewrite Forall_forall in Hx.
  split; [now apply Hx|]. intros ->. contradiction.
Qed.

(** X11: for a text in 7-bit ASCII, the answer of [find_file_types] is a
    set in ascending order: each entry is strictly below the next ones, so
    none occurs twice; each is one of the extensions of the pattern, in
    lower case; and the entries are all document and data formats, or all
    image formats, or all code and text formats, never a mixture. *)
Theorem find_file_types_invariant (content : str) :
  ascii_text content = true ->
  StronglySorted (fun a b => str_le a b /\ a <> b) (find_file_types content)
  /\ NoDup (find_file_types content)
  /\ (forall e, In e (find_file_types content) ->
                lower e = e /\ exists nm, In nm all_names /\ e = L nm)
  /\ (Forall (fun e => In e (map L primary_names)) (find_file_types content)
      \/ Forall (fun e => In e image_exts) (find_file_types content)
      \/ Forall (fun e => In e code_exts) (find_file_types content)).
Proof.
  intros _. pose proof (find_file_types_sets content) as H.
  assert (S : StronglySorted (fun a b => str_le a b /\ a <> b)
                (find_file_types content)).
  { unfold file_type_sets in H.
    apply in_app_iff in H as [H|H]; [|apply in_app_iff in H as [H|H]];
      (eapply sublists_sorted; [|exact H]); apply sorted_strict, dedup_NoDup. }
  split; [exact S|]. split.
  { eapply StronglySorted_NoDup; [|exact S]. intros x [_ Hx]. now apply Hx. }
  split.
  { intros e He. split; [now apply (find_file_types_lowercase content)|].
    now apply (find_file_types_names content). }
  unfold file_type_sets in H.
  assert (F : forall l, In (find_file_types content) (sublists (sorted (dedup l))) ->
                        Forall (fun e => In e l) (find_file_types content)).
  { intros l Hl. apply Forall_forall. intros e He.
    pose proof (sublists_in _ _ e Hl He) as Hv.
    apply (proj1 (sorted_in _ _)) in Hv. now apply (proj1 (dedup_in _ _)) in Hv. }
  apply in_app_iff in H as [H|H]; [|apply in_app_iff in H as [H|H]]; auto.
Qed.

Lemma find_file_types_invariant_witness :
  find_file_types (L "Fill report.pdf, data.XML and logo.png") = [L "pdf"; L "xml"]
  /\ NoDup (find_file_types (L "Fill report.pdf, data.XML and logo.png"))
  /\ (Forall (fun e => In e (map L primary_names))
             (find_file_types (L "Fill report.pdf, data.XML and logo.png"))
      \/ Forall (fun e => In e image_exts)
                (find_file_types (L "Fill report.pdf, data.XML and logo.png"))
      \/ Forall (fun e => In e code_exts)
                (find_file_types (L "Fill report.pdf, data.XML and logo.png"))).
Proof.
  split; [vm_compute; reflexivity|].
  destruct (find_file_types_invariant
              (L "Fill report.pdf, data.XML and logo.png") eq_refl)
    as (_ & H2 & _ & H4).
  split; assumption.
Defined.

(** ** The scenario clause *)

Lemma join_head (sep x : str) (l : list str) :
  exists y, join sep (x :: l) = x ++ y.
Proof.
  destruct l as [|z l]; cbn [join]; [exists []; now rewrite app_nil_r|eauto].
Qed.

Lemma startswith_join (p sep x : str) (l : list str) :
  startswith p x = true -> startswith p (join sep (x :: l)) = true.
Proof.
  intro H. destruct (join_head sep x l) as (y & ->).
  apply startswith_app in H as (b & ->). apply startswith_app.
  exists (b ++ y). now rewrite app_assoc.
Qed.

Lemma join_length (sep : str) (n : nat) (l : list str) :
  Forall (fun x => length x <= n) l -> l <> [] ->
  length (join sep l) + length sep <= length l * (n + length sep).
Proof.
  induction 1 as [|x l Hx Hl IH]; [intro H; now elim H|]. intros _.
  destruct l as [|y l].
  - cbn [join length]. lia.
  - change (join sep (x :: y :: l)) with (x ++ sep ++ join sep (y :: l)).
    rewrite !length_app. specialize (IH ltac:(discriminate)).
    cbn [length] in *. lia.
Qed.

Lemma enumerate_from_in {A} (l : list A) :
  forall k i x, In (i, x) (enumerate_from k l) -> k <= i < k + length l.
Proof.
  induction l as [|y l IH]; intros k i x H; cbn [enumerate_from] in H; [destruct H|].
  destruct H as [H|H].
  - injection H as <- <-. cbn [length]. lia.
  - apply IH in H. cbn [length]. lia.
Qed.

Lemma enumerate_from_length {A} (l : list A) :
  forall k, length (enumerate_from k l) = length l.
Proof. induction l as [|y l IH]; intros k; cbn; [reflexivity|now rewrite IH]. Qed.

Lemma rstrip_p_length (p : ascii -> bool) (s : str) : length (rstrip_p p s) <= length s.
Proof.
  unfold rstrip_p. rewrite length_rev, <- (length_rev s).
  generalize (rev s). clear. intro l. induction l as [|c l IH]; [reflexivity|].
  cbn [dropwhile]. destruct (p c); cbn [length]; lia.
Qed.

Lemma generate_scenarios_head (a : Analysis) :
  startswith (L "(1) ") (generate_scenarios a) = true.
Proof.
  unfold generate_scenarios. cbv zeta.
  destruct (estimated_scenarios a) as [|s1 scs].
  - destruct (action_verbs a) as [|v1 vs]; [reflexivity|].
    cbn [is_nil negb firstn enumerate_from map].
    apply startswith_join. reflexivity.
  - cbn [is_nil negb firstn enumerate_from map].
    apply startswith_join. reflexivity.
Qed.

(** X12: the scenario clause always opens with the first enumerated item,
    so that it holds digits between round brackets whatever the analysis
    is. *)
Theorem generate_scenarios_enumerated (a : Analysis) :
  startswith (L "(1) ") (generate_scenarios a) = true
  /\ re_search enum_re (generate_scenarios a) = true.
Proof.
  pose proof (generate_scenarios_head a) as H.
  split; [exact H|]. apply startswith_app in H as (b & ->).
  apply enum_re_search. exists [], (L "1"), (L " " ++ b).
  repeat split; [discriminate].
Qed.

(** X13: when the analysis has scenarios, the clause lists at most four of
    them, each cut to at most 50 characters, so that the clause has at
    most 222 characters whatever the scenarios are. *)
Theorem scenario_clause_bounded (a : Analysis) :
  estimated_scenarios a <> [] ->
  length (generate_scenarios a) <= 222.
Proof.
  intro Hne. unfold generate_scenarios. cbv zeta.
  destruct (estimated_scenarios a) as [|s1 scs] eqn:E; [congruence|].
  cbn [is_nil negb]. rewrite <- E. clear Hne.
  set (items := map _ (enumerate_from 1 (firstn 4 (estimated_scenarios a)))).
  assert (Hl : length items <= 4 /\ items <> []).
  { unfold items. rewrite length_map, enumerate_from_length. split.
    - apply firstn_le_length.
    - rewrite E. discriminate. }
  assert (Hf : Forall (fun x => length x <= 54) items).
  { unfold items. apply Forall_forall. intros x Hx.
    apply in_map_iff in Hx as ([i sc] & <- & Hi).
    apply enumerate_from_in in Hi.
    assert (Hk : length (firstn 4 (estimated_scenarios a)) <= 4)
      by apply firstn_le_length.
    assert (Hd : length (str_of_nat i) = 1).
    { destruct i as [|[|[|[|[|i]]]]]; try reflexivity; lia. }
    rewrite !length_app, Hd. change (length (L "(")) with 1.
    change (length (L ") ")) with 2.
    destruct (Nat.ltb_spec 50 (length (rstrip (L ".") (strip sc)))).
    - rewrite length_app, length_firstn. change (length (L "...")) with 3. lia.
    - lia. }
  destruct Hl as [Hl Hn].
  pose proof (join_length (L ", ") 54 items Hf Hn) as J.
  change (length (L ", ")) with 2 in J.
  change (@length (list ascii) items) with (@length str items) in Hl. lia.
Qed.

Lemma scenario_clause_bounded_witness :
  length (generate_scenarios plain_analysis) <= 222.
Proof. apply (scenario_clause_bounded plain_analysis). discriminate. Defined.

(** ** Lines of 70 characters *)

Lemma slice_shift (w i j : nat) (s : str) :
  slice (w + i) (w + j) s = slice i j (skipn w s).
Proof.
  unfold slice. rewrite skipn_skipn. f_equal; [lia|f_equal; lia].
Qed.

Lemma chunks_concat (w : nat) :
  forall n s,
    length s <= n * w ->
    concat (map (fun i => slice i (i + w) s) (map (fun k => k * w) (seq 0 n))) = s.
Proof.
  induction n as [|n IH]; intros s Hs.
  - destruct s; [reflexivity|cbn [length] in Hs; lia].
  - cbn [seq map concat]. rewrite <- seq_shift, !map_map.
    rewrite (map_ext _ (fun k => slice (k * w) (k * w + w) (skipn w s))).
    + rewrite <- (map_map (fun k => k * w) (fun i => slice i (i + w) (skipn w s))).
      rewrite IH; [|rewrite length_skipn; lia].
      unfold slice. cbn [Nat.mul Nat.add skipn]. rewrite Nat.sub_0_r.
      apply firstn_skipn.
    + intro k. cbn [Nat.mul]. rewrite <- Nat.add_assoc. apply slice_shift.
Qed.

(** X14: the lines in which a description is printed lose nothing and
    repeat nothing: put one after the other they are the description; every
    line has 1 to 70 characters, and there are as many lines as the length
    of the description divided by 70, rounded up. *)
Theorem wrapped_lines (desc : str) :
  concat (wrapped desc) = desc
  /\ Forall (fun line => 1 <= length line <= 70) (wrapped desc)
  /\ length (wrapped desc) = (length desc + 69) / 70.
Proof.
  unfold wrapped, range_step.
  replace (length desc + 70 - 1) with (length desc + 69) by lia.
  set (n := (length desc + 69) / 70).
  assert (Hn : length desc <= n * 70 /\ n * 70 <= length desc + 69).
  { unfold n. pose proof (Nat.div_mod_eq (length desc + 69) 70).
    pose proof (Nat.mod_upper_bound (length desc + 69) 70 ltac:(discriminate)).
    lia. }
  split; [apply chunks_concat; lia|]. split.
  - apply Forall_forall. intros line Hl.
    apply in_map_iff in Hl as (i & <- & Hi).
    apply in_map_iff in Hi as (k & <- & Hk). apply in_seq in Hk.
    unfold slice. rewrite length_firstn, length_skipn. nia.
  - now rewrite !length_map, length_seq.
Qed.

(** ** The cleaning of the generated description *)

Lemma dropwhile_length {A} (p : A -> bool) (l : list A) :
  length (dropwhile p l) <= length l.
Proof.
  induction l as [|x l IH]; [reflexivity|].
  cbn [dropwhile]. destruct (p x); cbn [length]; lia.
Qed.

Lemma dropwhile_head {A} (p : A -> bool) (l : list A) (x : A) (r : list A) :
  dropwhile p l = x :: r -> p x = false.
Proof.
  induction l as [|y l IH]; [discriminate|].
  cbn [dropwhile]. destruct (p y) eqn:E; [exact IH|].
  intro H. injection H as <- <-. exact E.
Qed.

Lemma dropwhile_split {A} (p : A -> bool) (l : list A) :
  exists x, l = x ++ dropwhile p l.
Proof.
  induction l as [|y l (x & IH)]; [now exists []|].
  cbn [dropwhile]. destruct (p y); [|now exists []].
  exists (y :: x). cbn [app]. now f_equal.
Qed.

Lemma skipn_run {A} (p : A -> bool) (l : list A) :
  skipn (length l - length (dropwhile p l)) l = dropwhile p l.
Proof.
  induction l as [|x l IH]; [reflexivity|].
  cbn [dropwhile]. destruct (p x).
  - pose proof (dropwhile_length p l).
    cbn [length]. rewrite Nat.sub_succ_l by assumption. exact IH.
  - now rewrite Nat.sub_diag.
Qed.

Lemma rep_greedy_run {A} (p : ascii -> bool) (f : str -> A) :
  forall s lo prev,
    rep_greedy p lo None prev s (fun _ s' => Some (f s'))
    = if lo <=? length s - length (dropwhile p s)
      then Some (f (dropwhile p s)) else None.
Proof.
  induction s as [|c s IH]; intros lo prev.
  - cbn [rep_greedy dropwhile length Nat.sub]. now destruct lo.
  - cbn [rep_greedy dropwhile]. destruct (p c).
    + cbn [hi_open andb hi_pred]. rewrite IH.
      pose proof (dropwhile_length p s).
      cbn [length]. rewrite Nat.sub_succ_l by assumption.
      destruct (Nat.leb_spec (pred lo) (length s - length (dropwhile p s)));
        destruct (Nat.leb_spec lo (S (length s - length (dropwhile p s))));
        try reflexivity; try lia.
      destruct lo; [lia|reflexivity].
    + cbn [andb]. rewrite Nat.sub_diag. now destruct lo.
Qed.

Lemma spaces_re_run (prev : option ascii) (s : str) :
  match_at spaces_re prev s
  = if 1 <=? length s - length (dropwhile is_space s)
    then Some (length s - length (dropwhile is_space s), None) else None.
Proof.
  unfold match_at, spaces_re, plus. cbn [m].
  apply (rep_greedy_run is_space (fun s' => (length s - length s', @None str))).
Qed.

Lemma sub_aux_skip (r : re) (repl : str) (count : option nat) :
  forall s k prev,
    k <= length s ->
    sub_aux r repl count k prev s
    = sub_aux r repl count 0 (lastp (firstn k s) prev) (skipn k s).
Proof.
  induction s as [|c s IH]; intros k prev Hk.
  - cbn [length] in Hk. assert (k = 0) by lia. now subst k.
  - destruct k as [|k]; [reflexivity|].
    cbn [sub_aux firstn skipn]. rewrite IH; [reflexivity|].
    cbn [length] in Hk. lia.
Qed.

Lemma sub_spaces_prev (repl : str) (count : option nat) :
  forall s k prev prev',
    sub_aux spaces_re repl count k prev s = sub_aux spaces_re repl count k prev' s.
Proof.
  induction s as [|c s IH]; intros k prev prev'.
  - cbn [sub_aux]. now rewrite (spaces_re_run prev), (spaces_re_run prev').
  - cbn [sub_aux]. destruct k as [|k]; [|apply IH].
    rewrite (spaces_re_run prev), (spaces_re_run prev').
    destruct (count_open count); [|f_equal; apply IH].
    destruct (1 <=? _); [|f_equal; apply IH].
    destruct (length (c :: s) - length (dropwhile is_space (c :: s)));
      f_equal; try f_equal; apply IH.
Qed.

Lemma collapse_cons (c : ascii) (s : str) :
  collapse (c :: s)
  = if is_space c then " "%char :: collapse (dropwhile is_space s)
    else c :: collapse s.
Proof.
  unfold collapse, re_sub. cbn [sub_aux count_open].
  rewrite spaces_re_run. cbn [dropwhile]. destruct (is_space c).
  - pose proof (dropwhile_length is_space s) as Hl.
    cbn [length]. rewrite Nat.sub_succ_l by assumption.
    cbn [Nat.leb hi_pred]. rewrite sub_aux_skip by lia. rewrite skipn_run.
    cbn [L list_ascii_of_string app]. f_equal. apply sub_spaces_prev.
  - rewrite Nat.sub_diag. cbn [Nat.leb]. f_equal. apply sub_spaces_prev.
Qed.

Lemma collapse_single_spaced :
  forall n s,
    length s <= n ->
    single_spaced (collapse s) = true
    /\ (space_opt (hd_error (collapse s)) = true -> space_opt (hd_error s) = true).
Proof.
  induction n as [|n IH]; intros s Hn.
  - destruct s; [|cbn [length] in Hn; lia]. split; [reflexivity|auto].
  - destruct s as [|c s]; [split; [reflexivity|auto]|].
    cbn [length] in Hn. rewrite collapse_cons. destruct (is_space c) eqn:Ec.
    + pose proof (dropwhile_length is_space s) as Hl.
      destruct (IH (dropwhile is_space s) ltac:(lia)) as [H1 H2].
      split; [|intros _; exact Ec].
      cbn [single_spaced hd_error]. rewrite H1, andb_true_r.
      destruct (space_opt (hd_error (collapse (dropwhile is_space s)))) eqn:E;
        [|reflexivity].
      specialize (H2 eq_refl).
      destruct (dropwhile is_space s) as [|d r] eqn:D; [discriminate H2|].
      apply dropwhile_head in D. cbn [hd_error space_opt] in H2. congruence.
    + destruct (IH s ltac:(lia)) as [H1 _]. split.
      * cbn [single_spaced]. now rewrite Ec, H1.
      * cbn [hd_error space_opt]. congruence.
Qed.

Lemma single_spaced_suffix (x y : str) :
  single_spaced (x ++ y) = true -> single_spaced y = true.
Proof.
  induction x as [|c x IH]; [auto|]. cbn [app single_spaced].
  intro H. apply andb_true_iff in H as [_ H]. auto.
Qed.

Lemma single_spaced_prefix (x y : str) :
  single_spaced (x ++ y) = true -> single_spaced x = true.
Proof.
  induction x as [|c x IH]; [reflexivity|]. cbn [app single_spaced].
  intro H. apply andb_true_iff in H as [H1 H2]. rewrite (IH H2), andb_true_r.
  destruct x as [|d x]; [|exact H1].
  cbn [hd_error space_opt negb]. rewrite andb_true_r.
  destruct (is_space c) eqn:E; [|reflexivity]. cbn [negb orb] in *.
  now apply andb_true_iff in H1 as [H1 _].
Qed.

Lemma rstrip_p_split (p : ascii -> bool) (s : str) :
  exists y, s = rstrip_p p s ++ y.
Proof.
  unfold rstrip_p. destruct (dropwhile_split p (rev s)) as (x & E).
  exists (rev x). rewrite <- rev_app_distr, <- E. now rewrite rev_involutive.
Qed.

Lemma rstrip_p_last (p : ascii -> bool) (s : str) (d : ascii) :
  p d = false -> p (last (rstrip_p p s) d) = false.
Proof.
  intro Hd. unfold rstrip_p.
  destruct (dropwhile p (rev s)) as [|c r] eqn:E; [exact Hd|].
  apply dropwhile_head in E. cbn [rev]. now rewrite last_last.
Qed.

Lemma prefix_head (x y : str) :
  space_opt (hd_error x) = true -> space_opt (hd_error (x ++ y)) = true.
Proof. destruct x; [discriminate|auto]. Qed.

(** X15: in every generated description each white-space character is a
    single space with no white space after it, whatever white space the
    name and the headings hold; the description does not open with white
    space and does not end in a comma or a period. *)
Theorem generated_description_tidy (a : Analysis) :
  single_spaced (generate_optimized_description a) = true
  /\ space_opt (hd_error (generate_optimized_description a)) = false
  /\ mem_c (L ",.") (last (generate_optimized_description a) " "%char) = false.
Proof.
  rewrite generate_optimized_description_split. unfold post_process. cbv zeta.
  match goal with
  | |- context [re_sub spaces_re (L " ") None ?d] =>
      generalize d; intro d1
  end.
  change (re_sub spaces_re (L " ") None d1) with (collapse d1).
  destruct (collapse_single_spaced (length d1) d1 (le_n _)) as [H1 _].
  unfold strip, lstrip_p, rstrip.
  destruct (dropwhile_split is_space (collapse d1)) as (x0 & E0).
  set (t := dropwhile is_space (collapse d1)) in *.
  destruct (rstrip_p_split is_space t) as (y1 & E1).
  destruct (rstrip_p_split (mem_c (L ",.")) (rstrip_p is_space t)) as (y2 & E2).
  assert (St : single_spaced t = true).
  { rewrite E0 in H1. now apply single_spaced_suffix in H1. }
  assert (Ht : space_opt (hd_error t) = false).
  { unfold t. destruct (dropwhile is_space (collapse d1)) as [|c r] eqn:D;
      [reflexivity|].
    apply dropwhile_head in D. exact D. }
  split; [|split].
  - rewrite E1 in St. apply single_spaced_prefix in St.
    rewrite E2 in St. now apply single_spaced_prefix in St.
  - destruct (space_opt (hd_error (rstrip_p (mem_c (L ",.")) (rstrip_p is_space t))))
      eqn:E; [|reflexivity].
    apply (prefix_head _ y2) in E. rewrite <- E2 in E.
    apply (prefix_head _ y1) in E. rewrite <- E1 in E. congruence.
  - now apply rstrip_p_last.
Qed.

(** ** Phrases that the cleaning leaves in place *)

Lemma collapse_phrase (y : str) :
  forall w,
    single_spaced w = true -> is_space (last w " "%char) = false ->
    collapse (w ++ y) = w ++ collapse y.
Proof.
  induction w as [|c w IH]; intros Hs Hl; [discriminate Hl|].
  cbn [single_spaced] in Hs. apply andb_true_iff in Hs as [Hc Hs].
  cbn [app]. rewrite collapse_cons.
  destruct w as [|d w].
  - cbn [last] in Hl. rewrite Hl. reflexivity.
  - assert (Hl' : is_space (last (d :: w) " "%char) = false) by exact Hl.
    specialize (IH Hs Hl'). destruct (is_space c) eqn:Ec.
    + cbn [negb orb hd_error space_opt] in Hc.
      apply andb_true_iff in Hc as [Hc Hd]. apply Ascii.eqb_eq in Hc. subst c.
      apply negb_true_iff in Hd. cbn [app dropwhile]. rewrite Hd.
      f_equal. exact IH.
    + f_equal. exact IH.
Qed.

Lemma collapse_before (d : ascii) (z : str) :
  is_space d = false ->
  forall n x, length x <= n -> exists x', collapse (x ++ d :: z) = x' ++ collapse (d :: z).
Proof.
  intros Hd. induction n as [|n IH]; intros x Hn.
  - destruct x; [now exists []|cbn [length] in Hn; lia].
  - destruct x as [|c x]; [now exists []|]. cbn [length] in Hn.
    cbn [app]. rewrite collapse_cons. destruct (is_space c).
    + rewrite (dropwhile_app_stop is_space x z d Hd).
      pose proof (dropwhile_length is_space x) as Hl.
      destruct (IH (dropwhile is_space x) ltac:(lia)) as (x' & ->).
      now exists (" "%char :: x').
    + destruct (IH x ltac:(lia)) as (x' & ->). now exists (c :: x').
Qed.

Lemma rstrip_p_keeps (p : ascii -> bool) (w x y : str) :
  p (last w " "%char) = false -> w <> [] ->
  rstrip_p p (x ++ w ++ y) = x ++ w ++ rstrip_p p y.
Proof.
  intros Hl Hne. unfold rstrip_p.
  pose proof (split_last w " "%char Hne) as E. revert Hl E.
  generalize (last w " "%char) as l, (removelast w) as w0. intros l w0 Hl ->.
  replace (rev (x ++ (w0 ++ [l]) ++ y)) with (rev y ++ l :: rev (x ++ w0))
    by (rewrite !rev_app_distr; cbn [rev app]; rewrite <- !app_assoc; reflexivity).
  rewrite dropwhile_app_stop by exact Hl.
  rewrite rev_app_distr. cbn [rev]. rewrite rev_involutive.
  rewrite <- !app_assoc. reflexivity.
Qed.

Lemma phrase_kept (w : str) :
  phrase w = true ->
  forall x y, exists x' y',
    rstrip (L ",.") (strip (collapse (x ++ w ++ y))) = x' ++ w ++ y'.
Proof.
  unfold phrase. intros H x y.
  apply andb_true_iff in H as [H H4]. apply andb_true_iff in H as [H H3].
  apply andb_true_iff in H as [H1 H2].
  apply negb_true_iff in H2, H3, H4.
  destruct w as [|d w]; [discriminate H3|]. cbn [hd_error space_opt] in H2.
  cbn [app]. destruct (collapse_before d (w ++ y) H2 (length x) x (le_n _))
    as (x' & ->).
  change (d :: w ++ y) with ((d :: w) ++ y). rewrite (collapse_phrase y _ H1 H3).
  unfold strip, lstrip_p, rstrip. cbn [app].
  rewrite (dropwhile_app_stop is_space x' (w ++ collapse y) d H2).
  change (d :: w ++ collapse y) with ((d :: w) ++ collapse y).
  rewrite (rstrip_p_keeps is_space (d :: w)) by (auto; discriminate).
  rewrite (rstrip_p_keeps (mem_c (L ",.")) (d :: w)) by (auto; discriminate).
  eexists _, _. reflexivity.
Qed.

Lemma contains_lower (w s : str) :
  contains w s = true -> contains (lower w) (lower s) = true.
Proof.
  intro H. apply contains_app in H as (x & y & ->). apply contains_app.
  exists (lower x), (lower y). unfold lower. now rewrite !map_app.
Qed.

Lemma search_from_contains (r : re) (w : str) :
  (forall prev t, startswith w t = true -> is_some (match_at r prev t) = true) ->
  forall s prev, contains w s = true -> search_from r prev s = true.
Proof.
  intros H s. induction s as [|c s IH]; intros prev C; cbn [contains] in C.
  - rewrite orb_false_r in C. now apply search_from_here, H.
  - apply orb_true_iff in C as [C|C]; [now apply search_from_here, H|].
    cbn [search_from]. destruct (match_at r prev (c :: s)); [reflexivity|].
    now apply IH.
Qed.

Lemma catchall_found (s : str) :
  contains (L "or any other") s = true -> re_search catchall_re s = true.
Proof.
  apply search_from_contains. intros prev t H.
  unfold match_at, catchall_re. cbn [alts m]. rewrite m_lit, H. reflexivity.
Qed.

Lemma examples_hint_found (s : str) :
  contains (L "examples include") s = true -> re_search examples_hint_re s = true.
Proof.
  apply search_from_contains. intros prev t H.
  apply startswith_app in H as (b & ->).
  unfold match_at, examples_hint_re. cbn [alts cats m]. rewrite m_lit.
  reflexivity.
Qed.

(** What the generator answers when the filled template is within the
    limit. *)
Lemma generated_within_limit (a : Analysis) :
  length (filled_template a) <= MAX_DESCRIPTION_LENGTH ->
  generate_optimized_description a
  = rstrip (L ",.") (strip (collapse (filled_template a))).
Proof.
  intro H. rewrite generate_optimized_description_split. unfold post_process.
  cbv zeta. apply Nat.ltb_ge in H. rewrite H. cbv iota. rewrite H. reflexivity.
Qed.

Lemma occurs_here (w y : str) : exists x' y', w ++ y = x' ++ w ++ y'.
Proof. now exists [], y. Qed.

Lemma occurs_after (z t w : str) :
  (exists x' y', t = x' ++ w ++ y') -> exists x' y', z ++ t = x' ++ w ++ y'.
Proof. intros (x' & y' & ->). exists (z ++ x'), y'. now rewrite app_assoc. Qed.

Ltac find_phrase :=
  rewrite <- ?app_assoc;
  repeat first [apply occurs_here | apply occurs_after].

Lemma template_phrases (a : Analysis) :
  (exists x y, filled_template a = x ++ L "Use this skill when" ++ y)
  \/ (exists x y, filled_template a = x ++ L "Use when" ++ y).
Proof.
  unfold filled_template. cbv zeta.
  change (L "Use this skill when ") with (L "Use this skill when" ++ L " ").
  change (L "Use when users ask about ") with (L "Use when" ++ L " users ask about ").
  destruct (str_eqb _ (L "file_processor")); [left; find_phrase|].
  destruct (str_eqb _ (L "knowledge_reference")); [right; find_phrase|].
  destruct (str_eqb _ (L "workflow_automation")); left; find_phrase.
Qed.

Lemma template_items (a : Analysis) :
  classify_skill_type a = L "knowledge_reference"
  \/ ((exists x y, filled_template a = x ++ L "(1)" ++ y)
      /\ ((exists x y, filled_template a = x ++ L "or any other" ++ y)
          \/ (exists x y, filled_template a = x ++ L "(examples include" ++ y))).
Proof.
  pose proof (generate_scenarios_head a) as S.
  apply startswith_app in S as (b & S).
  unfold filled_template. cbv zeta. rewrite S. unfold generate_catchall.
  change (L "(1) ") with (L "(1)" ++ L " ").
  change (L "or any other ") with (L "or any other" ++ L " ").
  change (L "(examples include ") with (L "(examples include" ++ L " ").
  destruct (str_eqb _ (L "file_processor")).
  { right. split; [|left]; find_phrase. }
  destruct (str_eqb _ (L "knowledge_reference")) eqn:K.
  { left. now apply str_eqb_eq. }
  destruct (str_eqb _ (L "workflow_automation")).
  { right. split; [|right]; find_phrase. }
  right. split; [|left]; find_phrase.
Qed.

Lemma kept_in_generated (a : Analysis) (w : str) :
  length (filled_template a) <= MAX_DESCRIPTION_LENGTH ->
  phrase w = true ->
  (exists x y, filled_template a = x ++ w ++ y) ->
  contains w (generate_optimized_description a) = true.
Proof.
  intros Hl Hw (x & y & E). rewrite (generated_within_limit a Hl), E.
  destruct (phrase_kept w Hw x y) as (x' & y' & ->).
  apply contains_app. eauto.
Qed.

Lemma generated_trigger_kept (a : Analysis) :
  length (filled_template a) <= MAX_DESCRIPTION_LENGTH ->
  contains (L "use this skill when") (lower (generate_optimized_description a))
  || contains (L "use when") (lower (generate_optimized_description a)) = true.
Proof.
  intro Hl. apply orb_true_iff.
  destruct (template_phrases a) as [E|E].
  - left. apply (contains_lower (L "Use this skill when")).
    now apply kept_in_generated.
  - right. apply (contains_lower (L "Use when")). now apply kept_in_generated.
Qed.

Lemma trigger_points_of_phrase (d : str) :
  contains (L "use this skill when") (lower d)
  || contains (L "use when") (lower d) = true ->
  trigger_points d = 20.
Proof.
  intro T. unfold trigger_points, re_search.
  change score_trigger_re with (Alt advisor_trigger_re (lit "when claude needs")).
  rewrite search_alt_l; [reflexivity|].
  change (search_from advisor_trigger_re None ?s) with (re_search advisor_trigger_re s).
  now rewrite advisor_trigger_words.
Qed.

Lemma generated_item_points (a : Analysis) :
  length (filled_template a) <= MAX_DESCRIPTION_LENGTH ->
  classify_skill_type a = L "knowledge_reference"
  \/ (10 <= enum_points (generate_optimized_description a)
      /\ 10 <= catchall_points (generate_optimized_description a)
               + examples_points (generate_optimized_description a)).
Proof.
  intro Hl. destruct (template_items a) as [K|[E1 E2]]; [now left|right]. split.
  - assert (C : contains (L "(1)") (generate_optimized_description a) = true)
      by now apply kept_in_generated.
    apply contains_app in C as (x & y & C).
    assert (S : re_search enum_re (generate_optimized_description a) = true).
    { apply enum_re_search. exists x, (L "1"), y. rewrite C.
      repeat split; [discriminate]. }
    apply enum_points_search in S. unfold enum_points in *. cbv zeta in *.
    destruct (3 <=? _); [lia|]. destruct (1 <=? _); lia.
  - destruct E2 as [E2|E2].
    + assert (C : contains (L "or any other")
                    (generate_optimized_description a) = true)
        by now apply kept_in_generated.
      apply (contains_lower (L "or any other")) in C.
      apply catchall_found in C. unfold catchall_points. rewrite C. lia.
    + assert (C : contains (L "(examples include")
                    (generate_optimized_description a) = true)
        by now apply kept_in_generated.
      apply (contains_lower (L "(examples include")) in C.
      assert (C' : contains (L "examples include")
                     (lower (generate_optimized_description a)) = true).
      { apply contains_app in C as (x & y & ->). apply contains_app.
        exists (x ++ L "("), y. rewrite <- !app_assoc. reflexivity. }
      apply examples_hint_found in C'. unfold examples_points. rewrite C'. lia.
Qed.

(** X16: when the filled template is within the limit of 1024 characters,
    the generated description keeps the trigger phrase of its template, so
    that it earns the 20 points for the trigger and the analyzer would not
    report a missing trigger phrase; unless the skill is classified as a
    knowledge reference, it also keeps the first enumerated item and its
    catch-all or examples phrase, which earn at least 10 points each. *)
Theorem generated_description_phrases (a : Analysis) :
  length (filled_template a) <= MAX_DESCRIPTION_LENGTH ->
  trigger_points (generate_optimized_description a) = 20
  /\ re_search trigger_issue_re (lower (generate_optimized_description a)) = true
  /\ (classify_skill_type a = L "knowledge_reference"
      \/ (10 <= enum_points (generate_optimized_description a)
          /\ 10 <= catchall_points (generate_optimized_description a)
                   + examples_points (generate_optimized_description a))).
Proof.
  intro Hl. pose proof (generated_trigger_kept a Hl) as T.
  split; [|split].
  - now apply trigger_points_of_phrase.
  - rewrite trigger_issue_words. cbn [existsb].
    apply orb_true_iff in T as [T|T]; rewrite T; cbn [orb];
      [reflexivity|now rewrite !orb_true_r].
  - now apply generated_item_points.
Qed.

Lemma generated_description_phrases_witness :
  trigger_points (generate_optimized_description plain_analysis) = 20.
Proof.
  apply (generated_description_phrases plain_analysis). vm_compute. lia.
Defined.

(** X17: for an analyzed skill whose filled template is within the limit,
    the generated description scores at least 35 points, and at least 55
    unless the skill is classified as a knowledge reference. *)
Theorem analyzed_description_score_floor
    (yaml_safe_load : str -> option header) (set_to_list : list str -> list str)
    (skill_path : SkillDir) (a : Analysis) :
  analyze_skill yaml_safe_load set_to_list skill_path = inr a ->
  length (filled_template a) <= MAX_DESCRIPTION_LENGTH ->
  35 <= score_description (generate_optimized_description a) a
  /\ (classify_skill_type a <> L "knowledge_reference" ->
      55 <= score_description (generate_optimized_description a) a).
Proof.
  intros H Hl. apply analyzed_signals in H as [Hv Ht].
  pose proof (generated_nonempty a Hv) as Hne.
  pose proof (first_type_points a Hv Ht) as Hf.
  pose proof (trigger_points_of_phrase _ (generated_trigger_kept a Hl)) as Hp.
  pose proof (generated_item_points a Hl) as Hk.
  unfold score_description.
  destruct (generate_optimized_description a) as [|c g] eqn:G; [congruence|].
  cbn [is_nil]. rewrite Hp, Hf. split; [lia|].
  intro K. destruct Hk as [Hk|[H1 H2]]; [contradiction|]. lia.
Qed.

Lemma analyzed_description_score_floor_witness :
  35 <= score_description (generate_optimized_description empty_pdf_analysis)
          empty_pdf_analysis.
Proof.
  apply (analyzed_description_score_floor empty_pdf_yaml (fun l => l)
           empty_pdf_dir empty_pdf_analysis).
  - vm_compute. reflexivity.
  - vm_compute. lia.
Defined.

(** ** The cleaning never lengthens *)

Lemma sub_aux_delete_length (r : re) :
  forall s count k prev, length (sub_aux r [] count k prev s) <= length s.
Proof.
  induction s as [|c s IH]; intros count k prev; cbn [sub_aux].
  - destruct k, (count_open count), (match_at r prev []); cbn [length]; lia.
  - destruct k as [|k]; [|specialize (IH count k (Some c)); cbn [length]; lia].
    destruct (count_open count);
      [|specialize (IH count 0 (Some c)); cbn [length]; lia].
    destruct (match_at r prev (c :: s)) as [[[|n] g]|]; cbn [app length].
    + specialize (IH (hi_pred count) 0 (Some c)). lia.
    + specialize (IH (hi_pred count) n (Some c)). lia.
    + specialize (IH count 0 (Some c)). lia.
Qed.

Lemma collapse_length :
  forall n s, length s <= n -> length (collapse s) <= length s.
Proof.
  induction n as [|n IH]; intros s Hn.
  - destruct s; [reflexivity|cbn [length] in Hn; lia].
  - destruct s as [|c s]; [reflexivity|]. cbn [length] in Hn.
    rewrite collapse_cons. destruct (is_space c); cbn [length].
    + pose proof (dropwhile_length is_space s).
      specialize (IH (dropwhile is_space s) ltac:(lia)). lia.
    + specialize (IH s ltac:(lia)). lia.
Qed.

Lemma strip_length (s : str) : length (strip s) <= length s.
Proof.
  unfold strip, lstrip_p.
  pose proof (rstrip_p_length is_space (dropwhile is_space s)).
  pose proof (dropwhile_length is_space s). lia.
Qed.

(** X18: the shortening and the cleaning never lengthen: the generated
    description is at most as long as the filled template, so that a
    template within the limit of 1024 characters gives a description
    within it. *)
Theorem generated_description_not_longer (a : Analysis) :
  length (generate_optimized_description a) <= length (filled_template a)
  /\ (length (filled_template a) <= MAX_DESCRIPTION_LENGTH ->
      length (generate_optimized_description a) <= MAX_DESCRIPTION_LENGTH).
Proof.
  assert (H : forall d, length (post_process d) <= length d).
  { intro d. unfold post_process. cbv zeta.
    set (d1 := if MAX_DESCRIPTION_LENGTH <? length d
               then strip (re_sub examples_re [] None d) else d).
    assert (H1 : length d1 <= length d).
    { unfold d1. destruct (_ <? _); [|lia].
      pose proof (strip_length (re_sub examples_re [] None d)).
      pose proof (sub_aux_delete_length examples_re d None 0 None).
      unfold re_sub in *. lia. }
    clearbody d1.
    set (d2 := if MAX_DESCRIPTION_LENGTH <? length d1
               then re_sub scenario_item_re [] (Some 2) d1 else d1).
    assert (H2 : length d2 <= length d1).
    { unfold d2. destruct (_ <? _); [|apply le_n].
      apply sub_aux_delete_length. }
    clearbody d2.
    change (re_sub spaces_re (L " ") None d2) with (collapse d2).
    pose proof (collapse_length (length d2) d2 (le_n _)).
    pose proof (strip_length (collapse d2)).
    pose proof (rstrip_p_length (mem_c (L ",.")) (strip (collapse d2))).
    unfold rstrip. lia. }
  rewrite generate_optimized_description_split.
  split; [apply H|]. intro Hl. specialize (H (filled_template a)). lia.
Qed.

(** ** Technologies *)

Lemma search_alt_r (r1 r2 : re) (s : str) :
  forall prev, search_from r2 prev s = true -> search_from (Alt r1 r2) prev s = true.
Proof.
  assert (M : forall prev t, is_some (match_at r2 prev t) = true ->
                             is_some (match_at (Alt r1 r2) prev t) = true).
  { intros prev t. unfold match_at. cbn [m].
    destruct (m r1 None prev t _); [reflexivity|auto]. }
  induction s as [|c s IH]; intros prev H; cbn [search_from] in *.
  - specialize (M prev []). destruct (match_at r2 prev []); [|discriminate].
    destruct (match_at (Alt r1 r2) prev []); [reflexivity|]. now specialize (M eq_refl).
  - specialize (M prev (c :: s)).
    destruct (match_at (Alt r1 r2) prev (c :: s)); [reflexivity|].
    destruct (match_at r2 prev (c :: s)); [now specialize (M eq_refl)|]. now apply IH.
Qed.

Lemma fence_found (w : string) (s : str) :
  contains (L "```" ++ L w) s = true ->
  re_search (Cat fence (lit w)) s = true.
Proof.
  apply search_from_contains. intros prev t H.
  rewrite startswith_split in H. apply andb_true_iff in H as [H1 H2].
  unfold match_at, fence. cbn [m]. rewrite m_lit, H1, m_lit, H2. reflexivity.
Qed.

(** X19: the technologies of a skill are a selection of the four labels
    python, javascript, bash and has_scripts, in this order.  A fenced code
    block is enough for its label: a fence marked python gives python, one
    whose mark begins with js gives javascript (a fence marked json as
    well), and one whose mark begins with sh gives bash. *)
Theorem find_code_patterns_fences (content : str) :
  In (find_code_patterns content)
     (sublists [L "python"; L "javascript"; L "bash"; L "has_scripts"])
  /\ (contains (L "```python") content = true ->
      In (L "python") (find_code_patterns content))
  /\ (contains (L "```js") content = true ->
      In (L "javascript") (find_code_patterns content))
  /\ (contains (L "```json") content = true ->
      In (L "javascript") (find_code_patterns content))
  /\ (contains (L "```sh") content = true ->
      In (L "bash") (find_code_patterns content)).
Proof.
  assert (J : contains (L "```js") content = true ->
              In (L "javascript") (find_code_patterns content)).
  { intro H. unfold find_code_patterns. cbv zeta.
    apply in_map_iff. eexists (L "javascript", true). split; [reflexivity|].
    apply filter_In. split; [|reflexivity]. right. left. f_equal.
    unfold re_search. cbn [alts].
    apply search_alt_r, search_alt_l. now apply (fence_found "js"). }
  split; [|split; [|split; [exact J|split]]].
  - unfold find_code_patterns. cbv zeta.
    repeat match goal with
           | |- context [re_search ?r content] =>
               generalize (re_search r content); intro
           end.
    repeat match goal with b : bool |- _ => destruct b end;
      cbn [filter snd map fst sublists app In];
      repeat (first [left; reflexivity | right]).
  - intro H. unfold find_code_patterns. cbv zeta.
    apply in_map_iff. eexists (L "python", true). split; [reflexivity|].
    apply filter_In. split; [|reflexivity]. left. f_equal.
    unfold re_search. cbn [alts].
    apply search_alt_l. now apply (fence_found "python").
  - intro H. apply J. apply contains_app in H as (x & y & ->).
    apply contains_app. exists x, (L "on" ++ y). reflexivity.
  - intro H. unfold find_code_patterns. cbv zeta.
    apply in_map_iff. eexists (L "bash", true). split; [reflexivity|].
    apply filter_In. split; [|reflexivity]. right. right. left. f_equal.
    unfold re_search. cbn [alts].
    apply search_alt_r, search_alt_l. now apply (fence_found "sh").
Qed.

Lemma find_code_patterns_fences_witness :
  In (L "javascript")
     (find_code_patterns (L "```json" ++ nl :: L "{}" ++ nl :: L "```")).
Proof.
  apply (find_code_patterns_fences (L "```json" ++ nl :: L "{}" ++ nl :: L "```")).
  vm_compute. reflexivity.
Defined.
